(** * proxt-TV: the stream relay and the EPG filter of proxy.js

    A shallow embedding of the Express handlers of the repository
    (the [/proxy] relay with its HLS playlist rewrite, and the [/epg]
    filter) together with the JavaScript platform functions they call
    ([String.prototype.replace] with the line regex, [startsWith],
    [endsWith], [includes], [trim], [encodeURIComponent], [new URL]). *)

From Stdlib Require Import List NArith ZArith Ascii String DecimalString Bool Arith Lia.
Import ListNotations.

Local Open Scope N_scope.
Local Open Scope list_scope.

(** ** JavaScript strings

    A JavaScript string is a sequence of UTF-16 code units. *)

Module JS.

Definition jstring := list N.

(** An ASCII literal of the source as a JavaScript string. *)
Definition str (s : string) : jstring :=
  map N_of_ascii (list_ascii_of_string s).

Definition jstring_eqb (a b : jstring) : bool :=
  if list_eq_dec N.eq_dec a b then true else false.

(** [s.startsWith(p)] *)
Fixpoint startsWith (s p : jstring) : bool :=
  match p, s with
  | [], _ => true
  | _ :: _, [] => false
  | x :: p', y :: s' => (x =? y) && startsWith s' p'
  end.

(** [s.endsWith(p)] *)
Definition endsWith (s p : jstring) : bool :=
  startsWith (rev s) (rev p).

(** [s.includes(p)] *)
Fixpoint includes (s p : jstring) : bool :=
  startsWith s p ||
  match s with
  | [] => false
  | _ :: s' => includes s' p
  end.

(** ECMAScript LineTerminator: LF, CR, LS, PS.  These are the code units
    that [.] does not match and around which [^] and [$] match under the
    [m] flag. *)
Definition isLineTerminator (c : N) : bool :=
  (c =? 0x0A) || (c =? 0x0D) || (c =? 0x2028) || (c =? 0x2029).

(** ECMAScript WhiteSpace: TAB, VT, FF, SP, NBSP, ZWNBSP and category Zs. *)
Definition isWhiteSpace (c : N) : bool :=
  (c =? 0x09) || (c =? 0x0B) || (c =? 0x0C) || (c =? 0x20) || (c =? 0xA0) ||
  (c =? 0x1680) || ((0x2000 <=? c) && (c <=? 0x200A)) ||
  (c =? 0x202F) || (c =? 0x205F) || (c =? 0x3000) || (c =? 0xFEFF).

Fixpoint dropWhile (p : N -> bool) (s : jstring) : jstring :=
  match s with
  | [] => []
  | c :: s' => if p c then dropWhile p s' else s
  end.

(** [s.trim()] removes white space and line terminators at both ends. *)
Definition trim (s : jstring) : jstring :=
  let ws c := isWhiteSpace c || isLineTerminator c in
  rev (dropWhile ws (rev (dropWhile ws s))).

(** Truthiness of a string: the empty string is falsy. *)
Definition truthy (s : jstring) : bool :=
  match s with [] => false | _ :: _ => true end.

(** *** UTF-16 and UTF-8 *)

Definition isHighSurrogate (c : N) : bool := (0xD800 <=? c) && (c <=? 0xDBFF).
Definition isLowSurrogate (c : N) : bool := (0xDC00 <=? c) && (c <=? 0xDFFF).

(** The code point of a surrogate pair. *)
Definition pairCodePoint (hi lo : N) : N :=
  (hi - 0xD800) * 0x400 + (lo - 0xDC00) + 0x10000.

(** [s.isWellFormed()]: no lone surrogate. *)
Fixpoint isWellFormed (s : jstring) : bool :=
  match s with
  | [] => true
  | c :: s' =>
      if isHighSurrogate c then
        match s' with
        | d :: s'' => isLowSurrogate d && isWellFormed s''
        | [] => false
        end
      else if isLowSurrogate c then false
      else isWellFormed s'
  end.

(** The UTF-8 octets of a code point. *)
Definition utf8 (cp : N) : list N :=
  if cp <? 0x80 then [cp]
  else if cp <? 0x800 then
    [N.lor 0xC0 (N.shiftr cp 6); N.lor 0x80 (N.land cp 0x3F)]
  else if cp <? 0x10000 then
    [N.lor 0xE0 (N.shiftr cp 12);
     N.lor 0x80 (N.land (N.shiftr cp 6) 0x3F);
     N.lor 0x80 (N.land cp 0x3F)]
  else
    [N.lor 0xF0 (N.shiftr cp 18);
     N.lor 0x80 (N.land (N.shiftr cp 12) 0x3F);
     N.lor 0x80 (N.land (N.shiftr cp 6) 0x3F);
     N.lor 0x80 (N.land cp 0x3F)].

(** Upper-case hexadecimal digit of a nibble. *)
Definition hexDigit (n : N) : N :=
  if n <? 10 then 0x30 + n else 0x41 + (n - 10).

(** ["%XY"] for one octet (an octet is below 256, so its high nibble is
    below 16). *)
Definition pctOctet (b : N) : jstring :=
  [0x25; hexDigit ((b / 16) mod 16); hexDigit (b mod 16)].

Definition pctOctets (bs : list N) : jstring :=
  flat_map pctOctet bs.

(** *** encodeURIComponent *)

Definition isAsciiAlpha (c : N) : bool :=
  ((0x41 <=? c) && (c <=? 0x5A)) || ((0x61 <=? c) && (c <=? 0x7A)).
Definition isAsciiDigit (c : N) : bool := (0x30 <=? c) && (c <=? 0x39).

(** uriUnreserved: letters, digits and [- _ . ! ~ * ' ( )]. *)
Definition uriUnreserved (c : N) : bool :=
  isAsciiAlpha c || isAsciiDigit c ||
  (c =? 0x2D) || (c =? 0x5F) || (c =? 0x2E) || (c =? 0x21) || (c =? 0x7E) ||
  (c =? 0x2A) || (c =? 0x27) || (c =? 0x28) || (c =? 0x29).

(** The code units that [encodeURIComponent] can produce: the unreserved
    ones, [%] and the upper-case hexadecimal digits. *)
Definition uriSafe (c : N) : bool :=
  uriUnreserved c || (c =? 0x25).

(** [encodeURIComponent(s)]; [None] stands for the URIError thrown at a
    lone surrogate. *)
Fixpoint encodeURIComponent (s : jstring) : option jstring :=
  match s with
  | [] => Some []
  | c :: s' =>
      if uriUnreserved c then option_map (cons c) (encodeURIComponent s')
      else if isHighSurrogate c then
        match s' with
        | d :: s'' =>
            if isLowSurrogate d then
              option_map (app (pctOctets (utf8 (pairCodePoint c d))))
                         (encodeURIComponent s'')
            else None
        | [] => None
        end
      else if isLowSurrogate c then None
      else option_map (app (pctOctets (utf8 c))) (encodeURIComponent s')
  end.

(** *** Decoding a Buffer ([buf.toString("utf8")])

    The UTF-8 decoder of the Encoding Standard: an ill-formed sequence
    becomes U+FFFD and the offending byte is read again as a first byte. *)

Record Utf8State := mkUtf8 {
  codePoint : N;
  bytesNeeded : N;     (* continuation bytes still expected *)
  lowerBoundary : N;
  upperBoundary : N
}.

Definition utf8Initial : Utf8State := mkUtf8 0 0 0x80 0xBF.

(** A byte read when no continuation byte is expected: the code points
    emitted and the next state. *)
Definition utf8First (b : N) : list N * Utf8State :=
  if b <=? 0x7F then ([b], utf8Initial)
  else if (0xC2 <=? b) && (b <=? 0xDF) then
    ([], mkUtf8 (N.land b 0x1F) 1 0x80 0xBF)
  else if (0xE0 <=? b) && (b <=? 0xEF) then
    ([], mkUtf8 (N.land b 0xF) 2
                (if b =? 0xE0 then 0xA0 else 0x80)
                (if b =? 0xED then 0x9F else 0xBF))
  else if (0xF0 <=? b) && (b <=? 0xF4) then
    ([], mkUtf8 (N.land b 0x7) 3
                (if b =? 0xF0 then 0x90 else 0x80)
                (if b =? 0xF4 then 0x8F else 0xBF))
  else ([0xFFFD], utf8Initial).

Fixpoint utf8Decode (st : Utf8State) (bytes : list N) : list N :=
  match bytes with
  | [] => if bytesNeeded st =? 0 then [] else [0xFFFD]
  | b :: rest =>
      if bytesNeeded st =? 0 then
        let '(out, st') := utf8First b in out ++ utf8Decode st' rest
      else if (b <? lowerBoundary st) || (upperBoundary st <? b) then
        let '(out, st') := utf8First b in 0xFFFD :: out ++ utf8Decode st' rest
      else
        let cp := N.lor (N.shiftl (codePoint st) 6) (N.land b 0x3F) in
        if bytesNeeded st =? 1 then cp :: utf8Decode utf8Initial rest
        else utf8Decode (mkUtf8 cp (bytesNeeded st - 1) 0x80 0xBF) rest
  end.

(** The UTF-16 code units of a code point. *)
Definition utf16 (cp : N) : jstring :=
  if cp <? 0x10000 then [cp]
  else [0xD800 + (cp - 0x10000) / 0x400; 0xDC00 + (cp - 0x10000) mod 0x400].

(** A Unicode scalar value: a code point that is no surrogate. *)
Definition isScalar (cp : N) : bool :=
  (cp <? 0xD800) || ((0xE000 <=? cp) && (cp <? 0x110000)).

(** The states of the decoder that its transitions keep to: the bounds
    on the code point read so far are those of a scalar value. *)
Definition utf8Reachable (st : Utf8State) : Prop :=
  0x80 <= lowerBoundary st /\ upperBoundary st <= 0xBF /\
  (bytesNeeded st = 0
   \/ (bytesNeeded st = 1
       /\ (2 <= codePoint st <= 0x35F \/ 0x380 <= codePoint st <= 0x43FF))
   \/ (bytesNeeded st = 2 /\ codePoint st <= 0x10F
       /\ (codePoint st = 0 -> 0xA0 <= lowerBoundary st)
       /\ (codePoint st = 13 -> upperBoundary st <= 0x9F))
   \/ (bytesNeeded st = 3 /\ codePoint st <= 4
       /\ (codePoint st = 0 -> 0x90 <= lowerBoundary st)
       /\ (codePoint st = 4 -> upperBoundary st <= 0x8F))).

(** A Buffer is a sequence of octets. *)
Definition Buffer := list N.

(** [buf.toString("utf8")], and a Buffer appended to a string. *)
Definition toString (buf : Buffer) : jstring :=
  flat_map utf16 (utf8Decode utf8Initial buf).

End JS.

(** ** The URL parser of the platform ([new URL(input, base)])

    A functional rendering of the basic URL parser of the WHATWG URL
    Standard, which Node's [URL] class implements.  Each state of the
    standard's state machine is a function over the code points that
    remain at the pointer; "decrease pointer by 1 and switch to state X"
    is a call of X on the same remaining input.  The components of a URL
    record are ASCII strings. *)

Module Whatwg.

Import JS.

(** The Unicode part of domain-to-ASCII (UTS #46 processing of a domain
    that is not plain ASCII or that has an [xn--] label), applied to the
    percent-decoded octets of the host.  It rests on the Unicode IDNA
    tables, which are not part of this development; every statement
    below holds for any implementation of it. *)
Class IDNA := unicodeToASCII : list N -> option string.

(** The implementation that accepts no such domain.  The examples below
    use it; their hosts are plain ASCII, which never reach it. *)
Definition asciiHosts : IDNA := fun _ => None.

Inductive Host :=
| Named (h : string)        (* a domain, an opaque host or the empty host *)
| IPv4 (address : N)
| IPv6 (pieces : list N).

Inductive Path :=
| OpaquePath (p : string)
| Segments (l : list string).

Record URL := mkURL {
  scheme : string;
  username : string;
  password : string;
  host : option Host;
  port : option N;
  path : Path;
  query : option string;
  fragment : option string
}.

Definition emptyURL : URL :=
  mkURL "" "" "" None None (Segments []) None None.

Definition setScheme (u : URL) (s : string) : URL :=
  mkURL s (username u) (password u) (host u) (port u) (path u) (query u) (fragment u).
Definition setUsername (u : URL) (s : string) : URL :=
  mkURL (scheme u) s (password u) (host u) (port u) (path u) (query u) (fragment u).
Definition setPassword (u : URL) (s : string) : URL :=
  mkURL (scheme u) (username u) s (host u) (port u) (path u) (query u) (fragment u).
Definition setHost (u : URL) (h : option Host) : URL :=
  mkURL (scheme u) (username u) (password u) h (port u) (path u) (query u) (fragment u).
Definition setPort (u : URL) (p : option N) : URL :=
  mkURL (scheme u) (username u) (password u) (host u) p (path u) (query u) (fragment u).
Definition setPath (u : URL) (p : Path) : URL :=
  mkURL (scheme u) (username u) (password u) (host u) (port u) p (query u) (fragment u).
Definition setQuery (u : URL) (q : option string) : URL :=
  mkURL (scheme u) (username u) (password u) (host u) (port u) (path u) q (fragment u).
Definition setFragment (u : URL) (f : option string) : URL :=
  mkURL (scheme u) (username u) (password u) (host u) (port u) (path u) (query u) f.

(** *** Code points and ASCII strings *)

Definition chr (c : N) : string := String (ascii_of_N c) EmptyString.
Definition text (l : list N) : string := string_of_list_ascii (map ascii_of_N l).
Definition codes (s : string) : list N := map N_of_ascii (list_ascii_of_string s).

(** Conversion of a JavaScript string to scalar values (a USVString):
    surrogate pairs are combined, a lone surrogate becomes U+FFFD. *)
Fixpoint toUSV (s : jstring) : list N :=
  match s with
  | [] => []
  | c :: s' =>
      if isHighSurrogate c then
        match s' with
        | d :: s'' =>
            if isLowSurrogate d then pairCodePoint c d :: toUSV s''
            else 0xFFFD :: toUSV s'
        | [] => [0xFFFD]
        end
      else if isLowSurrogate c then 0xFFFD :: toUSV s'
      else c :: toUSV s'
  end.

Definition SLASH := 0x2F.
Definition BACKSLASH := 0x5C.
Definition QUESTION := 0x3F.
Definition HASH := 0x23.
Definition COLON := 0x3A.
Definition AT := 0x40.
Definition PERCENT := 0x25.
Definition DOT := 0x2E.

Definition isAsciiAlphanumeric (c : N) : bool := isAsciiAlpha c || isAsciiDigit c.
Definition isAsciiHexDigit (c : N) : bool :=
  isAsciiDigit c || ((0x41 <=? c) && (c <=? 0x46)) || ((0x61 <=? c) && (c <=? 0x66)).
Definition hexValue (c : N) : N :=
  if isAsciiDigit c then c - 0x30
  else if (0x41 <=? c) && (c <=? 0x46) then c - 0x41 + 10
  else c - 0x61 + 10.
Definition toLower (c : N) : N :=
  if (0x41 <=? c) && (c <=? 0x5A) then c + 0x20 else c.
Definition isC0ControlOrSpace (c : N) : bool := c <=? 0x20.
Definition isTabOrNewline (c : N) : bool := (c =? 0x09) || (c =? 0x0A) || (c =? 0x0D).

Definition memN (c : N) (l : list N) : bool := existsb (N.eqb c) l.

(** *** Percent-encode sets *)

Definition c0ControlSet (c : N) : bool := (c <=? 0x1F) || (0x7E <? c).
Definition fragmentSet (c : N) : bool :=
  c0ControlSet c || memN c [0x20; 0x22; 0x3C; 0x3E; 0x60].
Definition querySet (c : N) : bool :=
  c0ControlSet c || memN c [0x20; 0x22; 0x23; 0x3C; 0x3E].
Definition specialQuerySet (c : N) : bool := querySet c || (c =? 0x27).
Definition pathSet (c : N) : bool :=
  querySet c || memN c [0x3F; 0x5E; 0x60; 0x7B; 0x7D].
Definition userinfoSet (c : N) : bool :=
  pathSet c || memN c [0x2F; 0x3A; 0x3B; 0x3D; 0x40; 0x5B; 0x5C; 0x5D; 0x7C].

(** UTF-8 percent-encode a code point using a percent-encode set. *)
Definition utf8PercentEncode (set : N -> bool) (c : N) : string :=
  if set c then text (pctOctets (utf8 c)) else chr c.

Definition percentEncodeAll (set : N -> bool) (l : list N) : string :=
  String.concat "" (map (utf8PercentEncode set) l).

(** *** Schemes *)

Definition isSpecialScheme (s : string) : bool :=
  existsb (String.eqb s) ["ftp"; "file"; "http"; "https"; "ws"; "wss"]%string.

Definition isSpecial (u : URL) : bool := isSpecialScheme (scheme u).

Definition defaultPort (s : string) : option N :=
  if String.eqb s "ftp" then Some 21
  else if String.eqb s "http" then Some 80
  else if String.eqb s "https" then Some 443
  else if String.eqb s "ws" then Some 80
  else if String.eqb s "wss" then Some 443
  else None.

(** *** Paths *)

Definition segments (u : URL) : list string :=
  match path u with
  | Segments l => l
  | OpaquePath _ => []
  end.

Definition hasOpaquePath (u : URL) : bool :=
  match path u with
  | OpaquePath _ => true
  | Segments _ => false
  end.

Definition isWindowsDriveLetter (l : list N) : bool :=
  match l with
  | [a; b] => isAsciiAlpha a && ((b =? COLON) || (b =? 0x7C))
  | _ => false
  end.

Definition isNormalizedWindowsDriveLetter (l : list N) : bool :=
  match l with
  | [a; b] => isAsciiAlpha a && (b =? COLON)
  | _ => false
  end.

Definition startsWithWindowsDriveLetter (l : list N) : bool :=
  match l with
  | a :: b :: tl =>
      isWindowsDriveLetter [a; b] &&
      match tl with
      | [] => true
      | c :: _ => memN c [SLASH; BACKSLASH; QUESTION; HASH]
      end
  | _ => false
  end.

Definition isSingleDot (b : string) : bool :=
  existsb (String.eqb b) ["."; "%2e"; "%2E"]%string.

Definition isDoubleDot (b : string) : bool :=
  existsb (String.eqb b)
    [".."; ".%2e"; ".%2E"; "%2e."; "%2E."; "%2e%2e"; "%2e%2E"; "%2E%2e"; "%2E%2E"]%string.

(** Shorten a URL's path. *)
Definition shorten (u : URL) : URL :=
  match segments u with
  | [d] =>
      if String.eqb (scheme u) "file" && isNormalizedWindowsDriveLetter (codes d)
      then u else setPath u (Segments [])
  | l => setPath u (Segments (removelast l))
  end.

Definition appendSegment (u : URL) (s : string) : URL :=
  setPath u (Segments (segments u ++ [s])).

(** *** Host parsing *)

Definition forbiddenHostCodePoint (c : N) : bool :=
  memN c [0x00; 0x09; 0x0A; 0x0D; 0x20; 0x23; 0x2F; 0x3A; 0x3C; 0x3E; 0x3F;
          0x40; 0x5B; 0x5C; 0x5D; 0x5E; 0x7C].

Definition forbiddenDomainCodePoint (c : N) : bool :=
  forbiddenHostCodePoint c || (c <=? 0x1F) || (c =? PERCENT) || (c =? 0x7F).

(** Percent-decode a byte sequence. *)
Fixpoint percentDecode (bytes : list N) : list N :=
  match bytes with
  | [] => []
  | b :: tl =>
      if b =? PERCENT then
        match tl with
        | h1 :: h2 :: rest =>
            if isAsciiHexDigit h1 && isAsciiHexDigit h2
            then (16 * hexValue h1 + hexValue h2) :: percentDecode rest
            else b :: percentDecode tl
        | _ => b :: percentDecode tl
        end
      else b :: percentDecode tl
  end.

(** Strictly split on a code point. *)
Fixpoint splitOn (sep : N) (l : list N) : list (list N) :=
  match l with
  | [] => [[]]
  | c :: l' =>
      if c =? sep then [] :: splitOn sep l'
      else match splitOn sep l' with
           | p :: ps => (c :: p) :: ps
           | [] => [[c]]
           end
  end.

Definition digitsValue (radix : N) (l : list N) : N :=
  fold_left (fun acc c => acc * radix + hexValue c) l 0.

Definition isRadixDigit (radix : N) (c : N) : bool :=
  isAsciiHexDigit c && (hexValue c <? radix).

(** The IPv4 number parser; [None] is failure. *)
Definition parseIPv4Number (input : list N) : option N :=
  match input with
  | [] => None
  | _ =>
      let '(radix, digits) :=
        match input with
        | 0x30 :: x :: tl =>
            if (x =? 0x78) || (x =? 0x58) then (16, tl) else (8, x :: tl)
        | _ => (10, input)
        end in
      match digits with
      | [] => Some 0
      | _ => if forallb (isRadixDigit radix) digits
             then Some (digitsValue radix digits) else None
      end
  end.

Definition isEmptyList {A} (l : list A) : bool :=
  match l with [] => true | _ => false end.

(** The ends-in-a-number checker. *)
Definition endsInNumber (input : list N) : bool :=
  let parts := splitOn DOT input in
  let parts' :=
    if isEmptyList (last parts [])
    then (if (List.length parts =? 1)%nat then [] else removelast parts)
    else parts in
  match parts' with
  | [] => false
  | _ =>
      let l := last parts' [] in
      (negb (isEmptyList l) && forallb isAsciiDigit l) ||
      match parseIPv4Number l with Some _ => true | None => false end
  end.

Fixpoint allSome {A} (l : list (option A)) : option (list A) :=
  match l with
  | [] => Some []
  | None :: _ => None
  | Some x :: l' => option_map (cons x) (allSome l')
  end.

(** The IPv4 parser. *)
Definition parseIPv4 (input : list N) : option N :=
  let parts := splitOn DOT input in
  let parts :=
    if isEmptyList (last parts []) && (1 <? List.length parts)%nat
    then removelast parts else parts in
  if (4 <? List.length parts)%nat then None
  else
    match allSome (map parseIPv4Number parts) with
    | None => None
    | Some numbers =>
        let lastN := last numbers 0 in
        let front := removelast numbers in
        if existsb (fun n => 255 <? n) front then None
        else if 256 ^ (5 - N.of_nat (List.length numbers)) <=? lastN then None
        else
          Some (fst (fold_left
                       (fun '(ipv4, counter) n => (ipv4 + n * 256 ^ (3 - counter), counter + 1))
                       front (lastN, 0)))
    end.

(** Reads up to [max] hexadecimal digits: value, count and what remains. *)
Fixpoint readHex (max : nat) (value len : N) (rest : list N) : N * N * list N :=
  match max, rest with
  | S max', c :: rest' =>
      if isAsciiHexDigit c
      then readHex max' (value * 0x10 + hexValue c) (len + 1) rest'
      else (value, len, rest)
  | _, _ => (value, len, rest)
  end.

(** One decimal part of an IPv4 address embedded in an IPv6 address. *)
Fixpoint readIPv4Piece (piece : option N) (rest : list N) : option (option N * list N) :=
  match rest with
  | c :: rest' =>
      if isAsciiDigit c then
        let number := c - 0x30 in
        match piece with
        | None => readIPv4Piece (Some number) rest'
        | Some 0 => None
        | Some p =>
            if 255 <? p * 10 + number then None
            else readIPv4Piece (Some (p * 10 + number)) rest'
        end
      else Some (piece, rest)
  | [] => Some (piece, rest)
  end.

Definition setPiece (address : list N) (i : nat) (v : N) : list N :=
  firstn i address ++ v :: skipn (S i) address.

(** The loop over the dotted-decimal tail of an IPv6 address. *)
Fixpoint ipv4InIPv6 (fuel : nat) (address : list N) (pieceIndex : nat)
         (numbersSeen : nat) (rest : list N) : option (list N * nat) :=
  match rest with
  | [] => if (numbersSeen =? 4)%nat then Some (address, pieceIndex) else None
  | c :: rest' =>
      match fuel with
      | O => None
      | S fuel' =>
          let afterDot :=
            if (0 <? numbersSeen)%nat then
              if (c =? DOT) && (numbersSeen <? 4)%nat then Some rest' else None
            else Some rest in
          match afterDot with
          | None => None
          | Some r =>
              match r with
              | d :: _ =>
                  if isAsciiDigit d then
                    match readIPv4Piece None r with
                    | Some (Some ipv4Piece, r') =>
                        let address' :=
                          setPiece address pieceIndex
                                   (nth pieceIndex address 0 * 0x100 + ipv4Piece) in
                        let numbersSeen' := S numbersSeen in
                        let pieceIndex' :=
                          if (numbersSeen' =? 2)%nat || (numbersSeen' =? 4)%nat
                          then S pieceIndex else pieceIndex in
                        ipv4InIPv6 fuel' address' pieceIndex' numbersSeen' r'
                    | _ => None
                    end
                  else None
              | [] => None
              end
          end
      end
  end.

(** The main loop of the IPv6 parser.  Every iteration that does not end
    the loop consumes at least one code point, so [S (length input)]
    iterations are enough. *)
Fixpoint ipv6Loop (fuel : nat) (address : list N) (pieceIndex : nat)
         (compress : option nat) (rest : list N) : option (list N * nat * option nat) :=
  match rest with
  | [] => Some (address, pieceIndex, compress)
  | c :: rest' =>
      match fuel with
      | O => None
      | S fuel' =>
          if (pieceIndex =? 8)%nat then None
          else if c =? COLON then
            match compress with
            | Some _ => None
            | None => ipv6Loop fuel' address (S pieceIndex) (Some (S pieceIndex)) rest'
            end
          else
            let '(value, len, r) := readHex 4 0 0 rest in
            match r with
            | d :: r' =>
                if d =? DOT then
                  if len =? 0 then None
                  else if (6 <? pieceIndex)%nat then None
                  else
                    match ipv4InIPv6 (S (List.length rest)) address pieceIndex 0 rest with
                    | Some (address', pieceIndex') => Some (address', pieceIndex', compress)
                    | None => None
                    end
                else if d =? COLON then
                  match r' with
                  | [] => None
                  | _ => ipv6Loop fuel' (setPiece address pieceIndex value)
                                  (S pieceIndex) compress r'
                  end
                else None
            | [] => Some (setPiece address pieceIndex value, S pieceIndex, compress)
            end
      end
  end.

(** The IPv6 parser; the result has eight pieces. *)
Definition parseIPv6 (input : list N) : option (list N) :=
  let zeros := repeat 0 8 in
  let start :=
    match input with
    | c :: rest =>
        if c =? COLON then
          match rest with
          | d :: rest' => if d =? COLON then Some (rest', 1%nat, Some 1%nat) else None
          | [] => None
          end
        else Some (input, 0%nat, None)
    | [] => Some (input, 0%nat, None)
    end in
  match start with
  | None => None
  | Some (rest, pieceIndex, compress) =>
      match ipv6Loop (S (List.length rest)) zeros pieceIndex compress rest with
      | None => None
      | Some (address, pieceIndex, Some k) =>
          (* the pieces after the compression move to the end *)
          Some (firstn k address ++ repeat 0 (8 - pieceIndex)%nat
                ++ firstn (pieceIndex - k)%nat (skipn k address))
      | Some (address, pieceIndex, None) =>
          if (pieceIndex =? 8)%nat then Some address else None
      end
  end.

(** ASCII domains without an [xn--] label are lower-cased by
    domain-to-ASCII; the others go through [unicodeToASCII]. *)
Definition hasPunycodeLabel (domain : list N) : bool :=
  existsb (fun label => startsWith (map toLower label) (str "xn--"))
          (splitOn DOT domain).

Definition domainToASCII {idna : IDNA} (bytes : list N) : option string :=
  let result :=
    if forallb (fun b => b <? 0x80) bytes && negb (hasPunycodeLabel bytes)
    then Some (text (map toLower bytes))
    else unicodeToASCII bytes in
  match result with
  | Some EmptyString => None
  | r => r
  end.

(** The opaque-host parser. *)
Definition parseOpaqueHost (input : list N) : option Host :=
  if existsb forbiddenHostCodePoint input then None
  else Some (Named (percentEncodeAll c0ControlSet input)).

(** The host parser. *)
Definition parseHost {idna : IDNA} (input : list N) (isOpaque : bool) : option Host :=
  match input with
  | 0x5B :: inner =>
      if last input 0 =? 0x5D
      then option_map IPv6 (parseIPv6 (removelast inner))
      else None
  | _ =>
      if isOpaque then parseOpaqueHost input
      else
        match domainToASCII (percentDecode (flat_map utf8 input)) with
        | None => None
        | Some asciiDomain =>
            if existsb forbiddenDomainCodePoint (codes asciiDomain) then None
            else if endsInNumber (codes asciiDomain)
            then option_map IPv4 (parseIPv4 (codes asciiDomain))
            else Some (Named asciiDomain)
        end
  end.

(** *** The states of the basic URL parser

    The states are listed from the last to the first, each calling the
    states it can switch to.  [None] is the parser's failure. *)

Section States.

Context {idna : IDNA}.

(** Fragment state: everything up to the end is the fragment. *)
Definition fragmentState (url : URL) (rest : list N) : URL :=
  setFragment url (Some (percentEncodeAll fragmentSet rest)).

(** The code points before the first [sep], and those after it if any. *)
Fixpoint breakAt (sep : N) (l : list N) : list N * option (list N) :=
  match l with
  | [] => ([], None)
  | c :: l' =>
      if c =? sep then ([], Some l')
      else let '(a, b) := breakAt sep l' in (c :: a, b)
  end.

(** Query state. *)
Definition queryState (url : URL) (rest : list N) : URL :=
  let '(buffer, after) := breakAt HASH rest in
  let set := if isSpecial url then specialQuerySet else querySet in
  let url := setQuery url (Some (percentEncodeAll set buffer)) in
  match after with
  | Some rest' => fragmentState url rest'
  | None => url
  end.

(** Opaque path state. *)
Fixpoint opaquePathState (url : URL) (p : string) (rest : list N) : URL :=
  match rest with
  | [] => setPath url (OpaquePath p)
  | c :: rest' =>
      if c =? QUESTION then queryState (setPath url (OpaquePath p)) rest'
      else if c =? HASH then fragmentState (setPath url (OpaquePath p)) rest'
      else if c =? 0x20 then
        match rest' with
        | d :: _ =>
            if (d =? QUESTION) || (d =? HASH)
            then opaquePathState url (p ++ "%20") rest'
            else opaquePathState url (p ++ " ") rest'
        | [] => opaquePathState url (p ++ " ") rest'
        end
      else opaquePathState url (p ++ utf8PercentEncode c0ControlSet c) rest'
  end.

(** What the path state does with [buffer] at the end of a segment; [c]
    is the code point that ended it ([None] at the end of the input). *)
Definition endSegment (url : URL) (buffer : string) (c : option N) : URL :=
  let atSlash :=
    match c with
    | Some c => (c =? SLASH) || (isSpecial url && (c =? BACKSLASH))
    | None => false
    end in
  if isDoubleDot buffer then
    let url := shorten url in
    if atSlash then url else appendSegment url ""
  else if isSingleDot buffer then
    if atSlash then url else appendSegment url ""
  else
    let buffer :=
      if String.eqb (scheme url) "file" && isEmptyList (segments url)
         && isWindowsDriveLetter (codes buffer)
      then (String.substring 0 1 buffer ++ ":")%string else buffer in
    appendSegment url buffer.

(** Path state. *)
Fixpoint pathState (url : URL) (buffer : string) (rest : list N) : URL :=
  match rest with
  | [] => endSegment url buffer None
  | c :: rest' =>
      if (c =? SLASH) || (isSpecial url && (c =? BACKSLASH))
      then pathState (endSegment url buffer (Some c)) "" rest'
      else if c =? QUESTION
      then queryState (endSegment url buffer (Some c)) rest'
      else if c =? HASH
      then fragmentState (endSegment url buffer (Some c)) rest'
      else pathState url (buffer ++ utf8PercentEncode pathSet c) rest'
  end.

(** Path start state. *)
Definition pathStartState (url : URL) (rest : list N) : URL :=
  if isSpecial url then
    match rest with
    | c :: rest' =>
        if (c =? SLASH) || (c =? BACKSLASH)
        then pathState url "" rest' else pathState url "" rest
    | [] => pathState url "" rest
    end
  else
    match rest with
    | c :: rest' =>
        if c =? QUESTION then queryState url rest'
        else if c =? HASH then fragmentState url rest'
        else if c =? SLASH then pathState url "" rest'
        else pathState url "" rest
    | [] => url
    end.

Definition isAuthorityEnd (url : URL) (c : N) : bool :=
  (c =? SLASH) || (c =? QUESTION) || (c =? HASH)
  || (isSpecial url && (c =? BACKSLASH)).

(** Port state, at a code point that is not a digit. *)
Definition endPort (url : URL) (buffer : list N) (rest : list N) : option URL :=
  match buffer with
  | [] => Some (pathStartState url rest)
  | _ =>
      let p := digitsValue 10 buffer in
      if 65535 <? p then None
      else
        let url :=
          setPort url (if match defaultPort (scheme url) with
                          | Some d => d =? p
                          | None => false
                          end then None else Some p) in
        Some (pathStartState url rest)
  end.

(** Port state. *)
Fixpoint portState (url : URL) (buffer : list N) (rest : list N) : option URL :=
  match rest with
  | [] => endPort url buffer rest
  | c :: rest' =>
      if isAsciiDigit c then portState url (buffer ++ [c]) rest'
      else if isAuthorityEnd url c then endPort url buffer rest
      else None
  end.

(** Host state, at the end of the host. *)
Definition endHost (url : URL) (buffer : list N) (rest : list N) : option URL :=
  if isSpecial url && isEmptyList buffer then None
  else
    match parseHost buffer (negb (isSpecial url)) with
    | None => None
    | Some h => Some (pathStartState (setHost url (Some h)) rest)
    end.

(** Host state. *)
Fixpoint hostState (url : URL) (buffer : list N) (insideBrackets : bool)
         (rest : list N) : option URL :=
  match rest with
  | [] => endHost url buffer rest
  | c :: rest' =>
      if (c =? COLON) && negb insideBrackets then
        match buffer with
        | [] => None
        | _ =>
            match parseHost buffer (negb (isSpecial url)) with
            | None => None
            | Some h => portState (setHost url (Some h)) [] rest'
            end
        end
      else if isAuthorityEnd url c then endHost url buffer rest
      else
        let insideBrackets :=
          if c =? 0x5B then true
          else if c =? 0x5D then false
          else insideBrackets in
        hostState url (buffer ++ [c]) insideBrackets rest'
  end.

(** The credentials in [buffer], at an [@] of the authority state. *)
Fixpoint addCredentials (url : URL) (passwordTokenSeen : bool) (buffer : list N)
  : URL * bool :=
  match buffer with
  | [] => (url, passwordTokenSeen)
  | c :: buffer' =>
      if (c =? COLON) && negb passwordTokenSeen
      then addCredentials url true buffer'
      else
        let e := utf8PercentEncode userinfoSet c in
        if passwordTokenSeen
        then addCredentials (setPassword url (password url ++ e)) passwordTokenSeen buffer'
        else addCredentials (setUsername url (username url ++ e)) passwordTokenSeen buffer'
  end.

(** Authority state.  [start] is where the host state starts over: the
    input after the last [@], or the start of the authority. *)
Fixpoint authorityState (url : URL) (buffer : list N)
         (atSignSeen passwordTokenSeen : bool) (start rest : list N) : option URL :=
  let atEnd :=
    if atSignSeen && isEmptyList buffer then None
    else hostState url [] false start in
  match rest with
  | [] => atEnd
  | c :: rest' =>
      if c =? AT then
        let buffer := if atSignSeen then codes "%40" ++ buffer else buffer in
        let '(url, passwordTokenSeen) := addCredentials url passwordTokenSeen buffer in
        authorityState url [] true passwordTokenSeen rest' rest'
      else if isAuthorityEnd url c then atEnd
      else authorityState url (buffer ++ [c]) atSignSeen passwordTokenSeen start rest'
  end.

Definition enterAuthority (url : URL) (rest : list N) : option URL :=
  authorityState url [] false false rest rest.

(** Special authority ignore slashes state. *)
Definition specialAuthorityIgnoreSlashesState (url : URL) (rest : list N) : option URL :=
  enterAuthority url (dropWhile (fun c => (c =? SLASH) || (c =? BACKSLASH)) rest).

(** Special authority slashes state. *)
Definition specialAuthoritySlashesState (url : URL) (rest : list N) : option URL :=
  match rest with
  | c :: d :: rest' =>
      if (c =? SLASH) && (d =? SLASH)
      then specialAuthorityIgnoreSlashesState url rest'
      else specialAuthorityIgnoreSlashesState url rest
  | _ => specialAuthorityIgnoreSlashesState url rest
  end.

(** Path or authority state. *)
Definition pathOrAuthorityState (url : URL) (rest : list N) : option URL :=
  match rest with
  | c :: rest' =>
      if c =? SLASH then enterAuthority url rest'
      else Some (pathState url "" rest)
  | [] => Some (pathState url "" rest)
  end.

Definition copyAuthority (url base : URL) : URL :=
  setPort (setHost (setPassword (setUsername url (username base)) (password base))
                   (host base)) (port base).

(** Relative slash state. *)
Definition relativeSlashState (url base : URL) (rest : list N) : option URL :=
  match rest with
  | c :: rest' =>
      if isSpecial url && ((c =? SLASH) || (c =? BACKSLASH))
      then specialAuthorityIgnoreSlashesState url rest'
      else if c =? SLASH then enterAuthority url rest'
      else Some (pathState (copyAuthority url base) "" rest)
  | [] => Some (pathState (copyAuthority url base) "" rest)
  end.

(** Relative state. *)
Definition relativeState (url base : URL) (rest : list N) : option URL :=
  let url := setScheme url (scheme base) in
  let inherited := setQuery (setPath (copyAuthority url base) (path base)) (query base) in
  match rest with
  | c :: rest' =>
      if c =? SLASH then relativeSlashState url base rest'
      else if isSpecial url && (c =? BACKSLASH) then relativeSlashState url base rest'
      else if c =? QUESTION then Some (queryState inherited rest')
      else if c =? HASH then Some (fragmentState inherited rest')
      else Some (pathState (shorten (setQuery inherited None)) "" rest)
  | [] => Some inherited
  end.

(** File host state. *)
Fixpoint fileHostState (url : URL) (buffer : list N) (rest : list N) : option URL :=
  let atEnd :=
    if isWindowsDriveLetter buffer then Some (pathState url (text buffer) rest)
    else if isEmptyList buffer
    then Some (pathStartState (setHost url (Some (Named ""))) rest)
    else
      match parseHost buffer false with
      | None => None
      | Some h =>
          let h := match h with
                   | Named d => if String.eqb d "localhost" then Named "" else h
                   | _ => h
                   end in
          Some (pathStartState (setHost url (Some h)) rest)
      end in
  match rest with
  | [] => atEnd
  | c :: rest' =>
      if memN c [SLASH; BACKSLASH; QUESTION; HASH] then atEnd
      else fileHostState url (buffer ++ [c]) rest'
  end.

Definition isFileBase (base : option URL) : option URL :=
  match base with
  | Some b => if String.eqb (scheme b) "file" then Some b else None
  | None => None
  end.

(** File slash state. *)
Definition fileSlashState (url : URL) (base : option URL) (rest : list N) : option URL :=
  let other :=
    let url :=
      match isFileBase base with
      | Some b =>
          let url := setHost url (host b) in
          match segments b with
          | d :: _ =>
              if negb (startsWithWindowsDriveLetter rest)
                 && isNormalizedWindowsDriveLetter (codes d)
              then appendSegment url d else url
          | [] => url
          end
      | None => url
      end in
    Some (pathState url "" rest) in
  match rest with
  | c :: rest' =>
      if (c =? SLASH) || (c =? BACKSLASH) then fileHostState url [] rest'
      else other
  | [] => other
  end.

(** File state. *)
Definition fileState (url : URL) (base : option URL) (rest : list N) : option URL :=
  let url := setHost (setScheme url "file") (Some (Named "")) in
  match rest with
  | c :: rest' =>
      if (c =? SLASH) || (c =? BACKSLASH) then fileSlashState url base rest'
      else
        match isFileBase base with
        | Some b =>
            let url := setQuery (setPath (setHost url (host b)) (path b)) (query b) in
            if c =? QUESTION then Some (queryState url rest')
            else if c =? HASH then Some (fragmentState url rest')
            else
              let url := setQuery url None in
              let url :=
                if negb (startsWithWindowsDriveLetter rest)
                then shorten url else setPath url (Segments []) in
              Some (pathState url "" rest)
        | None => Some (pathState url "" rest)
        end
  | [] =>
      match isFileBase base with
      | Some b => Some (setQuery (setPath (setHost url (host b)) (path b)) (query b))
      | None => Some (pathState url "" rest)
      end
  end.

(** No scheme state. *)
Definition noSchemeState (base : option URL) (input : list N) : option URL :=
  match base with
  | None => None
  | Some b =>
      if hasOpaquePath b then
        match input with
        | c :: rest' =>
            if c =? HASH then
              Some (fragmentState
                      (setQuery (setPath (setScheme emptyURL (scheme b)) (path b)) (query b))
                      rest')
            else None
        | [] => None
        end
      else if String.eqb (scheme b) "file" then fileState emptyURL base input
      else relativeState emptyURL b input
  end.

(** Scheme state, at the [:] that ends the scheme. *)
Definition afterScheme (base : option URL) (buffer : string) (rest : list N) : option URL :=
  let url := setScheme emptyURL buffer in
  if String.eqb buffer "file" then fileState url base rest
  else if isSpecial url then
    match base with
    | Some b =>
        if String.eqb (scheme b) buffer then
          (* special relative or authority state *)
          match rest with
          | c :: d :: rest' =>
              if (c =? SLASH) && (d =? SLASH)
              then specialAuthorityIgnoreSlashesState url rest'
              else relativeState url b rest
          | _ => relativeState url b rest
          end
        else specialAuthoritySlashesState url rest
    | None => specialAuthoritySlashesState url rest
    end
  else
    match rest with
    | c :: rest' =>
        if c =? SLASH then pathOrAuthorityState url rest'
        else Some (opaquePathState url "" rest)
    | [] => Some (opaquePathState url "" rest)
    end.

(** Scheme state; [input] is the whole input, where the parser starts
    over in the no scheme state. *)
Fixpoint schemeState (base : option URL) (input : list N) (buffer : string)
         (rest : list N) : option URL :=
  match rest with
  | [] => noSchemeState base input
  | c :: rest' =>
      if isAsciiAlphanumeric c || memN c [0x2B; 0x2D; 0x2E]
      then schemeState base input (buffer ++ chr (toLower c)) rest'
      else if c =? COLON then afterScheme base buffer rest'
      else noSchemeState base input
  end.

(** Scheme start state. *)
Definition schemeStartState (base : option URL) (input : list N) : option URL :=
  match input with
  | c :: rest' =>
      if isAsciiAlpha c then schemeState base input (chr (toLower c)) rest'
      else noSchemeState base input
  | [] => noSchemeState base input
  end.

(** The basic URL parser: leading and trailing C0 controls and spaces
    are stripped, tabs and newlines are removed. *)
Definition basicParse (input : list N) (base : option URL) : option URL :=
  let input := dropWhile isC0ControlOrSpace input in
  let input := rev (dropWhile isC0ControlOrSpace (rev input)) in
  let input := filter (fun c => negb (isTabOrNewline c)) input in
  schemeStartState base input.

(** [new URL(input)] and [new URL(input, base)]; [None] is the TypeError
    thrown for an invalid URL. *)
Definition URL_new (input : jstring) (base : option jstring) : option URL :=
  match base with
  | None => basicParse (toUSV input) None
  | Some b =>
      match basicParse (toUSV b) None with
      | None => None
      | Some parsedBase => basicParse (toUSV input) (Some parsedBase)
      end
  end.

End States.

(** *** Serialization and the getters of the [URL] class *)

Definition decimal (n : N) : string := NilZero.string_of_uint (N.to_uint n).

Definition lowerHexDigit (n : N) : N :=
  if n <? 10 then 0x30 + n else 0x61 + (n - 10).

(** A 16-bit piece as the shortest lower-case hexadecimal number. *)
Definition lowerHex (n : N) : string :=
  let ds := [n / 0x1000 mod 0x10; n / 0x100 mod 0x10; n / 0x10 mod 0x10; n mod 0x10] in
  match dropWhile (N.eqb 0) ds with
  | [] => "0"
  | l => text (map lowerHexDigit l)
  end.

Definition serializeIPv4 (address : N) : string :=
  (decimal (address / 0x1000000 mod 0x100) ++ "." ++
   decimal (address / 0x10000 mod 0x100) ++ "." ++
   decimal (address / 0x100 mod 0x100) ++ "." ++
   decimal (address mod 0x100))%string.

Fixpoint zeroRun (l : list N) : nat :=
  match l with
  | 0 :: l' => S (zeroRun l')
  | _ => O
  end.

(** Index and length of the first longest run of two or more zero pieces. *)
Fixpoint longestZeroRun (i : nat) (l : list N) (best : option (nat * nat))
  : option (nat * nat) :=
  match l with
  | [] => best
  | _ :: l' =>
      let r := zeroRun l in
      let better :=
        (1 <? r)%nat &&
        match best with
        | Some (_, b) => (b <? r)%nat
        | None => true
        end in
      longestZeroRun (S i) l' (if better then Some (i, r) else best)
  end.

Fixpoint serializePieces (i : nat) (l : list N) (compress : option nat)
         (ignore0 : bool) : string :=
  match l with
  | [] => ""
  | p :: l' =>
      if ignore0 && (p =? 0) then serializePieces (S i) l' compress true
      else if match compress with Some k => (k =? i)%nat | None => false end
      then ((if (i =? 0)%nat then "::" else ":")
            ++ serializePieces (S i) l' compress true)%string
      else (lowerHex p ++ (if (i =? 7)%nat then "" else ":")
            ++ serializePieces (S i) l' compress false)%string
  end.

Definition serializeIPv6 (pieces : list N) : string :=
  serializePieces 0 pieces (option_map fst (longestZeroRun 0 pieces None)) false.

Definition serializeHost (h : Host) : string :=
  match h with
  | Named s => s
  | IPv4 a => serializeIPv4 a
  | IPv6 p => ("[" ++ serializeIPv6 p ++ "]")%string
  end.

Definition serializePath (u : URL) : string :=
  match path u with
  | OpaquePath p => p
  | Segments l => String.concat "" (map (fun s => ("/" ++ s)%string) l)
  end.

(** The URL serializer. *)
Definition serialize (u : URL) : string :=
  let authority :=
    match host u with
    | Some h =>
        let credentials :=
          if negb (String.eqb (username u) "") || negb (String.eqb (password u) "")
          then (username u
                ++ (if String.eqb (password u) "" then "" else ":" ++ password u)
                ++ "@")%string
          else ""%string in
        ("//" ++ credentials ++ serializeHost h
         ++ match port u with Some p => ":" ++ decimal p | None => "" end)%string
    | None =>
        match path u with
        | Segments (EmptyString :: _ :: _) => "/."%string
        | _ => ""%string
        end
    end in
  (scheme u ++ ":" ++ authority ++ serializePath u
   ++ match query u with Some q => "?" ++ q | None => "" end
   ++ match fragment u with Some f => "#" ++ f | None => "" end)%string.

(** [url.href] and [url.toString()] *)
Definition href (u : URL) : jstring := str (serialize u).

(** [url.protocol] *)
Definition protocol (u : URL) : jstring := str (scheme u ++ ":").

(** [url.host]: the host, with the port when it has one. *)
Definition hostOf (u : URL) : jstring :=
  match host u with
  | None => []
  | Some h =>
      match port u with
      | None => str (serializeHost h)
      | Some p => str (serializeHost h ++ ":" ++ decimal p)
      end
  end.

(** [url.pathname] *)
Definition pathname (u : URL) : jstring := str (serializePath u).

(** [url.search] *)
Definition search (u : URL) : jstring :=
  match query u with
  | None | Some EmptyString => []
  | Some q => str ("?" ++ q)
  end.

(** What the path, query and fragment states leave alone. *)
Definition sameAuthority (u v : URL) : Prop :=
  scheme v = scheme u /\ host v = host u /\ port v = port u.

End Whatwg.

Import JS.
Import Whatwg.

(** ** The playlist rewrite

    [data.replace(/^(?!#)(.+)$/gm, callback)] and the callbacks of the
    two relay scripts that rewrite playlists. *)

Module Playlist.

(** What [.+] takes at a position: the code units up to the next line
    terminator, and what follows them. *)
Fixpoint dotPlus (s : jstring) : jstring * jstring :=
  match s with
  | [] => ([], [])
  | c :: s' =>
      if isLineTerminator c then ([], s)
      else let '(m, r) := dotPlus s' in (c :: m, r)
  end.

(** [^] under the [m] flag: at the start of the text or after a line
    terminator; [prev] is the code unit before the position. *)
Definition atLineStart (prev : option N) : bool :=
  match prev with
  | None => true
  | Some c => isLineTerminator c
  end.

(** A match of [/^(?!#)(.+)$/m] that starts at the current position;
    [prev] is the code unit before the position.  [.+] is greedy and
    stops where [$] matches, so the first attempt succeeds or none does. *)
Definition matchAt (prev : option N) (s : jstring) : option (jstring * jstring) :=
  let notHash := negb (startsWith s (str "#")) in   (* (?!#) *)
  if atLineStart prev && notHash then
    match dotPlus s with
    | ([], _) => None
    | (m, rest) => Some (m, rest)
    end
  else None.

(** The global replacement: the matches are found from left to right,
    each search starting where the previous match ended. *)
Fixpoint replaceFrom (fuel : nat) (callback : jstring -> jstring)
         (prev : option N) (s : jstring) : jstring :=
  match s with
  | [] => []
  | c :: s' =>
      match fuel with
      | O => s
      | S fuel' =>
          match matchAt prev s with
          | Some (m, rest) =>
              callback m ++ replaceFrom fuel' callback (Some (last m 0)) rest
          | None => c :: replaceFrom fuel' callback (Some c) s'
          end
      end
  end.

(** [data.replace(/^(?!#)(.+)$/gm, callback)] *)
Definition replace (callback : jstring -> jstring) (data : jstring) : jstring :=
  replaceFrom (List.length data) callback None data.

(** [/^https?:\/\//.test(line)] *)
Definition isAbsolute (line : jstring) : bool :=
  startsWith line (str "http://") || startsWith line (str "https://").

(** [`/proxy?url=${encodeURIComponent(u)}`]; [None] when the encoding throws. *)
Definition proxied (u : jstring) : option jstring :=
  option_map (app (str "/proxy?url=")) (encodeURIComponent u).

(** [try { ... } catch (e) { return line; }] *)
Definition orElse (attempt : option jstring) (line : jstring) : jstring :=
  match attempt with
  | Some newUrl => newUrl
  | None => line
  end.

Section Rewrite.

Context {idna : IDNA}.

(** The callback of the relay on [http]/[https] (first script of
    part_000, lines 66-85). *)
Definition rewriteLine (baseUrl line : jstring) : jstring :=
  if startsWith line (str "#") || negb (truthy (trim line)) then line
  else
    orElse
      (if isAbsolute line then proxied line
       else if startsWith line (str "/") then
         match URL_new baseUrl None with
         | None => None
         | Some urlObj =>
             let resolved := protocol urlObj ++ str "//" ++ hostOf urlObj ++ line in
             proxied resolved
         end
       else
         match URL_new baseUrl None with
         | None => None
         | Some urlObj =>
             match URL_new line (Some (href urlObj)) with
             | None => None
             | Some r => let resolved := href r in proxied resolved
             end
         end)
      line.

(** The rewrite of a playlist body fetched from [targetUrl]. *)
Definition rewritten (targetUrl data : jstring) : jstring :=
  let baseUrl := targetUrl in
  replace (rewriteLine baseUrl) data.

(** The callback of [userResDecorator] (second script of part_000, lines
    235-264): the base URL is parsed before the line is classified. *)
Definition decoratorLine (originalUrl line : jstring) : jstring :=
  if startsWith line (str "#") || negb (truthy (trim line)) then line
  else
    let baseUrl := originalUrl in
    orElse
      (match URL_new baseUrl None with
       | None => None
       | Some base =>
           if isAbsolute line then proxied line
           else if startsWith line (str "/") then
             proxied (protocol base ++ str "//" ++ hostOf base ++ line)
           else
             match URL_new line (Some (href base)) with
             | None => None
             | Some r => let resolved := href r in proxied resolved
             end
       end)
      line.

Definition playlist (originalUrl data : jstring) : jstring :=
  replace (decoratorLine originalUrl) data.

(** The [try] block of the first callback as one expression, for the
    statements below: the new URL, or [None] when the block throws. *)
Definition attempt (baseUrl line : jstring) : option jstring :=
  if isAbsolute line then proxied line
  else if startsWith line (str "/") then
    match URL_new baseUrl None with
    | None => None
    | Some urlObj => proxied (protocol urlObj ++ str "//" ++ hostOf urlObj ++ line)
    end
  else
    match URL_new baseUrl None with
    | None => None
    | Some urlObj =>
        match URL_new line (Some (href urlObj)) with
        | None => None
        | Some r => proxied (href r)
        end
    end.

(** A line that is not absolute and that [new URL] cannot resolve:
    the original URL does not parse, or the line does not parse
    against it. *)
Definition unresolved (baseUrl line : jstring) : Prop :=
  isAbsolute line = false /\
  match URL_new baseUrl None with
  | None => True
  | Some urlObj =>
      startsWith line (str "/") = false /\ URL_new line (Some (href urlObj)) = None
  end.

End Rewrite.

(** *** Lines of a text, for stating what the rewrite does

    The lines are the runs between line terminators (a CR LF pair has an
    empty line between its two terminators). *)

Fixpoint lines (s : jstring) : list jstring :=
  match s with
  | [] => [[]]
  | c :: s' =>
      if isLineTerminator c then [] :: lines s'
      else match lines s' with
           | l :: ls => (c :: l) :: ls
           | [] => [[c]]
           end
  end.

Definition terminators (s : jstring) : list N := filter isLineTerminator s.

(** The text with the given lines and terminators. *)
Fixpoint unlines (ls : list jstring) (ts : list N) : jstring :=
  match ls, ts with
  | l :: ls', t :: ts' => l ++ t :: unlines ls' ts'
  | l :: _, [] => l
  | [], _ => []
  end.

(** A line that the regular expression does not match: empty, or
    starting with [#]. *)
Definition isSkipped (line : jstring) : bool :=
  isEmptyList line || startsWith line (str "#").

(** What the replacement does to a line: lines that the regular
    expression does not match stay, the others go through the callback. *)
Definition onLine (callback : jstring -> jstring) (line : jstring) : jstring :=
  if isSkipped line then line else callback line.

Definition noTerminator (line : jstring) : Prop :=
  forallb (fun c => negb (isLineTerminator c)) line = true.

(** A comment or directive line. *)
Definition isComment (line : jstring) : bool := startsWith line (str "#").

(** A blank line: nothing but white space. *)
Definition isBlank (line : jstring) : bool := negb (truthy (trim line)).

(** A line that references the relay endpoint. *)
Definition referencesRelay (line : jstring) : bool :=
  startsWith line (str "/proxy?url=").

End Playlist.

(** ** HTTP messages *)

Module Http.

(** Header names with their values, in the order they were set. *)
Definition Headers := list (string * jstring).

(** [headers[name] = value], [res.setHeader(name, value)] *)
Fixpoint setHeader (h : Headers) (name : string) (value : jstring) : Headers :=
  match h with
  | [] => [(name, value)]
  | (n, v) :: h' =>
      if String.eqb n name then (name, value) :: h'
      else (n, v) :: setHeader h' name value
  end.

Fixpoint getHeader (h : Headers) (name : string) : option jstring :=
  match h with
  | [] => None
  | (n, v) :: h' => if String.eqb n name then Some v else getHeader h' name
  end.

(** The part of an inbound request that the handlers read: the [url],
    [channel] and [format] query parameters (absent, or a string) and
    the [cookie] header. *)
Record Request := mkRequest {
  query_url : option jstring;
  query_channel : option jstring;
  query_format : option jstring;
  cookie : option jstring
}.

(** [!x] for a query parameter or header: absent or empty. *)
Definition missing (x : option jstring) : bool :=
  match x with
  | None => true
  | Some s => negb (truthy s)
  end.

Inductive Client := http | https.

(** A request sent upstream: [client.get(target, options, ...)]. *)
Record Outbound := mkOutbound {
  client : Client;
  target : jstring;
  method : string;
  headers : Headers
}.

(** What the upstream answers: status, headers (names in lower case, as
    Node delivers them) and the chunks of the body. *)
Record ProxyRes := mkProxyRes {
  statusCode : N;
  resHeaders : Headers;
  chunks : list Buffer
}.

(** The upstream either fails at the network level (the [error] event)
    or responds. *)
Inductive Upstream :=
| NetworkError
| Responds (proxyRes : ProxyRes).

(** A response body is sent as one text ([res.send], [res.end]) or
    piped chunk by chunk from the upstream ([proxyRes.pipe(res)]). *)
Inductive Body :=
| Sent (text : jstring)
| Piped (chunks : list Buffer).

Record Response := mkResponse {
  status : N;
  outHeaders : Headers;
  body : Body
}.

(** [res.status(code).send(text)] *)
Definition send (code : N) (text : string) : Response :=
  mkResponse code [] (Sent (str text)).

End Http.

Import Http.

(** ** The stream relay, [/proxy?url=...] *)

Module Relay.

Import Playlist.

Definition userAgent : jstring :=
  str "Mozilla/5.0 (Windows NT 10.0; Win64; x64) AppleWebKit/537.36 (KHTML, like Gecko) Chrome/124.0.0.0 Safari/537.36".

(** The literals of the relay, named for the statements below. *)
Definition hls : jstring := str "application/vnd.apple.mpegurl".
Definition cdn : jstring := str "edgenextcdn.net".
Definition referer : jstring := str "https://www.shahid.net/".
Definition origin : jstring := str "https://www.shahid.net".

(** [options], with the anti-bot headers for edgenextcdn.net and the
    forwarded cookie. *)
Definition requestHeaders (targetUrl : jstring) (urlObj : URL) (req : Request) : Headers :=
  let headers :=
    [("Host", hostOf urlObj); ("User-Agent", userAgent);
     ("Accept", str "*/*"); ("Connection", str "keep-alive")]%string in
  let headers :=
    if includes targetUrl (str "edgenextcdn.net")
    then setHeader (setHeader headers "Referer" (str "https://www.shahid.net/"))
                   "Origin" (str "https://www.shahid.net")
    else headers in
  if missing (cookie req) then headers
  else match cookie req with
       | Some c => setHeader headers "Cookie" c
       | None => headers
       end.

(** [urlObj.protocol === "https:" ? https : http] *)
Definition clientFor (urlObj : URL) : Client :=
  if jstring_eqb (protocol urlObj) (str "https:") then https else http.

(** [client.get] throws ERR_INVALID_PROTOCOL unless the protocol of the
    target is the client's own. *)
Definition clientAccepts (c : Client) (urlObj : URL) : bool :=
  match c with
  | https => jstring_eqb (protocol urlObj) (str "https:")
  | http => jstring_eqb (protocol urlObj) (str "http:")
  end.

Section Handlers.

Context {idna : IDNA}.

(** The outbound request for a target URL, when the setup does not throw. *)
Definition outbound (targetUrl : jstring) (req : Request) : option Outbound :=
  match URL_new targetUrl None with
  | None => None
  | Some urlObj =>
      let client := clientFor urlObj in
      if clientAccepts client urlObj
      then Some (mkOutbound client targetUrl "GET" (requestHeaders targetUrl urlObj req))
      else None
  end.

(** [res.status(proxyRes.statusCode)] and the upstream headers copied. *)
Definition copied (proxyRes : ProxyRes) : Headers :=
  fold_left (fun h '(key, value) => setHeader h key value) (resHeaders proxyRes) [].

(** [data += chunk] over the chunks of the body. *)
Definition buffered (proxyRes : ProxyRes) : jstring :=
  fold_left (fun data chunk => data ++ toString chunk) (chunks proxyRes) [].

(** The handler of the relay that rewrites playlists (first script of
    part_000, lines 26-100).  It returns the response and the requests
    sent upstream. *)
Definition proxy (net : Outbound -> Upstream) (req : Request) : Response * list Outbound :=
  match query_url req with
  | None => (send 400 "Missing url param", [])
  | Some targetUrl =>
      if negb (truthy targetUrl) then (send 400 "Missing url param", [])
      else
        match outbound targetUrl req with
        | None => (send 500 "Proxy setup failed", [])
        | Some out =>
            match net out with
            | NetworkError => (send 500 "Streaming proxy failed", [out])
            | Responds proxyRes =>
                if endsWith targetUrl (str ".m3u8") then
                  let data := buffered proxyRes in
                  (mkResponse (statusCode proxyRes)
                              (setHeader (copied proxyRes) "content-type"
                                         (str "application/vnd.apple.mpegurl"))
                              (Sent (rewritten targetUrl data)),
                   [out])
                else
                  (mkResponse (statusCode proxyRes) (copied proxyRes)
                              (Piped (chunks proxyRes)),
                   [out])
            end
        end
  end.

(** The handler of src/proxy.js (lines 15-57): the same relay without
    the playlist rewrite. *)
Definition plainProxy (net : Outbound -> Upstream) (req : Request)
  : Response * list Outbound :=
  match query_url req with
  | None => (send 400 "Missing url param", [])
  | Some targetUrl =>
      if negb (truthy targetUrl) then (send 400 "Missing url param", [])
      else
        match outbound targetUrl req with
        | None => (send 500 "Proxy setup failed", [])
        | Some out =>
            match net out with
            | NetworkError => (send 500 "Streaming proxy failed", [out])
            | Responds proxyRes =>
                (mkResponse (statusCode proxyRes) (copied proxyRes)
                            (Piped (chunks proxyRes)),
                 [out])
            end
        end
  end.

(** What [userResDecorator] returns (second script of part_000, lines
    226-273): the body to send, and whether the content type is forced. *)
Definition userResDecorator (originalUrl : option jstring) (proxyResData : Buffer)
  : Body * bool :=
  match originalUrl with
  | Some originalUrl =>
      if truthy originalUrl && endsWith originalUrl (str ".m3u8") then
        (Sent (playlist originalUrl (toString proxyResData)), true)
      else (Piped [proxyResData], false)
  | None => (Piped [proxyResData], false)
  end.

End Handlers.

End Relay.

(** ** The EPG filter, [/epg?channel=...&format=...] *)

Module Epg.

(** What xml2js makes of an element (with [mergeAttrs]): a text, or an
    object whose properties, attributes and child elements alike, are
    arrays. *)
#[local] Set Warnings "-register-all".

Inductive Node :=
| Text (t : jstring)
| Element (props : list (jstring * list Node)).

(** [node[name]] *)
Definition prop (node : Node) (name : string) : option (list Node) :=
  match node with
  | Text _ => None
  | Element props =>
      option_map snd (find (fun '(k, _) => jstring_eqb k (str name)) props)
  end.

(** The parsed document: the name of its root element and the root. *)
Definition Parsed := (jstring * Node)%type.

(** [parsed.tv] *)
Definition tv (parsed : Parsed) : option Node :=
  if jstring_eqb (fst parsed) (str "tv") then Some (snd parsed) else None.

Definition truthyNode (n : Node) : bool :=
  match n with
  | Text t => truthy t
  | Element _ => true
  end.

#[local] Set Warnings "+register-all".

(** The collaborators of the handler: [axios.get(url)] yields the text
    of the document and [parseStringPromise] the parsed document, where
    [None] is a rejected promise; [buildObject programme] is
    [new Builder().buildObject({ tv: { programme } })], the text of the
    document, where [None] is an exception of the builder (it refuses
    text with characters that are not legal in XML). *)
Record Env := mkEnv {
  axios_get : jstring -> option jstring;
  parseStringPromise : jstring -> option Parsed;
  buildObject : list Node -> option jstring
}.

Definition epgUrl : jstring := str "https://tvpass.org/epg.xml".

(** [p.channel && p.channel[0] === channelFilter] *)
Definition matchesChannel (channelFilter : jstring) (p : Node) : bool :=
  match prop p "channel" with
  | Some (Text c :: _) => jstring_eqb c channelFilter
  | _ => false
  end.

(** [parsed.tv.programme || []] *)
Definition allProgrammes (root : Node) : list Node :=
  match prop root "programme" with
  | Some ps => ps
  | None => []
  end.

(** A JSON value of the response: [null] or what xml2js produced. *)
Definition Json := option Node.

Record Entry := mkEntry {
  start : Json;
  stop : Json;
  title : Json;
  subTitle : Json;
  desc : Json
}.

(** [p[name]?.[0] || null] *)
Definition firstOrNull (p : Node) (name : string) : Json :=
  match prop p name with
  | Some (n :: _) => if truthyNode n then Some n else None
  | _ => None
  end.

(** [p[name][0]], which throws when the property is absent. *)
Definition firstOf (p : Node) (name : string) : option Json :=
  match prop p name with
  | Some (n :: _) => Some (Some n)
  | Some [] => Some None
  | None => None
  end.

(** [p[name][0]] when the property is there. *)
Definition first (p : Node) (name : string) : Json :=
  match prop p name with
  | Some (n :: _) => Some n
  | _ => None
  end.

(** The entry of a programme in the first and third script of part_000
    and in src/proxy.js; [None] when it throws. *)
Definition entry (p : Node) : option Entry :=
  match firstOf p "start", firstOf p "stop" with
  | Some a, Some b =>
      Some (mkEntry a b (firstOrNull p "title") (firstOrNull p "sub-title")
                    (firstOrNull p "desc"))
  | _, _ => None
  end.

Fixpoint entries (ps : list Node) : option (list Entry) :=
  match ps with
  | [] => Some []
  | p :: ps' =>
      match entry p, entries ps' with
      | Some e, Some es => Some (e :: es)
      | _, _ => None
      end
  end.

Inductive EpgBody :=
| Plain (text : string)
| JsonEPG (channel : jstring) (programmes : list Entry)
| Xml (filteredXml : jstring).

Record EpgResponse := mkEpgResponse {
  status : N;
  contentType : option string;
  body : EpgBody
}.

Definition failure (code : N) (text : string) : EpgResponse :=
  mkEpgResponse code None (Plain text).

(** The handler of [/epg].  Everything from the fetch on runs inside the
    [try]: a rejected promise and an exception of the [map] callback or
    of the builder end in the [catch]. *)
Definition epg (env : Env) (req : Request) : EpgResponse :=
  let format :=
    match query_format req with
    | Some f => if truthy f then f else str "xml"
    | None => str "xml"
    end in
  match query_channel req with
  | None => failure 400 "Missing 'channel' query param"
  | Some channelFilter =>
      if negb (truthy channelFilter) then failure 400 "Missing 'channel' query param"
      else
        match axios_get env epgUrl with
        | None => failure 500 "Failed to fetch or parse EPG"
        | Some xmlData =>
            match parseStringPromise env xmlData with
            | None => failure 500 "Failed to fetch or parse EPG"
            | Some parsed =>
                match tv parsed with
                | None => failure 500 "Invalid EPG format"
                | Some root =>
                    if negb (truthyNode root) then failure 500 "Invalid EPG format"
                    else
                      let filteredProgrammes :=
                        filter (matchesChannel channelFilter) (allProgrammes root) in
                      if jstring_eqb format (str "json") then
                        match entries filteredProgrammes with
                        | Some es =>
                            mkEpgResponse 200 (Some "application/json"%string)
                                          (JsonEPG channelFilter es)
                        | None => failure 500 "Failed to fetch or parse EPG"
                        end
                      else
                        match buildObject env filteredProgrammes with
                        | Some filteredXml =>
                            mkEpgResponse 200 (Some "application/xml"%string)
                                          (Xml filteredXml)
                        | None => failure 500 "Failed to fetch or parse EPG"
                        end
                end
            end
        end
  end.

End Epg.

(** ** The catch-all relay of src/proxy.js *)

Module CatchAll.

Import Relay.

(** What the catch-all reads of a request: [req.path],
    [req.originalUrl] and the [cookie] header. *)
Record PathRequest := mkPathRequest {
  reqPath : jstring;
  originalUrl : jstring;
  pathCookie : option jstring
}.

Definition baseStreamHost : jstring := str "https://shd-gcp-live.edgenextcdn.net".

(** The host in [baseStreamHost], and its URL record before a path is
    read, for the statements below. *)
Definition cdnHost : string := "shd-gcp-live.edgenextcdn.net".

Definition cdnOrigin : URL :=
  mkURL "https" "" "" (Some (Named cdnHost)) None (Segments []) None None.

(** What the parser reads of the original URL after the first slash:
    its code points, C0 controls and spaces stripped at the end, tabs
    and newlines removed. *)
Definition cleaned (rest : jstring) : list N :=
  filter (fun c => negb (isTabOrNewline c))
         (rev (dropWhile isC0ControlOrSpace (rev (toUSV rest)))).

(** [options.headers] of the catch-all: the anti-bot headers are always
    there. *)
Definition catchAllHeaders (urlObj : URL) (req : PathRequest) : Headers :=
  let headers :=
    [("Host", hostOf urlObj); ("User-Agent", userAgent);
     ("Accept", str "*/*"); ("Connection", str "keep-alive");
     ("Referer", str "https://www.shahid.net/");
     ("Origin", str "https://www.shahid.net")]%string in
  if missing (pathCookie req) then headers
  else match pathCookie req with
       | Some c => setHeader headers "Cookie" c
       | None => headers
       end.

Section Handler.

Context {idna : IDNA}.

(** The middleware of src/proxy.js, lines 121-163.  [None] is [next()]:
    the request is left to the routes [/epg] and [/proxy]. *)
Definition catchAll (net : Outbound -> Upstream) (req : PathRequest)
  : option (Response * list Outbound) :=
  if startsWith (reqPath req) (str "/epg") || startsWith (reqPath req) (str "/proxy")
  then None
  else
    let fullUrl := baseStreamHost ++ originalUrl req in
    Some
      match URL_new fullUrl None with
      | None => (send 500 "Catch-all proxy setup failed", [])
      | Some urlObj =>
          let client := clientFor urlObj in
          if clientAccepts client urlObj then
            let out := mkOutbound client fullUrl "GET" (catchAllHeaders urlObj req) in
            match net out with
            | NetworkError => (send 500 "Catch-all streaming proxy failed", [out])
            | Responds proxyRes =>
                (mkResponse (statusCode proxyRes) (copied proxyRes)
                            (Piped (chunks proxyRes)),
                 [out])
            end
          else (send 500 "Catch-all proxy setup failed", [])
      end.

End Handler.

End CatchAll.

(** ** The options of the relay on express-http-proxy

    The second script of part_000 hands these functions to the proxy
    library (lines 190-224). *)

Module Decorated.

Import Relay.

Section Options.

Context {idna : IDNA}.

(** The host argument: protocol and host of the target, or the fallback
    when the target is no URL. *)
Definition proxyHost (targetUrl : jstring) : jstring :=
  match URL_new targetUrl None with
  | Some url => protocol url ++ str "//" ++ hostOf url
  | None => str "https://tvpass.org"
  end.

(** [proxyReqPathResolver]; [None] when [new URL] throws. *)
Definition proxyReqPathResolver (req : Request) : option jstring :=
  match query_url req with
  | Some u =>
      match URL_new u None with
      | Some url => Some (pathname url ++ search url)
      | None => None
      end
  | None => None
  end.

(** [proxyReqOptDecorator] on the headers of the outgoing request;
    [None] when [new URL] throws. *)
Definition proxyReqOptDecorator (headers : Headers) (srcReq : Request) : option Headers :=
  match query_url srcReq with
  | Some streamUrl =>
      if truthy streamUrl then
        match URL_new streamUrl None with
        | None => None
        | Some urlObj =>
            let headers := setHeader headers "Host" (hostOf urlObj) in
            if includes streamUrl (str "edgenextcdn.net") then
              let headers := setHeader headers "Referer" (str "https://www.shahid.net/") in
              let headers := setHeader headers "User-Agent" userAgent in
              let headers := setHeader headers "Origin" (str "https://www.shahid.net") in
              Some (if missing (cookie srcReq) then headers
                    else match cookie srcReq with
                         | Some c => setHeader headers "Cookie" c
                         | None => headers
                         end)
            else Some headers
        end
      else Some headers
  | None => Some headers
  end.

End Options.

End Decorated.

(** ** The EPG filter of the second script of part_000

    It differs from the other scripts in the entry of a programme:
    [p.start?.[0] || null] and [p.stop?.[0] || null] do not throw. *)

Module EpgDecorated.

Import Epg.

Definition entry (p : Node) : Entry :=
  mkEntry (firstOrNull p "start") (firstOrNull p "stop") (firstOrNull p "title")
          (firstOrNull p "sub-title") (firstOrNull p "desc").

(** The handler of [/epg] (lines 284-334). *)
Definition epg (env : Env) (req : Request) : EpgResponse :=
  let format :=
    match query_format req with
    | Some f => if truthy f then f else str "xml"
    | None => str "xml"
    end in
  match query_channel req with
  | None => failure 400 "Missing 'channel' query param"
  | Some channelFilter =>
      if negb (truthy channelFilter) then failure 400 "Missing 'channel' query param"
      else
        match axios_get env epgUrl with
        | None => failure 500 "Failed to fetch or parse EPG"
        | Some xmlData =>
            match parseStringPromise env xmlData with
            | None => failure 500 "Failed to fetch or parse EPG"
            | Some parsed =>
                match tv parsed with
                | None => failure 500 "Invalid EPG format"
                | Some root =>
                    if negb (truthyNode root) then failure 500 "Invalid EPG format"
                    else
                      let filteredProgrammes :=
                        filter (matchesChannel channelFilter) (allProgrammes root) in
                      if jstring_eqb format (str "json") then
                        mkEpgResponse 200 (Some "application/json"%string)
                                      (JsonEPG channelFilter (map entry filteredProgrammes))
                      else
                        match buildObject env filteredProgrammes with
                        | Some filteredXml =>
                            mkEpgResponse 200 (Some "application/xml"%string)
                                          (Xml filteredXml)
                        | None => failure 500 "Failed to fetch or parse EPG"
                        end
                end
            end
        end
  end.

End EpgDecorated.

(** ** decodeURIComponent

    The relay receives a rewritten reference back as
    [/proxy?url=<encoded>]; Express decodes the parameter with
    [decodeURIComponent]. *)

Module Decode.

(** The number of leading one bits of an octet, up to five. *)
Definition leadingOnes (b : N) : nat :=
  if b <? 0x80 then 0
  else if b <? 0xC0 then 1
  else if b <? 0xE0 then 2
  else if b <? 0xF0 then 3
  else if b <? 0xF8 then 4
  else 5.

(** The code point of which the octets are the UTF-8 encoding, if they
    are the encoding of one. *)
Definition validUtf8 (octets : list N) : option N :=
  match utf8Decode utf8Initial octets with
  | [cp] => if jstring_eqb (utf8 cp) octets then Some cp else None
  | _ => None
  end.

(** The loop of Decode: [need] escaped octets of a sequence are still
    to be read, [octets] are those read so far.  [None] is the URIError. *)
Fixpoint decodeFrom (need : nat) (octets : list N) (s : jstring) : option jstring :=
  match s with
  | [] =>
      match need with
      | O => Some []
      | S _ => None
      end
  | c :: s' =>
      if c =? 0x25 then
        match s' with
        | h1 :: h2 :: s'' =>
            if isAsciiHexDigit h1 && isAsciiHexDigit h2 then
              let b := 16 * hexValue h1 + hexValue h2 in
              match need with
              | O =>
                  match leadingOnes b with
                  | O => option_map (cons b) (decodeFrom 0 [] s'')
                  | 1%nat => None
                  | S (S k) =>
                      if (2 <? k)%nat then None else decodeFrom (S k) [b] s''
                  end
              | 1%nat =>
                  match validUtf8 (octets ++ [b]) with
                  | Some cp => option_map (app (utf16 cp)) (decodeFrom 0 [] s'')
                  | None => None
                  end
              | S k => decodeFrom k (octets ++ [b]) s''
              end
            else None
        | _ => None
        end
      else
        match need with
        | O => option_map (cons c) (decodeFrom 0 [] s')
        | S _ => None
        end
  end.

(** [decodeURIComponent(s)] *)
Definition decodeURIComponent (s : jstring) : option jstring := decodeFrom 0 [] s.

(** The code units of a string are 16-bit numbers. *)
Definition isCodeUnits (s : jstring) : bool := forallb (fun c => c <? 0x10000) s.

End Decode.

(** ** Example inputs *)

Module Examples.

Definition LF : string := String (ascii_of_nat 10) "".

Definition masterUrl : jstring := str "https://h/a/b/master.m3u8".

(** A playlist with directives, a relative line, an empty line, a
    root-relative line, an absolute line and a line that does not
    resolve (its port is no number). *)
Definition playlistBody : Buffer :=
  codes ("#EXTM3U" ++ LF ++ "#EXTINF:10," ++ LF ++ "seg1.ts" ++ LF ++ LF
         ++ "/live/seg1.ts" ++ LF ++ "https://cdn.example/seg 1.ts" ++ LF
         ++ "rtsp://cam:port/live" ++ LF)%string.

Definition upstreamResponse : ProxyRes :=
  mkProxyRes 200 [("content-type"%string, str "application/x-mpegURL")] [playlistBody].

Definition upstream (o : Outbound) : Upstream := Responds upstreamResponse.

Definition request (url : string) : Request :=
  mkRequest (Some (str url)) None None None.

(** An upstream that cannot be reached. *)
Definition unreachable (o : Outbound) : Upstream := NetworkError.

(** A parsed guide with one programme of channel [bbc]. *)
Definition guide : Epg.Parsed :=
  (str "tv",
   Epg.Element
     [(str "programme",
       [Epg.Element [(str "channel", [Epg.Text (str "bbc")]);
                     (str "start", [Epg.Text (str "20240101000000 +0000")]);
                     (str "stop", [Epg.Text (str "20240101010000 +0000")]);
                     (str "title", [Epg.Text (str "News")])]])]).

Definition guideXml : jstring :=
  str "<tv><programme channel='bbc' start='20240101000000 +0000' stop='20240101010000 +0000'><title>News</title></programme></tv>".

(** A builder for the examples: every property as child elements of
    its name, texts as they are. *)
Fixpoint render (n : Epg.Node) : jstring :=
  match n with
  | Epg.Text t => t
  | Epg.Element props =>
      flat_map (fun '(name, children) =>
                  flat_map (fun child =>
                              str "<" ++ name ++ str ">" ++ render child
                              ++ str "</" ++ name ++ str ">")
                           children)
               props
  end.

Definition built (programme : list Epg.Node) : option jstring :=
  Some (str "<tv>"
        ++ flat_map (fun p => str "<programme>" ++ render p ++ str "</programme>") programme
        ++ str "</tv>").

(** A builder that throws. *)
Definition refused (programme : list Epg.Node) : option jstring := None.

Definition guideEnv : Epg.Env :=
  Epg.mkEnv (fun _ => Some guideXml) (fun _ => Some guide) built.

Definition epgRequest (channel format : string) : Request :=
  mkRequest None (Some (str channel)) (Some (str format)) None.

(** The content types of the EPG filter. *)
Definition json : option string := Some "application/json"%string.
Definition xml : option string := Some "application/xml"%string.

(** A guide whose document has another root. *)
Definition otherRootEnv : Epg.Env :=
  Epg.mkEnv (fun _ => Some (str "<html/>")) (fun _ => Some (str "html", Epg.Text [])) built.

(** The empty guide [<tv/>], for which xml2js gives [{ tv: '' }]. *)
Definition emptyGuide : Epg.Parsed := (str "tv", Epg.Text []).

Definition emptyGuideEnv : Epg.Env :=
  Epg.mkEnv (fun _ => Some (str "<tv/>")) (fun _ => Some emptyGuide) built.

(** A guide whose programme of channel [bbc] has no stop. *)
Definition openEnded : Epg.Parsed :=
  (str "tv",
   Epg.Element
     [(str "programme",
       [Epg.Element [(str "channel", [Epg.Text (str "bbc")]);
                     (str "start", [Epg.Text (str "20240101000000 +0000")])]])]).

Definition openEndedEnv : Epg.Env :=
  Epg.mkEnv (fun _ => Some guideXml) (fun _ => Some openEnded) built.

End Examples.

(** * Properties *)

(** ** JavaScript strings *)

Ltac to_prop :=
  repeat match goal with
    | H : _ && _ = true |- _ => apply andb_true_iff in H; destruct H
    | H : _ || _ = false |- _ => apply orb_false_iff in H; destruct H
    | H : negb _ = true |- _ => apply negb_true_iff in H
    | H : negb _ = false |- _ => apply negb_false_iff in H
    | H : (_ =? _) = true |- _ => apply N.eqb_eq in H
    | H : (_ =? _) = false |- _ => apply N.eqb_neq in H
    | H : (_ <=? _) = true |- _ => apply N.leb_le in H
    | H : (_ <=? _) = false |- _ => apply N.leb_gt in H
    | H : (_ <? _) = true |- _ => apply N.ltb_lt in H
    | H : (_ <? _) = false |- _ => apply N.ltb_ge in H
    end.

(** Decides a statement on boolean combinations of comparisons on [N]
    by turning them into propositions. *)
Ltac bool_lia :=
  intros;
  repeat match goal with
    | H : _ = true |- _ => revert H
    | H : _ = false |- _ => revert H
    end;
  rewrite ?orb_true_iff, ?orb_false_iff, ?andb_true_iff, ?andb_false_iff,
    ?negb_true_iff, ?negb_false_iff, ?N.eqb_eq, ?N.eqb_neq, ?N.leb_le,
    ?N.leb_gt, ?N.ltb_lt, ?N.ltb_ge;
  lia.

Section ListPairs.

Variable A : Type.
Variable P : list A -> Prop.
Hypothesis P_nil : P [].
Hypothesis P_one : forall a, P [a].
Hypothesis P_two : forall a b l, P l -> P (b :: l) -> P (a :: b :: l).

(** Induction for functions that look at two elements at a time. *)
Lemma list_pair_ind : forall l, P l.
Proof.
  assert (forall l, P l /\ forall a, P (a :: l)) as both.
  { induction l as [|b l [IHl IHbl]].
    - split; [exact P_nil | exact P_one].
    - split; [apply IHbl | intro a; apply P_two; [exact IHl | apply IHbl]]. }
  intro l. apply both.
Qed.

End ListPairs.

Module JSFacts.

Lemma hexDigit_safe : forall n, uriSafe (hexDigit (n mod 16)) = true.
Proof.
  intro n.
  assert (n mod 16 < 16) as bound by (apply N.mod_lt; discriminate).
  generalize dependent (n mod 16). intros m bound.
  unfold uriSafe, uriUnreserved, isAsciiAlpha, isAsciiDigit, hexDigit.
  destruct (N.ltb_spec m 10); bool_lia.
Qed.

Lemma pctOctets_safe : forall bs, forallb uriSafe (pctOctets bs) = true.
Proof.
  induction bs as [|b bs IH]; [reflexivity|].
  unfold pctOctets in *. cbn [flat_map pctOctet app forallb].
  rewrite !hexDigit_safe, IH. reflexivity.
Qed.

Lemma uriSafe_unreserved : forall c, uriUnreserved c = true -> uriSafe c = true.
Proof. intros c E. unfold uriSafe. rewrite E. reflexivity. Qed.

(** The output of [encodeURIComponent] consists of safe code units. *)
Lemma encodeURIComponent_cons :
  forall c s,
    encodeURIComponent (c :: s)
    = if uriUnreserved c then option_map (cons c) (encodeURIComponent s)
      else if isHighSurrogate c then
        match s with
        | d :: s' =>
            if isLowSurrogate d then
              option_map (app (pctOctets (utf8 (pairCodePoint c d))))
                         (encodeURIComponent s')
            else None
        | [] => None
        end
      else if isLowSurrogate c then None
      else option_map (app (pctOctets (utf8 c))) (encodeURIComponent s).
Proof. reflexivity. Qed.

Lemma isWellFormed_cons :
  forall c s,
    isWellFormed (c :: s)
    = if isHighSurrogate c then
        match s with
        | d :: s' => isLowSurrogate d && isWellFormed s'
        | [] => false
        end
      else if isLowSurrogate c then false
      else isWellFormed s.
Proof. reflexivity. Qed.

Lemma encodeURIComponent_safe :
  forall s e, encodeURIComponent s = Some e -> forallb uriSafe e = true.
Proof.
  induction s as [| c | c d s IHs IHds] using list_pair_ind; intros e.
  - intros [= <-]. reflexivity.
  - cbn [encodeURIComponent option_map].
    destruct (uriUnreserved c) eqn:U.
    + intros [= <-]. cbn. rewrite (uriSafe_unreserved _ U). reflexivity.
    + destruct (isHighSurrogate c); [discriminate|].
      destruct (isLowSurrogate c); [discriminate|].
      intros [= <-]. rewrite app_nil_r. apply pctOctets_safe.
  - rewrite encodeURIComponent_cons.
    destruct (uriUnreserved c) eqn:U.
    + destruct (encodeURIComponent (d :: s)) as [e'|] eqn:E; cbn [option_map]; [|discriminate].
      intros [= <-]. cbn [forallb].
      rewrite (uriSafe_unreserved _ U), (IHds _ eq_refl). reflexivity.
    + destruct (isHighSurrogate c).
      * destruct (isLowSurrogate d); [|discriminate].
        destruct (encodeURIComponent s) as [e'|] eqn:E; cbn [option_map]; [|discriminate].
        intros [= <-]. rewrite forallb_app, pctOctets_safe, (IHs _ eq_refl).
        reflexivity.
      * destruct (isLowSurrogate c); [discriminate|].
        destruct (encodeURIComponent (d :: s)) as [e'|] eqn:E; cbn [option_map]; [|discriminate].
        intros [= <-]. rewrite forallb_app, pctOctets_safe, (IHds _ eq_refl).
        reflexivity.
Qed.

(** [encodeURIComponent] throws on no well-formed string. *)
Lemma encodeURIComponent_total :
  forall s, isWellFormed s = true -> exists e, encodeURIComponent s = Some e.
Proof.
  induction s as [| c | c d s IHs IHds] using list_pair_ind.
  - intros _. exists []. reflexivity.
  - cbn [isWellFormed encodeURIComponent].
    destruct (uriUnreserved c); [eexists; reflexivity|].
    destruct (isHighSurrogate c); [discriminate|].
    destruct (isLowSurrogate c); [discriminate|].
    eexists; reflexivity.
  - rewrite encodeURIComponent_cons, isWellFormed_cons.
    destruct (isHighSurrogate c) eqn:Hi.
    + intros W. apply andb_true_iff in W as [Lo W].
      destruct (IHs W) as [e E].
      assert (uriUnreserved c = false) as ->.
      { revert Hi. unfold isHighSurrogate, uriUnreserved, isAsciiAlpha, isAsciiDigit.
        bool_lia. }
      rewrite Lo, E. cbn [option_map]. eexists; reflexivity.
    + destruct (isLowSurrogate c) eqn:Lo.
      * discriminate.
      * intros W. destruct (IHds W) as [e E]. rewrite E.
        destruct (uriUnreserved c); cbn [option_map]; eexists; reflexivity.
Qed.

Lemma uriSafe_not_terminator :
  forall c, uriSafe c = true -> isLineTerminator c = false.
Proof.
  intro c. unfold uriSafe, uriUnreserved, isAsciiAlpha, isAsciiDigit, isLineTerminator.
  bool_lia.
Qed.

Lemma isWellFormed_app :
  forall a b, isWellFormed a = true -> isWellFormed (a ++ b) = isWellFormed b.
Proof.
  induction a as [| c | c d a IHa IHda] using list_pair_ind; intros b.
  - reflexivity.
  - cbn [isWellFormed app].
    destruct (isHighSurrogate c); [discriminate|].
    destruct (isLowSurrogate c); [discriminate|]. reflexivity.
  - cbn [app]. rewrite !isWellFormed_cons.
    destruct (isHighSurrogate c).
    + intros W. apply andb_true_iff in W as [Lo W]. rewrite Lo, (IHa _ W). reflexivity.
    + destruct (isLowSurrogate c); [discriminate|].
      intros W. apply (IHda b W).
Qed.

Lemma isWellFormed_concat :
  forall a b, isWellFormed a = true -> isWellFormed b = true ->
              isWellFormed (a ++ b) = true.
Proof. intros a b Wa Wb. rewrite isWellFormed_app; assumption. Qed.

(** Strings of code units below the surrogates are well formed. *)
Lemma isWellFormed_below :
  forall s, Forall (fun c => c < 0xD800) s -> isWellFormed s = true.
Proof.
  induction 1 as [|c s Hc _ IH]; [reflexivity|].
  cbn [isWellFormed].
  assert (isHighSurrogate c = false) as ->
      by (unfold isHighSurrogate; bool_lia).
  assert (isLowSurrogate c = false) as ->
      by (unfold isLowSurrogate; bool_lia).
  exact IH.
Qed.

Lemma str_below : forall s, Forall (fun c => c < 0xD800) (str s).
Proof.
  intro s. unfold str. apply Forall_forall. intros c I.
  apply in_map_iff in I as [a [<- _]].
  pose proof (N_ascii_bounded a). lia.
Qed.

Lemma str_wellFormed : forall s, isWellFormed (str s) = true.
Proof. intro s. apply isWellFormed_below, str_below. Qed.

Lemma str_app : forall a b, str (a ++ b) = str a ++ str b.
Proof.
  intros a b. unfold str.
  induction a as [|c a IH]; [reflexivity|].
  cbn. f_equal. exact IH.
Qed.

Lemma dropWhile_keeps :
  forall p c s, In c s -> p c = false -> dropWhile p s <> [].
Proof.
  induction s as [|d s IH]; intros I E; [destruct I|].
  cbn. destruct (p d) eqn:D; [|discriminate].
  destruct I as [-> | I]; [congruence | auto].
Qed.

(** A string with a code unit that is not white space is not blank. *)
Lemma trim_truthy :
  forall c s, In c s -> isWhiteSpace c || isLineTerminator c = false ->
              truthy (trim s) = true.
Proof.
  intros c s I E. unfold trim.
  set (ws := fun c => isWhiteSpace c || isLineTerminator c) in *.
  assert (dropWhile ws s <> []) as N1 by (apply dropWhile_keeps with c; assumption).
  assert (In c (dropWhile ws s)) as I1.
  { clear N1. induction s as [|d s IH]; [destruct I|].
    cbn. destruct (ws d) eqn:D; [|exact I].
    destruct I as [-> | I]; [unfold ws in D; congruence | auto]. }
  assert (dropWhile ws (rev (dropWhile ws s)) <> []) as N2.
  { apply dropWhile_keeps with c; [apply in_rev; rewrite rev_involutive|]; assumption. }
  destruct (rev (dropWhile ws (rev (dropWhile ws s)))) eqn:R; [|reflexivity].
  apply (f_equal (@rev N)) in R. rewrite rev_involutive in R. contradiction.
Qed.

Lemma trim_empty : trim [] = [].
Proof. reflexivity. Qed.

End JSFacts.

(** ** The line replacement as a map over the lines *)

Module PlaylistFacts.

Import Playlist.

Lemma lines_cons :
  forall c s,
    lines (c :: s)
    = if isLineTerminator c then [] :: lines s
      else match lines s with
           | l :: ls => (c :: l) :: ls
           | [] => [[c]]
           end.
Proof. reflexivity. Qed.

Lemma lines_not_nil : forall s, lines s <> [].
Proof.
  induction s as [|c s IH]; [discriminate|].
  rewrite lines_cons. destruct (isLineTerminator c); [discriminate|].
  destruct (lines s); discriminate.
Qed.

Lemma lines_length :
  forall s, List.length (lines s) = S (List.length (terminators s)).
Proof.
  induction s as [|c s IH]; [reflexivity|].
  rewrite lines_cons. unfold terminators in *. cbn [filter].
  destruct (isLineTerminator c); cbn [List.length]; [congruence|].
  pose proof (lines_not_nil s). destruct (lines s); [contradiction|exact IH].
Qed.

Lemma lines_noTerminator : forall s, Forall noTerminator (lines s).
Proof.
  induction s as [|c s IH]; [repeat constructor|].
  rewrite lines_cons. destruct (isLineTerminator c) eqn:T.
  - constructor; [reflexivity | exact IH].
  - destruct (lines s) as [|l ls].
    { constructor; [|constructor]. unfold noTerminator. cbn. rewrite T. reflexivity. }
    inversion IH as [|? ? Hl Hls]; subst. constructor; [|exact Hls].
    unfold noTerminator in *. cbn. rewrite T, Hl. reflexivity.
Qed.

Lemma startsWith_one :
  forall c s x, startsWith (c :: s) [x] = (x =? c).
Proof. intros c s x. cbn [startsWith]. destruct s; apply andb_true_r. Qed.

Lemma dotPlus_cons :
  forall c s,
    dotPlus (c :: s)
    = if isLineTerminator c then ([], c :: s)
      else let '(m, r) := dotPlus s in (c :: m, r).
Proof. reflexivity. Qed.

(** [.+] takes the first line. *)
Lemma dotPlus_lines :
  forall s m r,
    dotPlus s = (m, r) ->
    s = m ++ r /\ hd [] (lines s) = m /\ tl (lines s) = tl (lines r)
    /\ terminators s = terminators r /\ hd [] (lines r) = []
    /\ (List.length r <= List.length s)%nat.
Proof.
  induction s as [|c s IH]; intros m r.
  - intros [= <- <-]. repeat split; reflexivity.
  - rewrite dotPlus_cons, lines_cons. unfold terminators. cbn [filter].
    destruct (isLineTerminator c) eqn:T.
    + intros [= <- <-]. rewrite lines_cons. cbn [filter]. rewrite T.
      repeat split; reflexivity || (cbn; lia).
    + destruct (dotPlus s) as [m' r'] eqn:D. intros [= <- <-].
      destruct (IH _ _ eq_refl) as (E & Hh & Ht & Hs & Hr & Hl).
      pose proof (lines_not_nil s) as NE.
      destruct (lines s) as [|l ls]; [contradiction|].
      cbn in Hh, Ht. subst l.
      repeat split; cbn; try congruence; try assumption. lia.
Qed.

Lemma unlines_cons_app :
  forall a b ls ts, unlines ((a ++ b) :: ls) ts = a ++ unlines (b :: ls) ts.
Proof.
  intros a b ls ts. destruct ts; cbn; rewrite <- ?app_assoc; reflexivity.
Qed.

Lemma unlines_cons_nil :
  forall a ls ts, unlines (a :: ls) ts = a ++ unlines ([] :: ls) ts.
Proof.
  intros a ls ts. rewrite <- (app_nil_r a) at 1. apply unlines_cons_app.
Qed.

Section Replace.

Variable callback : jstring -> jstring.

Lemma last_noTerminator :
  forall c m, noTerminator (c :: m) -> isLineTerminator (last (c :: m) 0) = false.
Proof.
  intros c m. revert c. induction m as [|d m IH]; intros c Hm.
  - unfold noTerminator in Hm. cbn in *. apply andb_true_iff in Hm as [Hc _].
    apply negb_true_iff in Hc. exact Hc.
  - change (last (c :: d :: m) 0) with (last (d :: m) 0). apply IH.
    unfold noTerminator in *. cbn in *. apply andb_true_iff in Hm as [_ Hm]. exact Hm.
Qed.

Lemma onLine_nil : onLine callback [] = [].
Proof. reflexivity. Qed.

(** With enough fuel, the scan rebuilds the text from its lines: the
    first line goes through the callback when the scan is at the start
    of the line, every later line does. *)
Lemma replaceFrom_lines :
  forall fuel s prev,
    (List.length s <= fuel)%nat ->
    replaceFrom fuel callback prev s
    = unlines ((if atLineStart prev then onLine callback (hd [] (lines s))
                else hd [] (lines s))
               :: map (onLine callback) (tl (lines s)))
              (terminators s).
Proof.
  induction fuel as [|fuel IH]; intros s prev Hlen.
  - destruct s; [|cbn in Hlen; lia].
    cbn. destruct (atLineStart prev); reflexivity.
  - destruct s as [|c s].
    + cbn. destruct (atLineStart prev); reflexivity.
    + cbn [List.length] in Hlen.
      cbn [replaceFrom]. unfold matchAt.
      destruct (atLineStart prev) eqn:St.
      * (* at the start of a line *)
        cbn [andb].
        destruct (negb (startsWith (c :: s) (str "#"))) eqn:NH.
        -- destruct (dotPlus (c :: s)) as [m r] eqn:D.
           destruct (dotPlus_lines _ _ _ D) as (E & Hh & Ht & Hs & Hr & Hl).
           destruct m as [|c' m].
           ++ (* a line terminator *)
              rewrite dotPlus_cons in D.
              destruct (isLineTerminator c) eqn:T;
                [|destruct (dotPlus s); discriminate].
              rewrite IH by lia. cbn [atLineStart]. rewrite T.
              rewrite lines_cons, T. unfold terminators. cbn [filter]. rewrite T.
              cbn [hd tl map]. rewrite onLine_nil.
              pose proof (lines_not_nil s) as NE.
              destruct (lines s) as [|l ls]; [contradiction|]. reflexivity.
           ++ (* a line for the callback *)
              assert (noTerminator (c' :: m)) as NT.
              { pose proof (lines_noTerminator (c :: s)) as F.
                pose proof (lines_not_nil (c :: s)) as NE.
                destruct (lines (c :: s)) as [|l ls]; [contradiction|].
                cbn in Hh. subst l. inversion F; assumption. }
              assert (List.length r <= fuel)%nat as Hr'.
              { apply (f_equal (@List.length N)) in E.
                rewrite length_app in E. cbn [List.length] in E. lia. }
              rewrite IH by exact Hr'.
              cbn [atLineStart]. rewrite (last_noTerminator _ _ NT).
              rewrite Hh, Ht, Hs, Hr.
              assert (onLine callback (c' :: m) = callback (c' :: m)) as ->.
              { unfold onLine, isSkipped. cbn [isEmptyList orb].
                assert (c' = c) as ->.
                { rewrite E in *. cbn in *. congruence. }
                apply negb_true_iff in NH.
                change (str "#") with [0x23] in *.
                rewrite startsWith_one in *. rewrite NH. reflexivity. }
              symmetry. apply unlines_cons_nil.
        -- (* a comment line *)
           apply negb_false_iff in NH.
           change (str "#") with [0x23] in NH. rewrite startsWith_one in NH.
           assert (isLineTerminator c = false) as T.
           { apply N.eqb_eq in NH. subst c. reflexivity. }
           rewrite IH by lia. cbn [atLineStart]. rewrite T.
           rewrite lines_cons, T. unfold terminators. cbn [filter]. rewrite T.
           pose proof (lines_not_nil s) as NE.
           destruct (lines s) as [|l ls]; [contradiction|].
           cbn [hd tl].
           assert (onLine callback (c :: l) = c :: l) as ->.
           { unfold onLine, isSkipped. cbn [isEmptyList orb].
             change (str "#") with [0x23]. rewrite startsWith_one, NH. reflexivity. }
           destruct (filter isLineTerminator s); reflexivity.
      * (* inside a line *)
        cbn [andb].
        rewrite IH by lia. cbn [atLineStart].
        rewrite lines_cons. unfold terminators. cbn [filter].
        destruct (isLineTerminator c) eqn:T.
        -- cbn [hd tl map].
           pose proof (lines_not_nil s) as NE.
           destruct (lines s) as [|l ls]; [contradiction|]. reflexivity.
        -- pose proof (lines_not_nil s) as NE.
           destruct (lines s) as [|l ls]; [contradiction|].
           cbn [hd tl]. destruct (filter isLineTerminator s); reflexivity.
Qed.

(** [data.replace(/^(?!#)(.+)$/gm, callback)] splits the text into
    lines, maps them and joins them with the terminators they had. *)
Lemma replace_unlines :
  forall data,
    replace callback data
    = unlines (map (onLine callback) (lines data)) (terminators data).
Proof.
  intro data. unfold replace. rewrite replaceFrom_lines by lia.
  cbn [atLineStart].
  pose proof (lines_not_nil data) as NE.
  destruct (lines data) as [|l ls]; [contradiction|]. reflexivity.
Qed.

End Replace.

Lemma noTerminator_app :
  forall a b, noTerminator a -> noTerminator b -> noTerminator (a ++ b).
Proof.
  unfold noTerminator. intros a b Ha Hb. rewrite forallb_app, Ha, Hb. reflexivity.
Qed.

Lemma lines_noTerminator_app :
  forall a s, noTerminator a ->
    lines (a ++ s) = (a ++ hd [] (lines s)) :: tl (lines s).
Proof.
  induction a as [|c a IH]; intros s Ha.
  - cbn. pose proof (lines_not_nil s). destruct (lines s); [contradiction|reflexivity].
  - unfold noTerminator in Ha. cbn in Ha. apply andb_true_iff in Ha as [Hc Ha].
    apply negb_true_iff in Hc.
    cbn [app]. rewrite lines_cons, Hc, (IH s Ha). reflexivity.
Qed.

Lemma terminators_noTerminator_app :
  forall a s, noTerminator a -> terminators (a ++ s) = terminators s.
Proof.
  induction a as [|c a IH]; intros s Ha; [reflexivity|].
  unfold noTerminator in Ha. cbn in Ha. apply andb_true_iff in Ha as [Hc Ha].
  apply negb_true_iff in Hc.
  unfold terminators in *. cbn. rewrite Hc. apply IH. exact Ha.
Qed.

(** Lines without terminators, joined by terminators, are the lines of
    the joined text. *)
Lemma lines_unlines :
  forall ls ts,
    Forall noTerminator ls ->
    forallb isLineTerminator ts = true ->
    List.length ls = S (List.length ts) ->
    lines (unlines ls ts) = ls /\ terminators (unlines ls ts) = ts.
Proof.
  induction ls as [|l ls IH]; intros ts F T L; [discriminate|].
  inversion F as [|? ? Hl Hls]; subst.
  destruct ts as [|t ts].
  - destruct ls; [|discriminate]. cbn [unlines].
    rewrite <- (app_nil_r l) at 1 3.
    rewrite lines_noTerminator_app, terminators_noTerminator_app by assumption.
    cbn. rewrite !app_nil_r. split; reflexivity.
  - cbn in T. apply andb_true_iff in T as [Ht T].
    cbn [List.length] in L. injection L as L.
    destruct (IH ts Hls T L) as [E1 E2].
    cbn [unlines].
    rewrite lines_noTerminator_app, terminators_noTerminator_app by assumption.
    rewrite lines_cons. unfold terminators at 1. cbn [filter]. rewrite Ht.
    fold (terminators (unlines ls ts)). rewrite E1, E2. cbn. rewrite app_nil_r.
    split; reflexivity.
Qed.

Lemma terminators_all : forall s, forallb isLineTerminator (terminators s) = true.
Proof.
  intro s. unfold terminators. apply forallb_forall. intros c I.
  apply filter_In in I. tauto.
Qed.

(** When the callback never produces a line terminator, the lines of the
    result are the images of the lines, and the terminators stay. *)
Lemma lines_replace :
  forall callback data,
    (forall line, noTerminator line -> noTerminator (callback line)) ->
    lines (replace callback data) = map (onLine callback) (lines data)
    /\ terminators (replace callback data) = terminators data.
Proof.
  intros callback data K. rewrite replace_unlines.
  apply lines_unlines.
  - pose proof (lines_noTerminator data) as F.
    induction F as [|l ls Hl _ IH]; [constructor|].
    cbn [map]. constructor; [|exact IH].
    unfold onLine. destruct (isSkipped l); [exact Hl | apply K, Hl].
  - apply terminators_all.
  - rewrite length_map. apply lines_length.
Qed.

End PlaylistFacts.

(** ** The callbacks of the rewrite *)

Module RewriteFacts.

Import Playlist PlaylistFacts JSFacts.

Lemma startsWith_cons :
  forall c s x p, startsWith (c :: s) (x :: p) = (x =? c) && startsWith s p.
Proof. reflexivity. Qed.

Lemma startsWith_head :
  forall s x p, startsWith s (x :: p) = true -> exists s', s = x :: s'.
Proof.
  intros [|c s] x p E; [discriminate|].
  rewrite startsWith_cons in E. apply andb_true_iff in E as [E _].
  apply N.eqb_eq in E. subst. eexists; reflexivity.
Qed.

Lemma startsWith_app : forall p s, startsWith (p ++ s) p = true.
Proof.
  induction p as [|x p IH]; intro s.
  - destruct s; reflexivity.
  - cbn [app]. rewrite startsWith_cons, N.eqb_refl. apply IH.
Qed.

Lemma isAbsolute_head :
  forall line, isAbsolute line = true -> exists s', line = 0x68 :: s'.
Proof.
  intros line E. unfold isAbsolute in E. apply orb_true_iff in E as [E | E];
    apply startsWith_head in E; exact E.
Qed.

(** A line that starts with a code unit other than [#] and white space
    passes the guard of the callbacks. *)
Lemma guard_passes :
  forall c s,
    c <> 0x23 -> isWhiteSpace c || isLineTerminator c = false ->
    startsWith (c :: s) (str "#") || negb (truthy (trim (c :: s))) = false.
Proof.
  intros c s NH NW.
  change (str "#") with [0x23]. rewrite startsWith_one.
  rewrite (trim_truthy c (c :: s)) by (left; reflexivity) || exact NW.
  apply N.eqb_neq in NH. rewrite N.eqb_sym in NH. rewrite NH. reflexivity.
Qed.

Lemma proxied_noTerminator :
  forall u v, proxied u = Some v -> noTerminator v.
Proof.
  intros u v. unfold proxied.
  destruct (encodeURIComponent u) as [e|] eqn:E; [|discriminate].
  intros [= <-]. change (noTerminator (str "/proxy?url=" ++ e)).
  apply noTerminator_app; [reflexivity|].
  apply encodeURIComponent_safe in E. unfold noTerminator.
  apply forallb_forall. intros c I.
  rewrite forallb_forall in E. rewrite (uriSafe_not_terminator c (E c I)). reflexivity.
Qed.

Lemma proxied_references :
  forall u v, proxied u = Some v -> referencesRelay v = true.
Proof.
  intros u v. unfold proxied.
  destruct (encodeURIComponent u) as [e|]; [|discriminate].
  intros [= <-]. apply (startsWith_app (str "/proxy?url=")).
Qed.

Lemma proxied_wellFormed :
  forall u, isWellFormed u = true ->
            exists e, encodeURIComponent u = Some e
                      /\ proxied u = Some (str "/proxy?url=" ++ e).
Proof.
  intros u W. destruct (encodeURIComponent_total u W) as [e E].
  exists e. unfold proxied. rewrite E. split; reflexivity.
Qed.

Section Callbacks.

Context {idna : IDNA}.

Lemma rewriteLine_attempt :
  forall baseUrl line,
    rewriteLine baseUrl line
    = if startsWith line (str "#") || negb (truthy (trim line)) then line
      else orElse (attempt baseUrl line) line.
Proof. reflexivity. Qed.

Lemma decoratorLine_attempt :
  forall originalUrl line,
    decoratorLine originalUrl line
    = if startsWith line (str "#") || negb (truthy (trim line)) then line
      else match URL_new originalUrl None with
           | None => line
           | Some _ => orElse (attempt originalUrl line) line
           end.
Proof.
  intros originalUrl line. unfold decoratorLine, attempt.
  destruct (startsWith line (str "#") || negb (truthy (trim line))); [reflexivity|].
  destruct (URL_new originalUrl None); [|reflexivity].
  destruct (isAbsolute line); [reflexivity|].
  destruct (startsWith line (str "/")); reflexivity.
Qed.

(** Once the original URL parses, the two callbacks agree. *)
Lemma decoratorLine_rewriteLine :
  forall originalUrl line,
    URL_new originalUrl None <> None ->
    decoratorLine originalUrl line = rewriteLine originalUrl line.
Proof.
  intros originalUrl line P. rewrite decoratorLine_attempt, rewriteLine_attempt.
  destruct (URL_new originalUrl None); [reflexivity | contradiction].
Qed.

Lemma attempt_proxied :
  forall baseUrl line v,
    attempt baseUrl line = Some v -> exists u, proxied u = Some v.
Proof.
  intros baseUrl line v. unfold attempt.
  destruct (isAbsolute line); [eauto|].
  destruct (startsWith line (str "/")).
  - destruct (URL_new baseUrl None); [eauto | discriminate].
  - destruct (URL_new baseUrl None) as [urlObj|]; [|discriminate].
    destruct (URL_new line (Some (href urlObj))); [eauto | discriminate].
Qed.

Lemma rewriteLine_noTerminator :
  forall baseUrl line, noTerminator line -> noTerminator (rewriteLine baseUrl line).
Proof.
  intros baseUrl line NT. rewrite rewriteLine_attempt.
  destruct (startsWith line (str "#") || negb (truthy (trim line))); [exact NT|].
  destruct (attempt baseUrl line) as [v|] eqn:A; [|exact NT].
  destruct (attempt_proxied _ _ _ A) as [x P].
  apply (proxied_noTerminator x v P).
Qed.

Lemma decoratorLine_noTerminator :
  forall originalUrl line, noTerminator line -> noTerminator (decoratorLine originalUrl line).
Proof.
  intros originalUrl line NT. rewrite decoratorLine_attempt.
  destruct (startsWith line (str "#") || negb (truthy (trim line))); [exact NT|].
  destruct (URL_new originalUrl None); [|exact NT].
  destruct (attempt originalUrl line) as [v|] eqn:A; [|exact NT].
  destruct (attempt_proxied _ _ _ A) as [x P].
  apply (proxied_noTerminator x v P).
Qed.

Lemma skipped_guard :
  forall line, isSkipped line = true ->
               startsWith line (str "#") || negb (truthy (trim line)) = true.
Proof.
  intros [|c s] S; [reflexivity|].
  unfold isSkipped in S. cbn [isEmptyList orb] in S. rewrite S. reflexivity.
Qed.

Lemma onLine_rewriteLine :
  forall baseUrl line, onLine (rewriteLine baseUrl) line = rewriteLine baseUrl line.
Proof.
  intros baseUrl line. unfold onLine. destruct (isSkipped line) eqn:S; [|reflexivity].
  rewrite rewriteLine_attempt, (skipped_guard _ S). reflexivity.
Qed.

Lemma onLine_decoratorLine :
  forall originalUrl line,
    onLine (decoratorLine originalUrl) line = decoratorLine originalUrl line.
Proof.
  intros originalUrl line. unfold onLine. destruct (isSkipped line) eqn:S; [|reflexivity].
  rewrite decoratorLine_attempt, (skipped_guard _ S). reflexivity.
Qed.

(** The rewrite maps the callback over the lines of the body and keeps
    the line terminators. *)
Lemma lines_rewritten :
  forall targetUrl data,
    lines (rewritten targetUrl data) = map (rewriteLine targetUrl) (lines data)
    /\ terminators (rewritten targetUrl data) = terminators data.
Proof.
  intros targetUrl data. unfold rewritten.
  destruct (lines_replace (rewriteLine targetUrl) data
                          (rewriteLine_noTerminator targetUrl)) as [L T].
  split; [|exact T]. rewrite L. apply map_ext, onLine_rewriteLine.
Qed.

Lemma lines_playlist :
  forall originalUrl data,
    lines (playlist originalUrl data) = map (decoratorLine originalUrl) (lines data)
    /\ terminators (playlist originalUrl data) = terminators data.
Proof.
  intros originalUrl data. unfold playlist.
  destruct (lines_replace (decoratorLine originalUrl) data
                          (decoratorLine_noTerminator originalUrl)) as [L T].
  split; [|exact T]. rewrite L. apply map_ext, onLine_decoratorLine.
Qed.

Lemma nth_rewritten :
  forall targetUrl data i line,
    nth_error (lines data) i = Some line ->
    nth_error (lines (rewritten targetUrl data)) i = Some (rewriteLine targetUrl line).
Proof.
  intros targetUrl data i line E.
  rewrite (proj1 (lines_rewritten targetUrl data)).
  apply map_nth_error, E.
Qed.

Lemma nth_playlist :
  forall originalUrl data i line,
    nth_error (lines data) i = Some line ->
    nth_error (lines (playlist originalUrl data)) i = Some (decoratorLine originalUrl line).
Proof.
  intros originalUrl data i line E.
  rewrite (proj1 (lines_playlist originalUrl data)).
  apply map_nth_error, E.
Qed.

(** An absolute line. *)
Lemma rewriteLine_absolute :
  forall baseUrl line,
    isAbsolute line = true -> isWellFormed line = true ->
    exists e, encodeURIComponent line = Some e
              /\ rewriteLine baseUrl line = str "/proxy?url=" ++ e.
Proof.
  intros baseUrl line A W.
  destruct (isAbsolute_head line A) as [s' ->].
  destruct (proxied_wellFormed _ W) as [e [E P]].
  exists e. split; [exact E|].
  rewrite rewriteLine_attempt, guard_passes by (discriminate || reflexivity).
  unfold attempt. rewrite A, P. reflexivity.
Qed.

Lemma root_not_absolute :
  forall line, startsWith line (str "/") = true -> isAbsolute line = false.
Proof.
  intros line R. apply startsWith_head in R as [s' ->].
  unfold isAbsolute. reflexivity.
Qed.

Lemma hostOf_below : forall u, Forall (fun c => c < 0xD800) (hostOf u).
Proof.
  intro u. unfold hostOf. destruct (host u); [|constructor].
  destruct (port u); apply str_below.
Qed.

(** A root-relative line. *)
Lemma rewriteLine_root :
  forall baseUrl line urlObj,
    startsWith line (str "/") = true -> isWellFormed line = true ->
    URL_new baseUrl None = Some urlObj ->
    exists e, encodeURIComponent (protocol urlObj ++ str "//" ++ hostOf urlObj ++ line)
              = Some e
              /\ rewriteLine baseUrl line = str "/proxy?url=" ++ e.
Proof.
  intros baseUrl line urlObj R W P.
  assert (isWellFormed (protocol urlObj ++ str "//" ++ hostOf urlObj ++ line) = true) as W'.
  { unfold protocol.
    rewrite isWellFormed_app by apply str_wellFormed.
    rewrite isWellFormed_app by apply str_wellFormed.
    rewrite isWellFormed_app by apply isWellFormed_below, hostOf_below.
    exact W. }
  destruct (proxied_wellFormed _ W') as [e [E Q]].
  exists e. split; [exact E|].
  pose proof (root_not_absolute line R) as NA.
  destruct (startsWith_head _ _ _ R) as [s' ->].
  rewrite rewriteLine_attempt, guard_passes by (discriminate || reflexivity).
  unfold attempt. rewrite NA, R, P, Q. reflexivity.
Qed.

(** A relative line whose resolution succeeds. *)
Lemma rewriteLine_relative :
  forall baseUrl line urlObj r,
    isComment line = false -> isBlank line = false ->
    isAbsolute line = false -> startsWith line (str "/") = false ->
    URL_new baseUrl None = Some urlObj ->
    URL_new line (Some (href urlObj)) = Some r ->
    exists e, encodeURIComponent (href r) = Some e
              /\ rewriteLine baseUrl line = str "/proxy?url=" ++ e.
Proof.
  intros baseUrl line urlObj r C B A R P Q.
  destruct (proxied_wellFormed (href r) (str_wellFormed _)) as [e [E X]].
  exists e. split; [exact E|].
  rewrite rewriteLine_attempt. unfold isComment in C. unfold isBlank in B.
  rewrite C, B. cbn [orb]. unfold attempt. rewrite A, R, P, Q, X. reflexivity.
Qed.

(** A relative line whose resolution fails stays as it is. *)
Lemma rewriteLine_unresolved :
  forall baseUrl line urlObj,
    isAbsolute line = false -> startsWith line (str "/") = false ->
    URL_new baseUrl None = Some urlObj ->
    URL_new line (Some (href urlObj)) = None ->
    rewriteLine baseUrl line = line.
Proof.
  intros baseUrl line urlObj A R P Q.
  rewrite rewriteLine_attempt. unfold attempt. rewrite A, R, P, Q.
  destruct (startsWith line (str "#") || negb (truthy (trim line))); reflexivity.
Qed.

End Callbacks.

End RewriteFacts.

(** ** Decoded text is well formed *)

Module DecoderFacts.

Import JSFacts.

Ltac Zify.zify_post_hook ::= Z.to_euclidean_division_equations.

Lemma lor_shiftl_6 :
  forall cp b, N.lor (N.shiftl cp 6) (N.land b 0x3F) = cp * 64 + b mod 64.
Proof.
  intros cp b. change 0x3F with (N.ones 6). rewrite N.land_ones.
  assert (N.land (N.shiftl cp 6) (b mod 2 ^ 6) = 0) as disjoint.
  { apply N.bits_inj. intro n. rewrite N.land_spec, N.bits_0.
    destruct (N.lt_ge_cases n 6) as [Lt | Ge].
    - rewrite N.shiftl_spec_low by exact Lt. reflexivity.
    - rewrite N.mod_pow2_bits_high by exact Ge. apply andb_false_r. }
  rewrite <- N.lxor_lor, <- N.add_nocarry_lxor by exact disjoint.
  rewrite N.shiftl_mul_pow2. reflexivity.
Qed.

Lemma land_low :
  forall b n, N.land b (N.ones n) = b mod 2 ^ n.
Proof. intros. apply N.land_ones. Qed.

Lemma utf8Initial_reachable : utf8Reachable utf8Initial.
Proof. unfold utf8Reachable. cbn. lia. Qed.

(** A first byte yields scalar values and a reachable state. *)
Lemma utf8First_scalar :
  forall b out st,
    utf8First b = (out, st) ->
    forallb isScalar out = true /\ utf8Reachable st.
Proof.
  intros b out st. unfold utf8First.
  change 0x1F with (N.ones 5). change 0xF with (N.ones 4). change 0x7 with (N.ones 3).
  rewrite !land_low.
  destruct (N.leb_spec b 0x7F).
  { intros [= <- <-]. split; [|apply utf8Initial_reachable].
    cbn. unfold isScalar. rewrite andb_true_r. bool_lia. }
  destruct (N.leb_spec 0xC2 b); cbn [andb].
  2:{ destruct (N.leb_spec 0xE0 b); cbn [andb]; [lia|].
      destruct (N.leb_spec 0xF0 b); cbn [andb]; [lia|].
      intros [= <- <-]. split; [reflexivity | apply utf8Initial_reachable]. }
  destruct (N.leb_spec b 0xDF).
  { intros [= <- <-]. split; [reflexivity|].
    unfold utf8Reachable. cbn. lia. }
  destruct (N.leb_spec 0xE0 b); cbn [andb].
  2:{ destruct (N.leb_spec 0xF0 b); cbn [andb]; [lia|].
      intros [= <- <-]. split; [reflexivity | apply utf8Initial_reachable]. }
  destruct (N.leb_spec b 0xEF).
  { intros [= <- <-]. split; [reflexivity|].
    unfold utf8Reachable. cbn.
    destruct (N.eqb_spec b 0xE0); destruct (N.eqb_spec b 0xED); lia. }
  destruct (N.leb_spec 0xF0 b); cbn [andb].
  2:{ intros [= <- <-]. split; [reflexivity | apply utf8Initial_reachable]. }
  destruct (N.leb_spec b 0xF4).
  { intros [= <- <-]. split; [reflexivity|].
    unfold utf8Reachable. cbn.
    destruct (N.eqb_spec b 0xF0); destruct (N.eqb_spec b 0xF4); lia. }
  intros [= <- <-]. split; [reflexivity | apply utf8Initial_reachable].
Qed.

(** The decoder emits scalar values only. *)
Lemma utf8Decode_scalar :
  forall bytes st,
    utf8Reachable st -> forallb isScalar (utf8Decode st bytes) = true.
Proof.
  induction bytes as [|b bytes IH]; intros st R.
  - cbn. destruct (bytesNeeded st =? 0); reflexivity.
  - cbn [utf8Decode].
    destruct (N.eqb_spec (bytesNeeded st) 0) as [Z | NZ].
    { destruct (utf8First b) as [out st'] eqn:F.
      destruct (utf8First_scalar _ _ _ F) as [S R'].
      rewrite forallb_app, S, (IH _ R'). reflexivity. }
    destruct (N.ltb_spec b (lowerBoundary st)) as [Lo | Lo]; cbn [orb].
    { destruct (utf8First b) as [out st'] eqn:F.
      destruct (utf8First_scalar _ _ _ F) as [S R'].
      cbn [forallb]. rewrite forallb_app, S, (IH _ R'). reflexivity. }
    destruct (N.ltb_spec (upperBoundary st) b) as [Hi | Hi].
    { destruct (utf8First b) as [out st'] eqn:F.
      destruct (utf8First_scalar _ _ _ F) as [S R'].
      cbn [forallb]. rewrite forallb_app, S, (IH _ R'). reflexivity. }
    rewrite lor_shiftl_6.
    destruct R as (L & U & R).
    destruct (N.eqb_spec (bytesNeeded st) 1) as [One | NOne].
    + cbn [forallb]. rewrite (IH _ utf8Initial_reachable), andb_true_r.
      unfold isScalar. bool_lia.
    + apply IH. unfold utf8Reachable. cbn. lia.
Qed.

Lemma utf16_wellFormed :
  forall cp s, isScalar cp = true -> isWellFormed (utf16 cp ++ s) = isWellFormed s.
Proof.
  intros cp s S. unfold utf16, isScalar in *.
  destruct (N.ltb_spec cp 0x10000).
  - cbn [app]. rewrite isWellFormed_cons.
    assert (isHighSurrogate cp = false) as -> by (unfold isHighSurrogate; bool_lia).
    assert (isLowSurrogate cp = false) as -> by (unfold isLowSurrogate; bool_lia).
    reflexivity.
  - cbn [app]. rewrite isWellFormed_cons.
    assert (isHighSurrogate (0xD800 + (cp - 0x10000) / 0x400) = true) as ->
        by (unfold isHighSurrogate; bool_lia).
    assert (isLowSurrogate (0xDC00 + (cp - 0x10000) mod 0x400) = true) as ->
        by (unfold isLowSurrogate; bool_lia).
    reflexivity.
Qed.

(** [buf.toString()] is a well-formed string, whatever the bytes. *)
Lemma toString_wellFormed : forall buf, isWellFormed (toString buf) = true.
Proof.
  intro buf. unfold toString.
  pose proof (utf8Decode_scalar buf _ utf8Initial_reachable) as S.
  induction (utf8Decode utf8Initial buf) as [|cp cps IH]; [reflexivity|].
  cbn [forallb] in S. apply andb_true_iff in S as [Scp S].
  cbn [flat_map]. rewrite utf16_wellFormed by exact Scp. apply IH, S.
Qed.

Ltac Zify.zify_post_hook ::= idtac.

(** The lines of a well-formed text are well formed. *)
Lemma lines_wellFormed :
  forall s, isWellFormed s = true ->
            Forall (fun line => isWellFormed line = true) (Playlist.lines s).
Proof.
  induction s as [| c | c d s IHs IHds] using list_pair_ind.
  - intros _. repeat constructor.
  - rewrite isWellFormed_cons. intro W. rewrite PlaylistFacts.lines_cons.
    destruct (isLineTerminator c); cbn; repeat constructor.
    rewrite isWellFormed_cons. exact W.
  - rewrite isWellFormed_cons. rewrite PlaylistFacts.lines_cons.
    destruct (isHighSurrogate c) eqn:Hi.
    + intro W. apply andb_true_iff in W as [Lo W].
      assert (isLineTerminator c = false) as ->.
      { revert Hi. unfold isHighSurrogate, isLineTerminator. bool_lia. }
      rewrite PlaylistFacts.lines_cons.
      assert (isLineTerminator d = false) as ->.
      { revert Lo. unfold isLowSurrogate, isLineTerminator. bool_lia. }
      specialize (IHs W).
      pose proof (PlaylistFacts.lines_not_nil s) as NE.
      destruct (Playlist.lines s) as [|l ls]; [contradiction|].
      inversion IHs as [|? ? Hl Hls]; subst.
      constructor; [|exact Hls].
      rewrite isWellFormed_cons, Hi, Lo. exact Hl.
    + destruct (isLowSurrogate c) eqn:Lo; [discriminate|].
      intro W. specialize (IHds W).
      destruct (isLineTerminator c).
      * constructor; [reflexivity | exact IHds].
      * pose proof (PlaylistFacts.lines_not_nil (d :: s)) as NE.
        destruct (Playlist.lines (d :: s)) as [|l ls]; [contradiction|].
        inversion IHds as [|? ? Hl Hls]; subst.
        constructor; [|exact Hls].
        rewrite isWellFormed_cons, Hi, Lo. exact Hl.
Qed.

(** The body that the relay buffers is well formed. *)
Lemma buffered_wellFormed :
  forall proxyRes, isWellFormed (Relay.buffered proxyRes) = true.
Proof.
  intro proxyRes. unfold Relay.buffered.
  assert (forall cs data, isWellFormed data = true ->
            isWellFormed (fold_left (fun data chunk => data ++ toString chunk) cs data)
            = true) as G.
  { induction cs as [|c cs IH]; intros data W; [exact W|].
    cbn [fold_left]. apply IH, isWellFormed_concat; [exact W | apply toString_wellFormed]. }
  apply G. reflexivity.
Qed.

End DecoderFacts.

(** ** The playlist rewrite, line by line *)

Module RewriteClaims.

Import Playlist PlaylistFacts JSFacts RewriteFacts DecoderFacts Relay Examples.

Lemma line_wellFormed :
  forall data i line,
    isWellFormed data = true -> nth_error (lines data) i = Some line ->
    isWellFormed line = true.
Proof.
  intros data i line W E.
  pose proof (lines_wellFormed data W) as F. rewrite Forall_forall in F.
  apply F. apply nth_error_In with i. exact E.
Qed.

Lemma attempt_None_unresolved :
  forall (idna : IDNA) baseUrl line,
    isWellFormed line = true -> attempt baseUrl line = None ->
    unresolved baseUrl line.
Proof.
  intros idna baseUrl line W. unfold attempt, unresolved.
  destruct (isAbsolute line) eqn:A.
  { destruct (proxied_wellFormed line W) as [e [_ P]]. rewrite P. discriminate. }
  intro E. split; [reflexivity|].
  destruct (URL_new baseUrl None) as [urlObj|]; [|exact I].
  destruct (startsWith line (str "/")) eqn:R.
  - exfalso.
    assert (isWellFormed (protocol urlObj ++ str "//" ++ hostOf urlObj ++ line) = true) as W'.
    { unfold protocol.
      rewrite isWellFormed_app by apply str_wellFormed.
      rewrite isWellFormed_app by apply str_wellFormed.
      rewrite isWellFormed_app by apply isWellFormed_below, hostOf_below.
      exact W. }
    destruct (proxied_wellFormed _ W') as [e [_ P]]. rewrite P in E. discriminate.
  - split; [reflexivity|].
    destruct (URL_new line (Some (href urlObj))) as [r|]; [|reflexivity].
    exfalso.
    destruct (proxied_wellFormed (href r) (str_wellFormed _)) as [e [_ P]].
    rewrite P in E. discriminate.
Qed.

(** C1: in the rewrite of a playlist body, a line that starts with
    [http://] or [https://] becomes exactly [/proxy?url=] followed by
    [encodeURIComponent] of the line, which does not throw on decoded
    text.  This holds in the relay on [http]/[https] for the buffered
    body and, once the original URL parses (as it does when the
    decorator runs), in [userResDecorator] for the decoded response. *)
Theorem C1_absolute_line_proxied :
  forall (idna : IDNA) (targetUrl : jstring) (proxyRes : ProxyRes)
         (proxyResData : Buffer) (i : nat) (line : jstring),
    isAbsolute line = true ->
    (nth_error (lines (buffered proxyRes)) i = Some line ->
     exists e,
       encodeURIComponent line = Some e /\
       nth_error (lines (rewritten targetUrl (buffered proxyRes))) i
       = Some (str "/proxy?url=" ++ e))
    /\
    (nth_error (lines (toString proxyResData)) i = Some line ->
     URL_new targetUrl None <> None ->
     exists e,
       encodeURIComponent line = Some e /\
       nth_error (lines (playlist targetUrl (toString proxyResData))) i
       = Some (str "/proxy?url=" ++ e)).
Proof.
  intros idna targetUrl proxyRes proxyResData i line A. split.
  - intro E.
    pose proof (line_wellFormed _ _ _ (buffered_wellFormed proxyRes) E) as W.
    destruct (rewriteLine_absolute targetUrl line A W) as [e [Enc R]].
    exists e. split; [exact Enc|].
    rewrite (nth_rewritten _ _ _ _ E), R. reflexivity.
  - intros E P.
    pose proof (line_wellFormed _ _ _ (toString_wellFormed proxyResData) E) as W.
    destruct (rewriteLine_absolute targetUrl line A W) as [e [Enc R]].
    exists e. split; [exact Enc|].
    rewrite (nth_playlist _ _ _ _ E), (decoratorLine_rewriteLine _ _ P), R.
    reflexivity.
Qed.

(** The absolute line of the example playlist, with its space escaped. *)
Lemma C1_absolute_line_witness :
  isAbsolute (str "https://cdn.example/seg 1.ts") = true /\
  nth_error (lines (buffered upstreamResponse)) 5
  = Some (str "https://cdn.example/seg 1.ts") /\
  exists e,
    encodeURIComponent (str "https://cdn.example/seg 1.ts") = Some e /\
    nth_error (lines (rewritten (idna := asciiHosts) masterUrl (buffered upstreamResponse))) 5
    = Some (str "/proxy?url=" ++ e).
Proof.
  split; [reflexivity|]. split; [vm_compute; reflexivity|].
  apply (proj1 (C1_absolute_line_proxied asciiHosts masterUrl upstreamResponse [] 5
                  (str "https://cdn.example/seg 1.ts") eq_refl)).
  vm_compute. reflexivity.
Defined.

(** C2, as the specification states it, fails: [seg1.ts] against
    [https://h/a/b/master.m3u8] is not rewritten to the encoding of
    [https://h/a/seg1.ts]. *)
Lemma C2_relative_counterexample :
  rewriteLine (idna := asciiHosts) masterUrl (str "seg1.ts")
  <> str "/proxy?url=" ++ str "https%3A%2F%2Fh%2Fa%2Fseg1.ts".
Proof. vm_compute. discriminate. Qed.

(** C2, amended: a line that is no comment, not blank, not absolute and
    not root-relative, and that [new URL(line, base)] resolves against
    the original URL, becomes [/proxy?url=] followed by the encoding of
    the resolved URL; the encoding never throws.  (For [seg1.ts] against
    [https://h/a/b/master.m3u8] the resolved URL is
    [https://h/a/b/seg1.ts], see the witness.) *)
Theorem C2_relative_line_resolved :
  forall (idna : IDNA) (targetUrl data : jstring) (urlObj r : URL)
         (i : nat) (line : jstring),
    nth_error (lines data) i = Some line ->
    isComment line = false -> isBlank line = false ->
    isAbsolute line = false -> startsWith line (str "/") = false ->
    URL_new targetUrl None = Some urlObj ->
    URL_new line (Some (href urlObj)) = Some r ->
    exists e,
      encodeURIComponent (href r) = Some e /\
      nth_error (lines (rewritten targetUrl data)) i = Some (str "/proxy?url=" ++ e) /\
      nth_error (lines (playlist targetUrl data)) i = Some (str "/proxy?url=" ++ e).
Proof.
  intros idna targetUrl data urlObj r i line E C B A R P Q.
  destruct (rewriteLine_relative targetUrl line urlObj r C B A R P Q) as [e [Enc L]].
  exists e. split; [exact Enc|]. split.
  - rewrite (nth_rewritten _ _ _ _ E), L. reflexivity.
  - rewrite (nth_playlist _ _ _ _ E), decoratorLine_rewriteLine, L by (rewrite P; discriminate).
    reflexivity.
Qed.

(** [seg1.ts] of the example playlist resolves to [https://h/a/b/seg1.ts]. *)
Lemma C2_relative_line_witness :
  option_map href (URL_new (idna := asciiHosts) (str "seg1.ts") (Some masterUrl))
  = Some (str "https://h/a/b/seg1.ts") /\
  encodeURIComponent (str "https://h/a/b/seg1.ts")
  = Some (str "https%3A%2F%2Fh%2Fa%2Fb%2Fseg1.ts") /\
  exists e,
    encodeURIComponent (str "https://h/a/b/seg1.ts") = Some e /\
    nth_error (lines (rewritten (idna := asciiHosts) masterUrl (buffered upstreamResponse))) 2
    = Some (str "/proxy?url=" ++ e) /\
    nth_error (lines (playlist (idna := asciiHosts) masterUrl (buffered upstreamResponse))) 2
    = Some (str "/proxy?url=" ++ e).
Proof.
  split; [vm_compute; reflexivity|]. split; [vm_compute; reflexivity|].
  destruct (URL_new (idna := asciiHosts) masterUrl None) as [urlObj|] eqn:P;
    [|vm_compute in P; discriminate].
  destruct (URL_new (idna := asciiHosts) (str "seg1.ts") (Some (href urlObj))) as [r|] eqn:Q;
    [|vm_compute in P; injection P as <-; vm_compute in Q; discriminate].
  assert (href r = str "https://h/a/b/seg1.ts") as <-.
  { vm_compute in P. injection P as <-. vm_compute in Q. injection Q as <-.
    vm_compute. reflexivity. }
  apply (C2_relative_line_resolved asciiHosts masterUrl (buffered upstreamResponse)
           urlObj r 2 (str "seg1.ts")); try exact P; try exact Q; vm_compute; reflexivity.
Defined.

(** C3: a line that starts with [/] is appended to the protocol and
    host of the original URL, and becomes [/proxy?url=] followed by the
    encoding of that URL, which does not throw on decoded text.  (For
    [/live/seg1.ts] against [https://h/a/b/master.m3u8] that URL is
    [https://h/live/seg1.ts], see the witness.) *)
Theorem C3_root_relative_line :
  forall (idna : IDNA) (targetUrl : jstring) (urlObj : URL) (proxyRes : ProxyRes)
         (proxyResData : Buffer) (i : nat) (line : jstring),
    startsWith line (str "/") = true ->
    URL_new targetUrl None = Some urlObj ->
    (nth_error (lines (buffered proxyRes)) i = Some line ->
     exists e,
       encodeURIComponent (protocol urlObj ++ str "//" ++ hostOf urlObj ++ line) = Some e /\
       nth_error (lines (rewritten targetUrl (buffered proxyRes))) i
       = Some (str "/proxy?url=" ++ e))
    /\
    (nth_error (lines (toString proxyResData)) i = Some line ->
     exists e,
       encodeURIComponent (protocol urlObj ++ str "//" ++ hostOf urlObj ++ line) = Some e /\
       nth_error (lines (playlist targetUrl (toString proxyResData))) i
       = Some (str "/proxy?url=" ++ e)).
Proof.
  intros idna targetUrl urlObj proxyRes proxyResData i line R P. split.
  - intro E.
    pose proof (line_wellFormed _ _ _ (buffered_wellFormed proxyRes) E) as W.
    destruct (rewriteLine_root targetUrl line urlObj R W P) as [e [Enc L]].
    exists e. split; [exact Enc|].
    rewrite (nth_rewritten _ _ _ _ E), L. reflexivity.
  - intro E.
    pose proof (line_wellFormed _ _ _ (toString_wellFormed proxyResData) E) as W.
    destruct (rewriteLine_root targetUrl line urlObj R W P) as [e [Enc L]].
    exists e. split; [exact Enc|].
    rewrite (nth_playlist _ _ _ _ E), decoratorLine_rewriteLine, L
      by (rewrite P; discriminate).
    reflexivity.
Qed.

(** [/live/seg1.ts] of the example playlist. *)
Lemma C3_root_relative_witness :
  option_map (fun u => protocol u ++ str "//" ++ hostOf u ++ str "/live/seg1.ts")
             (URL_new (idna := asciiHosts) masterUrl None)
  = Some (str "https://h/live/seg1.ts") /\
  exists urlObj,
    URL_new (idna := asciiHosts) masterUrl None = Some urlObj /\
    exists e,
      encodeURIComponent (protocol urlObj ++ str "//" ++ hostOf urlObj
                          ++ str "/live/seg1.ts") = Some e /\
      nth_error (lines (rewritten (idna := asciiHosts) masterUrl (buffered upstreamResponse))) 4
      = Some (str "/proxy?url=" ++ e).
Proof.
  split; [vm_compute; reflexivity|].
  destruct (URL_new (idna := asciiHosts) masterUrl None) as [urlObj|] eqn:P;
    [|vm_compute in P; discriminate].
  exists urlObj. split; [reflexivity|].
  apply (proj1 (C3_root_relative_line asciiHosts masterUrl urlObj upstreamResponse []
                  4 (str "/live/seg1.ts") eq_refl P)).
  vm_compute. reflexivity.
Defined.

(** C4, as stated, fails: a line that does not resolve stays as it is in
    the output, and it does not reference the relay endpoint. *)
Lemma C4_unresolved_counterexample :
  nth_error (lines (rewritten (idna := asciiHosts) masterUrl (buffered upstreamResponse))) 6
  = Some (str "rtsp://cam:port/live") /\
  isComment (str "rtsp://cam:port/live") = false /\
  isBlank (str "rtsp://cam:port/live") = false /\
  referencesRelay (str "rtsp://cam:port/live") = false.
Proof. vm_compute. repeat split; reflexivity. Qed.

(** C4, amended: every line of the output that is no comment and not
    blank either references the relay endpoint or is the input line at
    the same position, unchanged, and then the line is not absolute and
    [new URL] does not resolve it. *)
Theorem C4_output_lines :
  forall (idna : IDNA) (targetUrl : jstring) (proxyRes : ProxyRes)
         (i : nat) (out : jstring),
    nth_error (lines (rewritten targetUrl (buffered proxyRes))) i = Some out ->
    isComment out = false -> isBlank out = false ->
    referencesRelay out = true
    \/ (nth_error (lines (buffered proxyRes)) i = Some out /\ unresolved targetUrl out).
Proof.
  intros idna targetUrl proxyRes i out E C B.
  rewrite (proj1 (lines_rewritten targetUrl _)), nth_error_map in E.
  destruct (nth_error (lines (buffered proxyRes)) i) as [line|] eqn:L; [|discriminate].
  injection E as E.
  pose proof (line_wellFormed _ _ _ (buffered_wellFormed proxyRes) L) as W.
  rewrite rewriteLine_attempt in E.
  destruct (startsWith line (str "#") || negb (truthy (trim line))) eqn:G.
  - subst out. unfold isComment in C. unfold isBlank in B. rewrite C, B in G. discriminate.
  - destruct (attempt targetUrl line) as [v|] eqn:A; cbn [orElse] in E; subst out.
    + left. destruct (attempt_proxied _ _ _ A) as [u P].
      apply (proxied_references u v P).
    + right. split; [reflexivity|]. apply attempt_None_unresolved; assumption.
Qed.

(** The output lines of the example: one that references the relay and
    one that stays. *)
Lemma C4_output_lines_witness :
  (referencesRelay (str "/proxy?url=https%3A%2F%2Fh%2Fa%2Fb%2Fseg1.ts") = true
   \/ (nth_error (lines (buffered upstreamResponse)) 2
       = Some (str "/proxy?url=https%3A%2F%2Fh%2Fa%2Fb%2Fseg1.ts")
       /\ unresolved (idna := asciiHosts) masterUrl
                     (str "/proxy?url=https%3A%2F%2Fh%2Fa%2Fb%2Fseg1.ts")))
  /\
  (referencesRelay (str "rtsp://cam:port/live") = true
   \/ (nth_error (lines (buffered upstreamResponse)) 6 = Some (str "rtsp://cam:port/live")
       /\ unresolved (idna := asciiHosts) masterUrl (str "rtsp://cam:port/live"))).
Proof.
  split.
  - apply (C4_output_lines asciiHosts masterUrl upstreamResponse 2); vm_compute; reflexivity.
  - apply (C4_output_lines asciiHosts masterUrl upstreamResponse 6); vm_compute; reflexivity.
Defined.

(** C8: lines that begin with [#] and blank lines come out of the
    rewrite unchanged, in both scripts. *)
Theorem C8_comments_and_blanks_unchanged :
  forall (idna : IDNA) (targetUrl data : jstring) (i : nat) (line : jstring),
    nth_error (lines data) i = Some line ->
    isComment line = true \/ isBlank line = true ->
    nth_error (lines (rewritten targetUrl data)) i = Some line /\
    nth_error (lines (playlist targetUrl data)) i = Some line.
Proof.
  intros idna targetUrl data i line E S.
  assert (startsWith line (str "#") || negb (truthy (trim line)) = true) as G.
  { unfold isComment, isBlank in S. destruct S as [-> | ->];
      [reflexivity | apply orb_true_r]. }
  split.
  - rewrite (nth_rewritten _ _ _ _ E), rewriteLine_attempt, G. reflexivity.
  - rewrite (nth_playlist _ _ _ _ E), decoratorLine_attempt, G. reflexivity.
Qed.

(** The directive and the empty line of the example playlist. *)
Lemma C8_comments_and_blanks_witness :
  (nth_error (lines (rewritten (idna := asciiHosts) masterUrl (buffered upstreamResponse))) 1
   = Some (str "#EXTINF:10,") /\
   nth_error (lines (playlist (idna := asciiHosts) masterUrl (buffered upstreamResponse))) 1
   = Some (str "#EXTINF:10,"))
  /\
  (nth_error (lines (rewritten (idna := asciiHosts) masterUrl (buffered upstreamResponse))) 3
   = Some [] /\
   nth_error (lines (playlist (idna := asciiHosts) masterUrl (buffered upstreamResponse))) 3
   = Some []).
Proof.
  split.
  - apply (C8_comments_and_blanks_unchanged asciiHosts masterUrl _ 1 (str "#EXTINF:10,"));
      [vm_compute; reflexivity | left; reflexivity].
  - apply (C8_comments_and_blanks_unchanged asciiHosts masterUrl _ 3 []);
      [vm_compute; reflexivity | right; reflexivity].
Defined.

(** C10: the rewrite maps each line of the body to one line of the
    output, in order: the lines of the output are the images of the
    lines of the input under the callback, there are as many of them,
    and the line terminators are those of the input. *)
Theorem C10_one_line_per_line :
  forall (idna : IDNA) (targetUrl data : jstring),
    (lines (rewritten targetUrl data) = map (rewriteLine targetUrl) (lines data)
     /\ List.length (lines (rewritten targetUrl data)) = List.length (lines data)
     /\ terminators (rewritten targetUrl data) = terminators data)
    /\
    (lines (playlist targetUrl data) = map (decoratorLine targetUrl) (lines data)
     /\ List.length (lines (playlist targetUrl data)) = List.length (lines data)
     /\ terminators (playlist targetUrl data) = terminators data).
Proof.
  intros idna targetUrl data.
  destruct (lines_rewritten targetUrl data) as [L T].
  destruct (lines_playlist targetUrl data) as [L' T'].
  repeat split; try assumption.
  - rewrite L. apply length_map.
  - rewrite L'. apply length_map.
Qed.

End RewriteClaims.

(** ** The relay handler *)

Module RelayClaims.

Import Playlist Relay Examples.

(** The empty string is no URL. *)
Lemma URL_new_empty : forall (idna : IDNA), URL_new [] None = None.
Proof. reflexivity. Qed.

Lemma outbound_truthy :
  forall (idna : IDNA) targetUrl req out,
    outbound targetUrl req = Some out -> truthy targetUrl = true.
Proof.
  intros idna [|c s] req out E; [|reflexivity].
  unfold outbound in E. rewrite URL_new_empty in E. discriminate.
Qed.

Lemma outbound_target :
  forall (idna : IDNA) targetUrl req out,
    outbound targetUrl req = Some out ->
    target out = targetUrl /\
    exists urlObj,
      URL_new targetUrl None = Some urlObj /\
      headers out = requestHeaders targetUrl urlObj req.
Proof.
  intros idna targetUrl req out. unfold outbound.
  destruct (URL_new targetUrl None) as [urlObj|]; [|discriminate].
  destruct (clientAccepts (clientFor urlObj) urlObj); [|discriminate].
  intros [= <-]. split; [reflexivity|]. exists urlObj. split; reflexivity.
Qed.

(** C5, as stated, fails: the path of the target URL ends in [.m3u8],
    yet the body is piped through, because the URL has a query. *)
Lemma C5_suffix_counterexample :
  option_map (fun u => endsWith (pathname u) (str ".m3u8"))
             (URL_new (idna := asciiHosts) (str "https://h/a/master.m3u8?token=1") None)
  = Some true /\
  body (fst (proxy (idna := asciiHosts) upstream
                   (request "https://h/a/master.m3u8?token=1")))
  = Piped [playlistBody].
Proof. vm_compute. split; reflexivity. Qed.

(** C5, amended: when the upstream answers a request of the relay that
    rewrites playlists, the body is buffered, rewritten and sent with
    the HLS content type exactly when the [url] parameter, as a string,
    ends in [.m3u8]; otherwise the chunks of the upstream are piped as
    they are.  Status and headers are those of the upstream.
    [userResDecorator] decides the same way, and the relay of
    src/proxy.js always pipes. *)
Theorem C5_rewrite_iff_url_suffix :
  forall (idna : IDNA) (net : Outbound -> Upstream) (req : Request)
         (targetUrl : jstring) (out : Outbound) (proxyRes : ProxyRes)
         (proxyResData : Buffer),
    query_url req = Some targetUrl ->
    outbound targetUrl req = Some out ->
    net out = Responds proxyRes ->
    (endsWith targetUrl (str ".m3u8") = true ->
     fst (proxy net req)
     = mkResponse (statusCode proxyRes)
                  (setHeader (copied proxyRes) "content-type" hls)
                  (Sent (rewritten targetUrl (buffered proxyRes)))
     /\ userResDecorator (Some targetUrl) proxyResData
        = (Sent (playlist targetUrl (toString proxyResData)), true))
    /\
    (endsWith targetUrl (str ".m3u8") = false ->
     fst (proxy net req)
     = mkResponse (statusCode proxyRes) (copied proxyRes) (Piped (chunks proxyRes))
     /\ userResDecorator (Some targetUrl) proxyResData = (Piped [proxyResData], false))
    /\
    fst (plainProxy net req)
    = mkResponse (statusCode proxyRes) (copied proxyRes) (Piped (chunks proxyRes)).
Proof.
  intros idna net req targetUrl out proxyRes proxyResData Q O N.
  pose proof (outbound_truthy _ _ _ _ O) as T.
  unfold proxy, plainProxy, userResDecorator. rewrite Q, T, O, N. cbn [negb andb].
  split; [|split].
  - intro S. rewrite S. split; reflexivity.
  - intro S. rewrite S. split; reflexivity.
  - reflexivity.
Qed.

(** A playlist URL and a segment URL against the example upstream. *)
Lemma C5_rewrite_iff_url_suffix_witness :
  status (fst (proxy (idna := asciiHosts) upstream (request "https://h/a/b/master.m3u8")))
  = 200 /\
  body (fst (proxy (idna := asciiHosts) upstream (request "https://h/a/b/master.m3u8")))
  = Sent (rewritten (idna := asciiHosts) masterUrl (buffered upstreamResponse)) /\
  getHeader (outHeaders (fst (proxy (idna := asciiHosts) upstream
                                    (request "https://h/a/b/master.m3u8"))))
            "content-type"
  = Some hls /\
  fst (proxy (idna := asciiHosts) upstream (request "https://h/a/b/seg1.ts"))
  = mkResponse 200 (copied upstreamResponse) (Piped [playlistBody]).
Proof.
  destruct (outbound (idna := asciiHosts) masterUrl (request "https://h/a/b/master.m3u8"))
    as [out|] eqn:O; [|vm_compute in O; discriminate].
  destruct (outbound (idna := asciiHosts) (str "https://h/a/b/seg1.ts")
                     (request "https://h/a/b/seg1.ts"))
    as [out'|] eqn:O'; [|vm_compute in O'; discriminate].
  pose proof (C5_rewrite_iff_url_suffix asciiHosts upstream
                (request "https://h/a/b/master.m3u8") masterUrl out upstreamResponse []
                eq_refl O eq_refl) as [Yes _].
  pose proof (C5_rewrite_iff_url_suffix asciiHosts upstream
                (request "https://h/a/b/seg1.ts") (str "https://h/a/b/seg1.ts") out'
                upstreamResponse [] eq_refl O' eq_refl) as [_ [No _]].
  destruct (Yes eq_refl) as [Y _]. destruct (No eq_refl) as [Z _].
  rewrite Y, Z. repeat split; reflexivity.
Defined.

(** C6, as stated, fails: a [url] parameter that is no URL is answered
    with status 500, not 400. *)
Lemma C6_invalid_url_counterexample :
  URL_new (idna := asciiHosts) (str "not a url") None = None /\
  status (fst (proxy (idna := asciiHosts) upstream (request "not a url"))) = 500 /\
  status (fst (proxy (idna := asciiHosts) upstream (request "not a url"))) <> 400.
Proof. vm_compute. repeat split; discriminate. Qed.

(** C6, amended: a [url] parameter that is present and does not parse
    as a URL is answered with status 500 and the text "Proxy setup
    failed", and no request is sent upstream; so in the relay that
    rewrites playlists and in the relay of src/proxy.js. *)
Theorem C6_invalid_url_is_500 :
  forall (idna : IDNA) (net : Outbound -> Upstream) (req : Request)
         (targetUrl : jstring),
    query_url req = Some targetUrl ->
    truthy targetUrl = true ->
    URL_new targetUrl None = None ->
    proxy net req = (send 500 "Proxy setup failed", []) /\
    plainProxy net req = (send 500 "Proxy setup failed", []).
Proof.
  intros idna net req targetUrl Q T P.
  unfold proxy, plainProxy, outbound. rewrite Q, T, P. split; reflexivity.
Qed.

Lemma C6_invalid_url_witness :
  proxy (idna := asciiHosts) upstream (request "not a url")
  = (send 500 "Proxy setup failed", []) /\
  plainProxy (idna := asciiHosts) upstream (request "not a url")
  = (send 500 "Proxy setup failed", []).
Proof.
  apply (C6_invalid_url_is_500 asciiHosts upstream (request "not a url") (str "not a url"));
    reflexivity.
Defined.

(** C7, as stated, fails: the host of the target is [example.com], not
    the CDN, yet the request carries the overridden [Referer], because
    the name of the CDN occurs in the path. *)
Lemma C7_host_counterexample :
  option_map (fun u => includes (hostOf u) cdn)
             (URL_new (idna := asciiHosts) (str "https://example.com/edgenextcdn.net/x.ts") None)
  = Some false /\
  map (fun o => getHeader (headers o) "Referer")
      (snd (proxy (idna := asciiHosts) upstream
                  (request "https://example.com/edgenextcdn.net/x.ts")))
  = [Some referer].
Proof. vm_compute. split; reflexivity. Qed.

Lemma requestHeaders_antibot :
  forall targetUrl urlObj req,
    (includes targetUrl cdn = true ->
     getHeader (requestHeaders targetUrl urlObj req) "Referer" = Some referer /\
     getHeader (requestHeaders targetUrl urlObj req) "Origin" = Some origin)
    /\
    (includes targetUrl cdn = false ->
     getHeader (requestHeaders targetUrl urlObj req) "Referer" = None /\
     getHeader (requestHeaders targetUrl urlObj req) "Origin" = None).
Proof.
  intros targetUrl urlObj req. unfold requestHeaders. fold cdn.
  split; intros ->; destruct req as [u c f [ck|]]; cbn [cookie missing];
    try destruct (truthy ck); split; reflexivity.
Qed.

(** C7, amended: every request that the relay sends upstream goes to the
    [url] parameter; it carries [Referer: https://www.shahid.net/] and
    [Origin: https://www.shahid.net] when that parameter, as a string,
    contains [edgenextcdn.net], and no [Referer] and no [Origin] header
    otherwise. *)
Theorem C7_antibot_headers :
  forall (idna : IDNA) (net : Outbound -> Upstream) (req : Request) (o : Outbound),
    In o (snd (proxy net req)) ->
    exists targetUrl,
      query_url req = Some targetUrl /\ target o = targetUrl /\
      (includes targetUrl cdn = true ->
       getHeader (headers o) "Referer" = Some referer /\
       getHeader (headers o) "Origin" = Some origin) /\
      (includes targetUrl cdn = false ->
       getHeader (headers o) "Referer" = None /\
       getHeader (headers o) "Origin" = None).
Proof.
  intros idna net req o I. unfold proxy in I.
  destruct (query_url req) as [targetUrl|]; [|destruct I].
  destruct (truthy targetUrl); cbn [negb] in I; [|destruct I].
  destruct (outbound targetUrl req) as [out|] eqn:O; [|destruct I].
  assert (o = out) as ->.
  { destruct (net out) as [|proxyRes]; [|destruct (endsWith targetUrl (str ".m3u8"))];
      destruct I as [<- | []]; reflexivity. }
  destruct (outbound_target _ _ _ _ O) as [Tg [urlObj [_ Hd]]].
  exists targetUrl. split; [reflexivity|]. split; [exact Tg|].
  rewrite Hd. apply requestHeaders_antibot.
Qed.

Lemma C7_antibot_headers_witness :
  exists o targetUrl,
    snd (proxy (idna := asciiHosts) upstream
               (request "https://shd-gcp-live.edgenextcdn.net/live/master.m3u8")) = [o] /\
    query_url (request "https://shd-gcp-live.edgenextcdn.net/live/master.m3u8")
    = Some targetUrl /\
    target o = targetUrl /\
    (includes targetUrl cdn = true ->
     getHeader (headers o) "Referer" = Some referer /\
     getHeader (headers o) "Origin" = Some origin) /\
    (includes targetUrl cdn = false ->
     getHeader (headers o) "Referer" = None /\
     getHeader (headers o) "Origin" = None).
Proof.
  destruct (snd (proxy (idna := asciiHosts) upstream
                       (request "https://shd-gcp-live.edgenextcdn.net/live/master.m3u8")))
    as [|o [|o' l]] eqn:S; try (vm_compute in S; discriminate).
  destruct (C7_antibot_headers asciiHosts upstream
              (request "https://shd-gcp-live.edgenextcdn.net/live/master.m3u8") o)
    as [targetUrl K]; [rewrite S; left; reflexivity|].
  exists o, targetUrl. split; [reflexivity | exact K].
Defined.

End RelayClaims.

(** ** The EPG filter *)

Module EpgClaims.

Import Epg Examples.

Lemma filter_none :
  forall (A : Type) (f : A -> bool) (l : list A),
    (forall x, In x l -> f x = false) -> filter f l = [].
Proof.
  intros A f l. induction l as [|x l IH]; intro K; [reflexivity|].
  cbn. rewrite (K x) by (left; reflexivity). apply IH.
  intros y I. apply K. right. exact I.
Qed.

(** C9, as stated, fails: for the empty guide [<tv/>] no programme has
    the requested channel, and the request with [format=json] is
    answered with status 500, not with 200 and an empty list. *)
Lemma C9_empty_guide_counterexample :
  query_channel (epgRequest "bbc" "json") = Some (str "bbc") /\
  query_format (epgRequest "bbc" "json") = Some (str "json") /\
  tv emptyGuide = Some (Text []) /\
  filter (matchesChannel (str "bbc")) (allProgrammes (Text [])) = [] /\
  epg emptyGuideEnv (epgRequest "bbc" "json") = failure 500 "Invalid EPG format" /\
  epg emptyGuideEnv (epgRequest "bbc" "json")
  <> mkEpgResponse 200 (Some "application/json"%string) (JsonEPG (str "bbc") []).
Proof. repeat split; try reflexivity. discriminate. Qed.

(** C9, amended: when the guide is fetched and parsed, its root is [tv],
    and no programme of it has the requested channel, a request with a
    non-empty [channel] and [format=json] is answered with status 200,
    the JSON content type and the object with that channel and an empty
    list of programmes, provided the root is not empty; for the empty
    root (the guide [<tv/>]) the answer is 500 "Invalid EPG format". *)
Theorem C9_no_match_answer :
  forall (env : Env) (req : Request) (channelFilter xmlData : jstring)
         (parsed : Parsed) (root : Node),
    query_channel req = Some channelFilter ->
    truthy channelFilter = true ->
    query_format req = Some (str "json") ->
    axios_get env epgUrl = Some xmlData ->
    parseStringPromise env xmlData = Some parsed ->
    tv parsed = Some root ->
    (forall p, In p (allProgrammes root) -> matchesChannel channelFilter p = false) ->
    epg env req
    = if truthyNode root
      then mkEpgResponse 200 (Some "application/json"%string) (JsonEPG channelFilter [])
      else failure 500 "Invalid EPG format".
Proof.
  intros env req channelFilter xmlData parsed root C T F A P R NM.
  unfold epg. rewrite C, T, F, A, P, R. cbn [negb truthy str].
  destruct (truthyNode root); cbn [negb]; [|reflexivity].
  rewrite (filter_none _ _ _ NM). reflexivity.
Qed.

(** The example guide has no programme of channel [cnn]. *)
Lemma C9_no_match_witness :
  epg guideEnv (epgRequest "cnn" "json")
  = mkEpgResponse 200 (Some "application/json"%string) (JsonEPG (str "cnn") []).
Proof.
  apply (C9_no_match_answer guideEnv (epgRequest "cnn" "json") (str "cnn")
           guideXml guide (snd guide)); try reflexivity.
  intros p [<- | []]. reflexivity.
Defined.

End EpgClaims.

(** ** More on the playlist rewrite *)

Module RewriteProperties.

Import Playlist PlaylistFacts JSFacts RewriteFacts Relay Examples.

(** A text is its lines joined by its terminators. *)
Lemma unlines_lines : forall s, unlines (lines s) (terminators s) = s.
Proof.
  induction s as [|c s IH]; [reflexivity|].
  rewrite lines_cons. unfold terminators in *. cbn [filter].
  destruct (isLineTerminator c).
  - cbn [unlines app]. rewrite IH. reflexivity.
  - pose proof (lines_not_nil s) as NE.
    destruct (lines s) as [|l ls]; [contradiction|].
    transitivity ([c] ++ unlines (l :: ls) (filter isLineTerminator s)).
    + apply (unlines_cons_app [c]).
    + rewrite IH. reflexivity.
Qed.

Lemma replace_fixed :
  forall callback data,
    (forall line, In line (lines data) -> onLine callback line = line) ->
    replace callback data = data.
Proof.
  intros callback data K. rewrite replace_unlines.
  rewrite (map_ext_in _ (fun l => l) _ K), map_id. apply unlines_lines.
Qed.

Section Scripts.

Context {idna : IDNA}.

(** X1: a playlist that has only directives and blank lines is returned as
    it is, byte for byte, by both scripts. *)
Theorem directives_only_unchanged :
  forall (targetUrl data : jstring),
    (forall line, In line (lines data) -> isComment line = true \/ isBlank line = true) ->
    rewritten targetUrl data = data /\ playlist targetUrl data = data.
Proof.
  intros targetUrl data K.
  assert (forall line, In line (lines data) ->
            startsWith line (str "#") || negb (truthy (trim line)) = true) as G.
  { intros line I. destruct (K line I) as [C | B].
    - unfold isComment in C. rewrite C. reflexivity.
    - unfold isBlank in B. rewrite B. apply orb_true_r. }
  split; apply replace_fixed; intros line I.
  - rewrite onLine_rewriteLine, rewriteLine_attempt, (G line I). reflexivity.
  - rewrite onLine_decoratorLine, decoratorLine_attempt, (G line I). reflexivity.
Qed.

(** X2: once the original URL parses, [userResDecorator] and the relay on
    [http]/[https] rewrite a playlist to the same text. *)
Theorem scripts_agree :
  forall (targetUrl data : jstring),
    URL_new targetUrl None <> None ->
    playlist targetUrl data = rewritten targetUrl data.
Proof.
  intros targetUrl data P. unfold playlist, rewritten.
  rewrite !replace_unlines. f_equal. apply map_ext. intro line.
  rewrite onLine_rewriteLine, onLine_decoratorLine.
  apply decoratorLine_rewriteLine, P.
Qed.

(** X3: when the original URL does not parse, the callback of
    [userResDecorator] throws at once on every line, and the playlist is
    returned as it is. *)
Theorem decorator_keeps_playlist_of_invalid_url :
  forall (originalUrl data : jstring),
    URL_new originalUrl None = None -> playlist originalUrl data = data.
Proof.
  intros originalUrl data P. unfold playlist. apply replace_fixed. intros line _.
  rewrite onLine_decoratorLine, decoratorLine_attempt, P.
  destruct (startsWith line (str "#") || negb (truthy (trim line))); reflexivity.
Qed.

End Scripts.

Lemma directives_only_witness :
  rewritten (idna := asciiHosts) masterUrl (str ("#EXTM3U" ++ LF ++ LF ++ "#EXT-X-ENDLIST" ++ LF))
  = str ("#EXTM3U" ++ LF ++ LF ++ "#EXT-X-ENDLIST" ++ LF)
  /\ playlist (idna := asciiHosts) masterUrl (str ("#EXTM3U" ++ LF ++ LF ++ "#EXT-X-ENDLIST" ++ LF))
     = str ("#EXTM3U" ++ LF ++ LF ++ "#EXT-X-ENDLIST" ++ LF).
Proof.
  apply (directives_only_unchanged (idna := asciiHosts)).
  intros line I. vm_compute in I.
  repeat (destruct I as [<- | I]; [vm_compute; tauto|]). destruct I.
Defined.

Lemma scripts_agree_witness :
  playlist (idna := asciiHosts) masterUrl (buffered upstreamResponse)
  = rewritten (idna := asciiHosts) masterUrl (buffered upstreamResponse).
Proof.
  apply (scripts_agree (idna := asciiHosts)). vm_compute. discriminate.
Defined.

Lemma decorator_keeps_playlist_witness :
  playlist (idna := asciiHosts) (str "master.m3u8") (buffered upstreamResponse)
  = buffered upstreamResponse.
Proof.
  apply (decorator_keeps_playlist_of_invalid_url (idna := asciiHosts)). reflexivity.
Defined.

End RewriteProperties.

(** ** More on the relay handlers *)

Module RelayProperties.

Import Playlist Relay RelayClaims Examples.

Lemma jstring_eqb_eq : forall a b, jstring_eqb a b = true <-> a = b.
Proof.
  intros a b. unfold jstring_eqb.
  destruct (list_eq_dec N.eq_dec a b); split; congruence.
Qed.

Lemma getHeader_setHeader_same :
  forall h name value, getHeader (setHeader h name value) name = Some value.
Proof.
  induction h as [|[n v] h IH]; intros name value; cbn.
  - rewrite String.eqb_refl. reflexivity.
  - destruct (String.eqb n name) eqn:E; cbn.
    + rewrite String.eqb_refl. reflexivity.
    + rewrite E. apply IH.
Qed.

Lemma getHeader_setHeader_other :
  forall h name value other,
    other <> name ->
    getHeader (setHeader h name value) other = getHeader h other.
Proof.
  induction h as [|[n v] h IH]; intros name value other D; cbn.
  - apply String.eqb_neq in D. rewrite String.eqb_sym, D. reflexivity.
  - destruct (String.eqb n name) eqn:E; cbn.
    + apply String.eqb_eq in E. subst n.
      apply String.eqb_neq in D. rewrite (String.eqb_sym name other), D. reflexivity.
    + destruct (String.eqb n other); [reflexivity | apply IH, D].
Qed.

(** The headers copied from the upstream: for each name, the value that
    the upstream gave last. *)
Lemma getHeader_copied :
  forall proxyRes name,
    getHeader (copied proxyRes) name = getHeader (rev (resHeaders proxyRes)) name.
Proof.
  intros proxyRes name. unfold copied.
  assert (forall l h,
            getHeader (fold_left (fun h '(key, value) => setHeader h key value) l h) name
            = match getHeader (rev l) name with
              | Some v => Some v
              | None => getHeader h name
              end) as G.
  { induction l as [|[k v] l IH]; intro h; [reflexivity|].
    cbn [fold_left rev]. rewrite IH.
    assert (forall a b, getHeader (a ++ b) name
                        = match getHeader a name with
                          | Some x => Some x
                          | None => getHeader b name
                          end) as App.
    { induction a as [|[n x] a IHa]; intro b; [reflexivity|].
      cbn. destruct (String.eqb n name); [reflexivity | apply IHa]. }
    rewrite App. destruct (getHeader (rev l) name); [reflexivity|].
    cbn [getHeader]. destruct (String.eqb k name) eqn:E.
    - apply String.eqb_eq in E. subst k. apply getHeader_setHeader_same.
    - apply getHeader_setHeader_other. apply String.eqb_neq. rewrite String.eqb_sym. exact E. }
  rewrite G. destruct (getHeader (rev (resHeaders proxyRes)) name); reflexivity.
Qed.

Section Handlers.

Context {idna : IDNA}.

(** X4: a request without [url], or with an empty one, is answered with
    status 400 and sends nothing upstream. *)
Theorem missing_url_is_400 :
  forall (net : Outbound -> Upstream) (req : Request),
    missing (query_url req) = true ->
    proxy net req = (send 400 "Missing url param", []) /\
    plainProxy net req = (send 400 "Missing url param", []).
Proof.
  intros net req M. unfold proxy, plainProxy, missing in *.
  destruct (query_url req) as [u|]; [|split; reflexivity].
  rewrite M. split; reflexivity.
Qed.

(** X5: the relay never retries: it sends at most one request upstream,
    whatever the upstream does. *)
Theorem at_most_one_upstream_request :
  forall (net : Outbound -> Upstream) (req : Request),
    (List.length (snd (proxy net req)) <= 1)%nat /\
    (List.length (snd (plainProxy net req)) <= 1)%nat.
Proof.
  intros net req. unfold proxy, plainProxy.
  destruct (query_url req) as [u|]; [|cbn; lia].
  destruct (negb (truthy u)); [cbn; lia|].
  destruct (outbound u req) as [out|]; [|cbn; lia].
  destruct (net out); [cbn; lia|].
  destruct (endsWith u (str ".m3u8")); cbn; lia.
Qed.

(** X6: a network failure of the upstream is answered with status 500 and
    "Streaming proxy failed", after the one request. *)
Theorem network_error_is_500 :
  forall (net : Outbound -> Upstream) (req : Request) (targetUrl : jstring)
         (out : Outbound),
    query_url req = Some targetUrl ->
    outbound targetUrl req = Some out ->
    net out = NetworkError ->
    proxy net req = (send 500 "Streaming proxy failed", [out]) /\
    plainProxy net req = (send 500 "Streaming proxy failed", [out]).
Proof.
  intros net req targetUrl out Q O N.
  pose proof (outbound_truthy _ _ _ _ O) as T.
  unfold proxy, plainProxy. rewrite Q, T, O, N. split; reflexivity.
Qed.

(** X7: the request sent upstream: a GET of the [url] parameter itself, over
    TLS exactly for an [https:] URL and over plain HTTP for an [http:]
    one (no other protocol gets that far), with the host of the URL as
    [Host] and the fixed browser headers. *)
Theorem outbound_request_shape :
  forall (targetUrl : jstring) (req : Request) (out : Outbound),
    outbound targetUrl req = Some out ->
    exists urlObj,
      URL_new targetUrl None = Some urlObj /\
      target out = targetUrl /\ method out = "GET"%string /\
      ((client out = https /\ protocol urlObj = str "https:")
       \/ (client out = http /\ protocol urlObj = str "http:")) /\
      getHeader (headers out) "Host" = Some (hostOf urlObj) /\
      getHeader (headers out) "User-Agent" = Some userAgent /\
      getHeader (headers out) "Accept" = Some (str "*/*") /\
      getHeader (headers out) "Connection" = Some (str "keep-alive").
Proof.
  intros targetUrl req out. unfold outbound.
  destruct (URL_new targetUrl None) as [urlObj|]; [|discriminate].
  destruct (clientAccepts (clientFor urlObj) urlObj) eqn:A; [|discriminate].
  intros [= <-]. exists urlObj. cbn [target method client headers].
  split; [reflexivity|]. split; [reflexivity|]. split; [reflexivity|]. split.
  - unfold clientAccepts in A. destruct (clientFor urlObj);
      apply jstring_eqb_eq in A; [right | left]; split; (reflexivity || exact A).
  - unfold requestHeaders.
    destruct (includes targetUrl (str "edgenextcdn.net"));
      destruct req as [u c f [ck|]]; cbn [cookie missing];
      try destruct (truthy ck); repeat split; reflexivity.
Qed.

(** X8: the cookie of the client is forwarded as it is; without a cookie the
    request has no [Cookie] header. *)
Theorem cookie_forwarded :
  forall (targetUrl : jstring) (req : Request) (out : Outbound),
    outbound targetUrl req = Some out ->
    getHeader (headers out) "Cookie"
    = if missing (cookie req) then None else cookie req.
Proof.
  intros targetUrl req out O.
  destruct (outbound_target _ _ _ _ O) as [_ [urlObj [_ ->]]].
  unfold requestHeaders.
  destruct (includes targetUrl (str "edgenextcdn.net"));
    destruct req as [u c f [ck|]]; cbn [cookie missing];
    try destruct (truthy ck); reflexivity.
Qed.

(** X9: what the upstream answered is passed on: its status always, and for
    every header name the value it gave last; only [content-type] is
    replaced, and only when the playlist is rewritten.  In particular
    the [content-length] of the upstream is kept for a rewritten body. *)
Theorem upstream_status_and_headers_kept :
  forall (net : Outbound -> Upstream) (req : Request) (targetUrl : jstring)
         (out : Outbound) (proxyRes : ProxyRes) (name : string),
    query_url req = Some targetUrl ->
    outbound targetUrl req = Some out ->
    net out = Responds proxyRes ->
    status (fst (proxy net req)) = statusCode proxyRes /\
    (name <> "content-type"%string \/ endsWith targetUrl (str ".m3u8") = false ->
     getHeader (outHeaders (fst (proxy net req))) name
     = getHeader (rev (resHeaders proxyRes)) name).
Proof.
  intros net req targetUrl out proxyRes name Q O N.
  pose proof (outbound_truthy _ _ _ _ O) as T.
  unfold proxy. rewrite Q, T, O, N. cbn [negb].
  destruct (endsWith targetUrl (str ".m3u8")) eqn:S; cbn [fst status outHeaders].
  - split; [reflexivity|]. intros [D | D]; [|discriminate].
    rewrite getHeader_setHeader_other by exact D. apply getHeader_copied.
  - split; [reflexivity|]. intros _. apply getHeader_copied.
Qed.

End Handlers.

Lemma missing_url_witness :
  proxy (idna := asciiHosts) upstream (mkRequest (Some []) None None None)
  = (send 400 "Missing url param", []) /\
  plainProxy (idna := asciiHosts) upstream (mkRequest (Some []) None None None)
  = (send 400 "Missing url param", []).
Proof. apply (missing_url_is_400 (idna := asciiHosts)). reflexivity. Defined.

Lemma network_error_witness :
  exists out,
    outbound (idna := asciiHosts) masterUrl (request "https://h/a/b/master.m3u8") = Some out /\
    proxy (idna := asciiHosts) unreachable (request "https://h/a/b/master.m3u8")
    = (send 500 "Streaming proxy failed", [out]) /\
    plainProxy (idna := asciiHosts) unreachable (request "https://h/a/b/master.m3u8")
    = (send 500 "Streaming proxy failed", [out]).
Proof.
  destruct (outbound (idna := asciiHosts) masterUrl (request "https://h/a/b/master.m3u8"))
    as [out|] eqn:O; [|vm_compute in O; discriminate].
  exists out. split; [reflexivity|].
  apply (network_error_is_500 (idna := asciiHosts) unreachable _ masterUrl out);
    [reflexivity | exact O | reflexivity].
Defined.

Lemma outbound_request_shape_witness :
  exists out urlObj,
    outbound (idna := asciiHosts) (str "http://192.168.1.10:8080/live/stream.m3u8")
             (request "http://192.168.1.10:8080/live/stream.m3u8") = Some out /\
    URL_new (idna := asciiHosts) (str "http://192.168.1.10:8080/live/stream.m3u8") None
    = Some urlObj /\
    target out = str "http://192.168.1.10:8080/live/stream.m3u8" /\
    method out = "GET"%string /\
    ((client out = https /\ protocol urlObj = str "https:")
     \/ (client out = http /\ protocol urlObj = str "http:")) /\
    getHeader (headers out) "Host" = Some (hostOf urlObj) /\
    getHeader (headers out) "User-Agent" = Some userAgent /\
    getHeader (headers out) "Accept" = Some (str "*/*") /\
    getHeader (headers out) "Connection" = Some (str "keep-alive").
Proof.
  destruct (outbound (idna := asciiHosts) (str "http://192.168.1.10:8080/live/stream.m3u8")
                     (request "http://192.168.1.10:8080/live/stream.m3u8"))
    as [out|] eqn:O; [|vm_compute in O; discriminate].
  destruct (outbound_request_shape (idna := asciiHosts) _ _ _ O) as [urlObj K].
  exists out, urlObj. split; [reflexivity | exact K].
Defined.

Lemma cookie_forwarded_witness :
  exists out,
    outbound (idna := asciiHosts) masterUrl
             (mkRequest (Some masterUrl) None None (Some (str "session=1"))) = Some out /\
    getHeader (headers out) "Cookie" = Some (str "session=1").
Proof.
  destruct (outbound (idna := asciiHosts) masterUrl
                     (mkRequest (Some masterUrl) None None (Some (str "session=1"))))
    as [out|] eqn:O; [|vm_compute in O; discriminate].
  exists out. split; [reflexivity|].
  apply (cookie_forwarded (idna := asciiHosts) _ _ _ O).
Defined.

Lemma upstream_status_and_headers_witness :
  status (fst (proxy (idna := asciiHosts) upstream (request "https://h/a/b/seg1.ts"))) = 200 /\
  getHeader (outHeaders (fst (proxy (idna := asciiHosts) upstream
                                    (request "https://h/a/b/seg1.ts"))))
            "content-type"
  = Some (str "application/x-mpegURL").
Proof.
  destruct (outbound (idna := asciiHosts) (str "https://h/a/b/seg1.ts")
                     (request "https://h/a/b/seg1.ts"))
    as [out|] eqn:O; [|vm_compute in O; discriminate].
  destruct (upstream_status_and_headers_kept (idna := asciiHosts) upstream
              (request "https://h/a/b/seg1.ts") (str "https://h/a/b/seg1.ts") out
              upstreamResponse "content-type" eq_refl O eq_refl) as [S H].
  split; [exact S|]. rewrite H by (right; reflexivity). reflexivity.
Defined.

End RelayProperties.

(** ** The catch-all relay always goes to the CDN *)

Module CatchAllProperties.

Import Relay CatchAll RelayClaims RelayProperties Examples.

Lemma sameAuthority_refl : forall u, sameAuthority u u.
Proof. intro u. repeat split. Qed.

Lemma sameAuthority_trans :
  forall u v w, sameAuthority u v -> sameAuthority v w -> sameAuthority u w.
Proof.
  unfold sameAuthority. intros u v w (A & B & C) (D & E & F).
  repeat split; congruence.
Qed.

Lemma fragmentState_authority : forall u rest, sameAuthority u (fragmentState u rest).
Proof. intros u rest. repeat split. Qed.

Lemma queryState_authority : forall u rest, sameAuthority u (queryState u rest).
Proof.
  intros u rest. unfold queryState.
  destruct (breakAt HASH rest) as [buffer [after|]]; repeat split.
Qed.

Lemma shorten_authority : forall u, sameAuthority u (shorten u).
Proof.
  intro u. unfold shorten.
  destruct (segments u) as [|d [|e l]]; try (repeat split; fail).
  destruct (String.eqb (scheme u) "file" && isNormalizedWindowsDriveLetter (codes d));
    repeat split.
Qed.

Lemma appendSegment_authority : forall u s, sameAuthority u (appendSegment u s).
Proof. intros u s. repeat split. Qed.

Lemma endSegment_authority :
  forall u buffer c, sameAuthority u (endSegment u buffer c).
Proof.
  intros u buffer c. unfold endSegment.
  destruct (isDoubleDot buffer).
  - destruct (match c with
              | Some c0 => (c0 =? SLASH) || (isSpecial u && (c0 =? BACKSLASH))
              | None => false
              end).
    + apply shorten_authority.
    + eapply sameAuthority_trans; [apply shorten_authority | apply appendSegment_authority].
  - destruct (isSingleDot buffer).
    + destruct (match c with
                | Some c0 => (c0 =? SLASH) || (isSpecial u && (c0 =? BACKSLASH))
                | None => false
                end); [apply sameAuthority_refl | apply appendSegment_authority].
    + apply appendSegment_authority.
Qed.

(** The path state changes neither scheme, host nor port. *)
Lemma pathState_authority :
  forall rest u buffer, sameAuthority u (pathState u buffer rest).
Proof.
  induction rest as [|c rest IH]; intros u buffer; cbn [pathState].
  - apply endSegment_authority.
  - destruct ((c =? SLASH) || (isSpecial u && (c =? BACKSLASH))).
    + eapply sameAuthority_trans; [apply endSegment_authority | apply IH].
    + destruct (c =? QUESTION).
      * eapply sameAuthority_trans; [apply endSegment_authority | apply queryState_authority].
      * destruct (c =? HASH).
        -- eapply sameAuthority_trans;
             [apply endSegment_authority | apply fragmentState_authority].
        -- apply IH.
Qed.

Lemma dropWhile_stops :
  forall p l x m, p x = false -> dropWhile p (l ++ x :: m) = dropWhile p l ++ x :: m.
Proof.
  intros p l x m E. induction l as [|c l IH]; cbn.
  - rewrite E. reflexivity.
  - destruct (p c); [exact IH | reflexivity].
Qed.

(** Stripping at the end does not reach past a code point that stays. *)
Lemma strip_end :
  forall p a x b,
    p x = false ->
    rev (dropWhile p (rev (a ++ x :: b))) = a ++ x :: rev (dropWhile p (rev b)).
Proof.
  intros p a x b E.
  rewrite rev_app_distr. cbn [rev]. rewrite <- app_assoc. cbn [app].
  rewrite dropWhile_stops by exact E.
  rewrite rev_app_distr. cbn [rev]. rewrite rev_involutive.
  rewrite <- app_assoc. reflexivity.
Qed.

Section Handler.

Context {idna : IDNA}.

Lemma parse_cdn_prefix :
  forall rest,
    schemeStartState None (baseStreamHost ++ SLASH :: rest)
    = Some (pathState cdnOrigin "" rest).
Proof. intro rest. reflexivity. Qed.

(** The parser reads the fixed host and goes on in the path state. *)
Lemma cdn_url_parses :
  forall (rest : jstring),
    URL_new (baseStreamHost ++ SLASH :: rest) None
    = Some (pathState cdnOrigin "" (cleaned rest)).
Proof.
  intro rest. unfold URL_new, basicParse, cleaned.
  assert (toUSV (baseStreamHost ++ SLASH :: rest) = baseStreamHost ++ SLASH :: toUSV rest)
    as -> by reflexivity.
  assert (forall l, dropWhile isC0ControlOrSpace (baseStreamHost ++ l) = baseStreamHost ++ l)
    as -> by reflexivity.
  rewrite strip_end by reflexivity.
  rewrite filter_app.
  assert (forall l, filter (fun c => negb (isTabOrNewline c)) baseStreamHost ++
                    filter (fun c => negb (isTabOrNewline c)) (SLASH :: l)
                    = baseStreamHost ++ SLASH :: filter (fun c => negb (isTabOrNewline c)) l)
    as -> by reflexivity.
  rewrite parse_cdn_prefix. reflexivity.
Qed.

Lemma cdn_path_on_cdn :
  forall (input : list N),
    protocol (pathState cdnOrigin "" input) = str "https:" /\
    hostOf (pathState cdnOrigin "" input) = str cdnHost.
Proof.
  intro input.
  destruct (pathState_authority input cdnOrigin "") as (S & Ho & Po).
  unfold protocol, hostOf. rewrite S, Ho, Po. split; reflexivity.
Qed.

(** X10: a path appended to the fixed host always gives a URL, and that URL
    is on the CDN over [https], whatever the path is: no path, query or
    fragment can move the request to another host. *)
Theorem catch_all_url_is_on_cdn :
  forall (rest : jstring),
    exists urlObj,
      URL_new (baseStreamHost ++ SLASH :: rest) None = Some urlObj /\
      protocol urlObj = str "https:" /\
      hostOf urlObj = str cdnHost.
Proof.
  intro rest. exists (pathState cdnOrigin "" (cleaned rest)).
  split; [apply cdn_url_parses | apply cdn_path_on_cdn].
Qed.

(** X11: a request for a path outside [/epg] and [/proxy] is relayed to the
    CDN: one request, over TLS, for the fixed host followed by the
    original path and query, with [Host] the CDN and the anti-bot
    headers; the setup never fails. *)
Theorem catch_all_relays_to_cdn :
  forall (net : Outbound -> Upstream) (req : PathRequest) (rest : jstring),
    startsWith (reqPath req) (str "/epg") = false ->
    startsWith (reqPath req) (str "/proxy") = false ->
    originalUrl req = SLASH :: rest ->
    exists response out,
      catchAll net req = Some (response, [out]) /\
      client out = https /\
      target out = baseStreamHost ++ originalUrl req /\
      method out = "GET"%string /\
      getHeader (headers out) "Host" = Some (str cdnHost) /\
      getHeader (headers out) "Referer" = Some referer /\
      getHeader (headers out) "Origin" = Some origin /\
      response = match net out with
                 | NetworkError => send 500 "Catch-all streaming proxy failed"
                 | Responds proxyRes =>
                     mkResponse (statusCode proxyRes) (copied proxyRes)
                                (Piped (chunks proxyRes))
                 end.
Proof.
  intros net req rest E P O.
  pose proof (cdn_url_parses rest) as U.
  destruct (cdn_path_on_cdn (cleaned rest)) as [Pr Ho].
  set (urlObj := pathState cdnOrigin "" (cleaned rest)) in *.
  unfold catchAll. rewrite E, P, O, U. cbn [orb].
  assert (clientFor urlObj = https) as C.
  { unfold clientFor. rewrite Pr. reflexivity. }
  assert (clientAccepts https urlObj = true) as A.
  { unfold clientAccepts. rewrite Pr. reflexivity. }
  rewrite C, A.
  set (out := mkOutbound https (baseStreamHost ++ SLASH :: rest) "GET"
                         (catchAllHeaders urlObj req)).
  exists (match net out with
          | NetworkError => send 500 "Catch-all streaming proxy failed"
          | Responds proxyRes =>
              mkResponse (statusCode proxyRes) (copied proxyRes) (Piped (chunks proxyRes))
          end), out.
  split.
  - destruct (net out); reflexivity.
  - cbn [client target method headers].
    repeat (split; [reflexivity|]).
    assert (forall name v, getHeader [("Host"%string, hostOf urlObj); ("User-Agent"%string, userAgent);
                                      ("Accept"%string, str "*/*");
                                      ("Connection"%string, str "keep-alive");
                                      ("Referer"%string, str "https://www.shahid.net/");
                                      ("Origin"%string, str "https://www.shahid.net")] name = Some v ->
                           name <> "Cookie"%string ->
                           getHeader (catchAllHeaders urlObj req) name = Some v) as K.
    { intros name v G D. unfold catchAllHeaders.
      destruct (missing (pathCookie req)); [exact G|].
      destruct (pathCookie req) as [c|]; [|exact G].
      rewrite getHeader_setHeader_other by exact D. exact G. }
    split; [apply K; [rewrite Ho; reflexivity | discriminate]|].
    split; [apply K; [reflexivity | discriminate]|].
    split; [apply K; [reflexivity | discriminate]|].
    reflexivity.
Qed.

(** Requests for the reserved routes are left to them. *)
Lemma catch_all_skips_reserved :
  forall (net : Outbound -> Upstream) (req : PathRequest),
    startsWith (reqPath req) (str "/epg") = true
    \/ startsWith (reqPath req) (str "/proxy") = true ->
    catchAll net req = None.
Proof.
  intros net req [E | E]; unfold catchAll; rewrite E; [reflexivity|].
  rewrite orb_true_r. reflexivity.
Qed.

End Handler.

Lemma catch_all_url_witness :
  option_map serialize
             (URL_new (idna := asciiHosts)
                      (baseStreamHost ++ str "/live/../x/@evil.example/seg1.ts?t=1") None)
  = Some "https://shd-gcp-live.edgenextcdn.net/x/@evil.example/seg1.ts?t=1"%string.
Proof. vm_compute. reflexivity. Qed.

Lemma catch_all_relays_witness :
  exists response out,
    catchAll (idna := asciiHosts) upstream
             (mkPathRequest (str "/live/seg1.ts") (str "/live/seg1.ts?t=1") None)
    = Some (response, [out]) /\
    client out = https /\
    target out = str "https://shd-gcp-live.edgenextcdn.net/live/seg1.ts?t=1" /\
    getHeader (headers out) "Host" = Some (str cdnHost).
Proof.
  destruct (catch_all_relays_to_cdn (idna := asciiHosts) upstream
              (mkPathRequest (str "/live/seg1.ts") (str "/live/seg1.ts?t=1") None)
              (str "live/seg1.ts?t=1") eq_refl eq_refl eq_refl)
    as (response & out & C & Cl & T & _ & Ho & _).
  exists response, out. repeat split; assumption.
Defined.

End CatchAllProperties.

(** ** More on the EPG filter *)

Module EpgProperties.

Import Epg Examples.

Lemma entries_fail :
  forall ps p, In p ps -> entry p = None -> entries ps = None.
Proof.
  induction ps as [|q ps IH]; intros p I E; [destruct I|].
  cbn [entries]. destruct I as [-> | I].
  - rewrite E. reflexivity.
  - rewrite (IH p I E). destruct (entry q); reflexivity.
Qed.

Lemma entry_complete :
  forall p,
    prop p "start" <> None -> prop p "stop" <> None ->
    entry p = Some (mkEntry (first p "start") (first p "stop") (firstOrNull p "title")
                            (firstOrNull p "sub-title") (firstOrNull p "desc")).
Proof.
  intros p A B. unfold entry, firstOf, first.
  destruct (prop p "start") as [[|a ?]|]; [| |contradiction];
    destruct (prop p "stop") as [[|b ?]|]; try contradiction; reflexivity.
Qed.

Lemma entries_complete :
  forall ps,
    (forall p, In p ps -> prop p "start" <> None /\ prop p "stop" <> None) ->
    entries ps
    = Some (map (fun p => mkEntry (first p "start") (first p "stop")
                                   (firstOrNull p "title") (firstOrNull p "sub-title")
                                   (firstOrNull p "desc")) ps).
Proof.
  induction ps as [|p ps IH]; intro K; [reflexivity|].
  cbn [entries map].
  destruct (K p (or_introl eq_refl)) as [A B].
  rewrite (entry_complete p A B), IH; [reflexivity|].
  intros q I. apply K. right. exact I.
Qed.

(** X12: without a channel, or with an empty one, the answer is 400 whatever
    the guide, in every script. *)
Theorem missing_channel_is_400 :
  forall (env : Env) (req : Request),
    missing (query_channel req) = true ->
    epg env req = failure 400 "Missing 'channel' query param" /\
    EpgDecorated.epg env req = failure 400 "Missing 'channel' query param".
Proof.
  intros env req M. unfold epg, EpgDecorated.epg, missing in *.
  destruct (query_channel req) as [c|]; [|split; reflexivity].
  rewrite M. split; reflexivity.
Qed.

(** X13: a guide that cannot be fetched or parsed, or whose root is not a
    non-empty [tv], is answered with status 500 and no document. *)
Theorem guide_failures_are_500 :
  forall (env : Env) (req : Request) (channelFilter : jstring),
    query_channel req = Some channelFilter ->
    truthy channelFilter = true ->
    (axios_get env epgUrl = None ->
     epg env req = failure 500 "Failed to fetch or parse EPG")
    /\
    (forall xmlData,
        axios_get env epgUrl = Some xmlData ->
        parseStringPromise env xmlData = None ->
        epg env req = failure 500 "Failed to fetch or parse EPG")
    /\
    (forall xmlData parsed,
        axios_get env epgUrl = Some xmlData ->
        parseStringPromise env xmlData = Some parsed ->
        match tv parsed with
        | None => True
        | Some root => truthyNode root = false
        end ->
        epg env req = failure 500 "Invalid EPG format").
Proof.
  intros env req channelFilter C T. unfold epg. rewrite C, T. cbn [negb].
  split; [|split].
  - intros ->. reflexivity.
  - intros xmlData -> ->. reflexivity.
  - intros xmlData parsed -> -> R.
    destruct (tv parsed) as [root|]; [rewrite R|]; reflexivity.
Qed.

(** What [req.query.format || "xml"] is compared with. *)
Lemma format_not_json :
  forall req,
    query_format req <> Some (str "json") ->
    jstring_eqb match query_format req with
                | Some f => if truthy f then f else str "xml"
                | None => str "xml"
                end (str "json") = false.
Proof.
  intros req F.
  destruct (query_format req) as [f|]; [|reflexivity].
  destruct (truthy f); [|reflexivity].
  unfold jstring_eqb. destruct (list_eq_dec N.eq_dec f (str "json")); [|reflexivity].
  subst f. contradiction.
Qed.

(** X14: with a channel given and a guide that parses to a [tv] root,
    every format but [json], and no format at all, takes the XML branch:
    when the root is not empty, the builder is given the programmes of
    the channel, in the order of the guide, and the answer is its
    document with status 200, or 500 when the builder throws; for the
    empty root the answer is 500 "Invalid EPG format".  The second
    script answers the same. *)
Theorem xml_is_the_default :
  forall (env : Env) (req : Request) (channelFilter xmlData : jstring)
         (parsed : Parsed) (root : Node),
    query_channel req = Some channelFilter ->
    truthy channelFilter = true ->
    axios_get env epgUrl = Some xmlData ->
    parseStringPromise env xmlData = Some parsed ->
    tv parsed = Some root ->
    query_format req <> Some (str "json") ->
    epg env req
    = (if truthyNode root then
         match buildObject env (filter (matchesChannel channelFilter) (allProgrammes root)) with
         | Some filteredXml => mkEpgResponse 200 xml (Xml filteredXml)
         | None => failure 500 "Failed to fetch or parse EPG"
         end
       else failure 500 "Invalid EPG format")
    /\ EpgDecorated.epg env req = epg env req.
Proof.
  intros env req channelFilter xmlData parsed root C T A P R F.
  unfold epg, EpgDecorated.epg.
  rewrite C, T, A, P, R, (format_not_json req F). cbn [negb].
  destruct (truthyNode root); split; reflexivity.
Qed.

(** X15: with [format=json] and a guide that parses to a [tv] root, when
    every programme of the channel has a start and a stop, the answer
    lists one entry per such programme, in the order of the guide, with
    its first start and its first stop; title, sub-title and description
    are [null] when absent or empty.  That is for a root that is not
    empty; for the empty root the answer is 500 "Invalid EPG format". *)
Theorem json_lists_the_channel :
  forall (env : Env) (req : Request) (channelFilter xmlData : jstring)
         (parsed : Parsed) (root : Node),
    query_channel req = Some channelFilter ->
    truthy channelFilter = true ->
    axios_get env epgUrl = Some xmlData ->
    parseStringPromise env xmlData = Some parsed ->
    tv parsed = Some root ->
    query_format req = Some (str "json") ->
    (forall p, In p (allProgrammes root) -> matchesChannel channelFilter p = true ->
               first p "start" <> None /\ first p "stop" <> None) ->
    epg env req
    = if truthyNode root then
        mkEpgResponse 200 json
          (JsonEPG channelFilter
             (map (fun p => mkEntry (first p "start") (first p "stop")
                                     (firstOrNull p "title") (firstOrNull p "sub-title")
                                     (firstOrNull p "desc"))
                  (filter (matchesChannel channelFilter) (allProgrammes root))))
      else failure 500 "Invalid EPG format".
Proof.
  intros env req channelFilter xmlData parsed root C T A P R F K.
  unfold epg. rewrite C, T, F, A, P, R. cbn [negb truthy str].
  destruct (truthyNode root); cbn [negb]; [|reflexivity].
  rewrite entries_complete; [reflexivity|].
  intros p I. apply filter_In in I as [I M].
  destruct (K p I M) as [S E]. unfold first in S, E.
  split; intro N; [rewrite N in S | rewrite N in E]; contradiction.
Qed.

Section Served.

Variables (env : Env) (req : Request) (channelFilter xmlData : jstring)
          (parsed : Parsed) (root : Node).

Hypothesis channel_given : query_channel req = Some channelFilter.
Hypothesis channel_not_empty : truthy channelFilter = true.
Hypothesis fetched : axios_get env epgUrl = Some xmlData.
Hypothesis parsed_ok : parseStringPromise env xmlData = Some parsed.
Hypothesis root_is_tv : tv parsed = Some root.
Hypothesis root_truthy : truthyNode root = true.

(** X16: with [format=json], a programme of the channel without start or
    stop makes the handler throw, and the answer is 500, in the first
    and third script of part_000 and in src/proxy.js; the second script
    answers 200 with [null] in its place. *)
Theorem json_without_start_or_stop :
  forall p,
    query_format req = Some (str "json") ->
    In p (allProgrammes root) -> matchesChannel channelFilter p = true ->
    prop p "start" = None \/ prop p "stop" = None ->
    epg env req = failure 500 "Failed to fetch or parse EPG" /\
    EpgDecorated.epg env req
    = mkEpgResponse 200 json
        (JsonEPG channelFilter
           (map EpgDecorated.entry
                (filter (matchesChannel channelFilter) (allProgrammes root)))).
Proof.
  intros p F I M S. unfold epg, EpgDecorated.epg.
  rewrite channel_given, channel_not_empty, F, fetched, parsed_ok, root_is_tv, root_truthy.
  cbn [negb truthy str]. split; [|reflexivity].
  rewrite (entries_fail _ p); [reflexivity | apply filter_In; split; assumption |].
  unfold entry, firstOf. destruct S as [-> | ->]; [reflexivity|].
  destruct (prop p "start") as [[|]|]; reflexivity.
Qed.

End Served.

Lemma missing_channel_witness :
  epg guideEnv (mkRequest None None (Some (str "json")) None)
  = failure 400 "Missing 'channel' query param" /\
  EpgDecorated.epg guideEnv (mkRequest None None (Some (str "json")) None)
  = failure 400 "Missing 'channel' query param".
Proof. apply missing_channel_is_400. reflexivity. Defined.

Lemma guide_failures_witness :
  epg (mkEnv (fun _ => None) (fun _ => None) built) (epgRequest "bbc" "json")
  = failure 500 "Failed to fetch or parse EPG" /\
  epg (mkEnv (fun _ => Some guideXml) (fun _ => None) built) (epgRequest "bbc" "json")
  = failure 500 "Failed to fetch or parse EPG" /\
  epg otherRootEnv (epgRequest "bbc" "json") = failure 500 "Invalid EPG format".
Proof.
  split; [|split].
  - apply (proj1 (guide_failures_are_500 _ (epgRequest "bbc" "json") (str "bbc")
                    eq_refl eq_refl)). reflexivity.
  - apply (proj1 (proj2 (guide_failures_are_500 _ (epgRequest "bbc" "json") (str "bbc")
                           eq_refl eq_refl)) guideXml); reflexivity.
  - apply (proj2 (proj2 (guide_failures_are_500 otherRootEnv (epgRequest "bbc" "json")
                           (str "bbc") eq_refl eq_refl))
                 (str "<html/>") (str "html", Text [])); try reflexivity; exact I.
Defined.

(** Without a format: the document of the builder, 500 when the builder
    throws, 500 for the empty guide. *)
Lemma xml_is_the_default_witness :
  epg guideEnv (mkRequest None (Some (str "bbc")) None None)
  = mkEpgResponse 200 xml
      (Xml (str "<tv><programme><channel>bbc</channel><start>20240101000000 +0000</start><stop>20240101010000 +0000</stop><title>News</title></programme></tv>"))
  /\ epg (mkEnv (fun _ => Some guideXml) (fun _ => Some guide) refused)
          (mkRequest None (Some (str "bbc")) None None)
     = failure 500 "Failed to fetch or parse EPG"
  /\ epg emptyGuideEnv (mkRequest None (Some (str "bbc")) None None)
     = failure 500 "Invalid EPG format".
Proof.
  split; [|split].
  - apply (proj1 (xml_is_the_default guideEnv (mkRequest None (Some (str "bbc")) None None)
                    (str "bbc") guideXml guide (snd guide)
                    eq_refl eq_refl eq_refl eq_refl eq_refl ltac:(discriminate))).
  - apply (proj1 (xml_is_the_default
                    (mkEnv (fun _ => Some guideXml) (fun _ => Some guide) refused)
                    (mkRequest None (Some (str "bbc")) None None)
                    (str "bbc") guideXml guide (snd guide)
                    eq_refl eq_refl eq_refl eq_refl eq_refl ltac:(discriminate))).
  - apply (proj1 (xml_is_the_default emptyGuideEnv
                    (mkRequest None (Some (str "bbc")) None None)
                    (str "bbc") (str "<tv/>") emptyGuide (snd emptyGuide)
                    eq_refl eq_refl eq_refl eq_refl eq_refl ltac:(discriminate))).
Defined.

Lemma json_lists_the_channel_witness :
  epg guideEnv (epgRequest "bbc" "json")
  = mkEpgResponse 200 json
      (JsonEPG (str "bbc")
         [mkEntry (Some (Text (str "20240101000000 +0000")))
                  (Some (Text (str "20240101010000 +0000")))
                  (Some (Text (str "News"))) None None])
  /\ epg emptyGuideEnv (epgRequest "bbc" "json") = failure 500 "Invalid EPG format".
Proof.
  split.
  - apply (json_lists_the_channel guideEnv (epgRequest "bbc" "json") (str "bbc") guideXml
             guide (snd guide)); try reflexivity.
    intros p [<- | []] _. split; discriminate.
  - apply (json_lists_the_channel emptyGuideEnv (epgRequest "bbc" "json") (str "bbc")
             (str "<tv/>") emptyGuide (snd emptyGuide)); try reflexivity.
    intros p [].
Defined.

Lemma json_without_stop_witness :
  epg openEndedEnv (epgRequest "bbc" "json")
  = failure 500 "Failed to fetch or parse EPG" /\
  EpgDecorated.epg openEndedEnv (epgRequest "bbc" "json")
  = mkEpgResponse 200 json
      (JsonEPG (str "bbc")
         [mkEntry (Some (Text (str "20240101000000 +0000"))) None None None None]).
Proof.
  apply (json_without_start_or_stop openEndedEnv
           (epgRequest "bbc" "json") (str "bbc") guideXml openEnded (snd openEnded)
           eq_refl eq_refl eq_refl eq_refl eq_refl eq_refl
           (Element [(str "channel", [Text (str "bbc")]);
                     (str "start", [Text (str "20240101000000 +0000")])]));
    try reflexivity.
  - left. reflexivity.
  - right. reflexivity.
Defined.

End EpgProperties.

(** ** The options of the relay on express-http-proxy *)

Module DecoratedProperties.

Import Relay Decorated RelayProperties JSFacts Examples.

Section Options.

Context {idna : IDNA}.

(** X17: for a URL with a host, without credentials, fragment or empty
    query, the host and the path handed to the proxy library make up
    the URL again. *)
Theorem host_and_path_make_the_url :
  forall (targetUrl : jstring) (url : URL),
    URL_new targetUrl None = Some url ->
    host url <> None ->
    username url = ""%string -> password url = ""%string ->
    fragment url = None -> query url <> Some ""%string ->
    proxyReqPathResolver (mkRequest (Some targetUrl) None None None)
    = Some (pathname url ++ search url) /\
    proxyHost targetUrl ++ pathname url ++ search url = href url.
Proof.
  intros targetUrl url P Ho Us Pw Fr Qu.
  unfold proxyReqPathResolver, proxyHost. cbn [query_url]. rewrite P.
  split; [reflexivity|].
  unfold href, serialize, protocol, hostOf, pathname, search.
  rewrite Us, Pw, Fr. cbn [String.eqb negb orb].
  destruct (host url) as [h|]; [|contradiction].
  destruct (port url) as [p|]; destruct (query url) as [[|q0 q]|];
    try contradiction; rewrite ?str_app; change (str "") with (@nil N);
    cbn [app]; rewrite <- ?app_assoc, ?app_nil_r; reflexivity.
Qed.

(** X18: for a target that does not name the CDN, the decorator sets [Host]
    to the host of the target and leaves every other header of the
    outgoing request as it was. *)
Theorem decorator_only_sets_host :
  forall (headers : Headers) (srcReq : Request) (streamUrl : jstring) (urlObj : URL),
    query_url srcReq = Some streamUrl ->
    URL_new streamUrl None = Some urlObj ->
    includes streamUrl cdn = false ->
    exists decorated,
      proxyReqOptDecorator headers srcReq = Some decorated /\
      getHeader decorated "Host" = Some (hostOf urlObj) /\
      forall name, name <> "Host"%string ->
                   getHeader decorated name = getHeader headers name.
Proof.
  intros headers srcReq streamUrl urlObj Q P C.
  unfold proxyReqOptDecorator. rewrite Q.
  assert (truthy streamUrl = true) as ->.
  { destruct streamUrl; [|reflexivity].
    rewrite RelayClaims.URL_new_empty in P. discriminate. }
  rewrite P. fold cdn. rewrite C.
  eexists. split; [reflexivity|]. split.
  - apply getHeader_setHeader_same.
  - intros name D. apply getHeader_setHeader_other, D.
Qed.

End Options.

Lemma host_and_path_witness :
  proxyReqPathResolver (idna := asciiHosts)
                       (mkRequest (Some (str "https://h:8443/a/b/master.m3u8?token=1"))
                                  None None None)
  = Some (str "/a/b/master.m3u8?token=1") /\
  proxyHost (idna := asciiHosts) (str "https://h:8443/a/b/master.m3u8?token=1")
  = str "https://h:8443".
Proof.
  destruct (URL_new (idna := asciiHosts) (str "https://h:8443/a/b/master.m3u8?token=1") None)
    as [url|] eqn:P; [|vm_compute in P; discriminate].
  assert (url = mkURL "https" "" "" (Some (Named "h")) (Some 8443)
                      (Segments ["a"; "b"; "master.m3u8"]%string) (Some "token=1"%string) None)
    as E by (vm_compute in P; congruence).
  destruct (host_and_path_make_the_url (idna := asciiHosts) _ url P) as [R _];
    try (rewrite E; cbn; congruence).
  split; [rewrite R, E; reflexivity | vm_compute; reflexivity].
Defined.

Lemma decorator_only_sets_host_witness :
  exists decorated,
    proxyReqOptDecorator (idna := asciiHosts)
                         [("Referer"%string, str "https://player.example/")]
                         (request "https://h/a/b/master.m3u8") = Some decorated /\
    getHeader decorated "Host" = Some (str "h") /\
    getHeader decorated "Referer" = Some (str "https://player.example/").
Proof.
  destruct (URL_new (idna := asciiHosts) masterUrl None) as [urlObj|] eqn:P;
    [|vm_compute in P; discriminate].
  destruct (decorator_only_sets_host (idna := asciiHosts)
              [("Referer"%string, str "https://player.example/")]
              (request "https://h/a/b/master.m3u8") masterUrl urlObj eq_refl P eq_refl)
    as (decorated & D & Ho & Fr).
  exists decorated. split; [exact D|]. split.
  - rewrite Ho. vm_compute in P. injection P as <-. reflexivity.
  - rewrite Fr by discriminate. reflexivity.
Defined.

End DecoratedProperties.

(** ** References decode to the URL they carry *)

Module DecodeProperties.

Import Playlist PlaylistFacts JSFacts RewriteFacts DecoderFacts RewriteClaims Decode
       Relay Examples.

Ltac Zify.zify_post_hook ::= Z.to_euclidean_division_equations.

Lemma lor_high :
  forall a k x, x < 2 ^ k -> N.lor (a * 2 ^ k) x = a * 2 ^ k + x.
Proof.
  intros a k x B.
  assert (N.land (a * 2 ^ k) x = 0) as disjoint.
  { apply N.bits_inj. intro n. rewrite N.land_spec, N.bits_0.
    rewrite <- N.shiftl_mul_pow2.
    destruct (N.lt_ge_cases n k) as [Lt | Ge].
    - rewrite N.shiftl_spec_low by exact Lt. reflexivity.
    - rewrite <- (N.mod_small x (2 ^ k)) by exact B.
      rewrite N.mod_pow2_bits_high by exact Ge. apply andb_false_r. }
  rewrite <- N.lxor_lor, <- N.add_nocarry_lxor by exact disjoint. reflexivity.
Qed.

Lemma utf8_arith :
  forall cp,
    cp < 0x110000 ->
    utf8 cp
    = if cp <? 0x80 then [cp]
      else if cp <? 0x800 then [0xC0 + cp / 64; 0x80 + cp mod 64]
      else if cp <? 0x10000 then
        [0xE0 + cp / 4096; 0x80 + (cp / 64) mod 64; 0x80 + cp mod 64]
      else [0xF0 + cp / 262144; 0x80 + (cp / 4096) mod 64;
            0x80 + (cp / 64) mod 64; 0x80 + cp mod 64].
Proof.
  intros cp B. unfold utf8.
  change 0x3F with (N.ones 6). rewrite !N.land_ones, !N.shiftr_div_pow2.
  change (2 ^ 6) with 64. change (2 ^ 12) with 4096. change (2 ^ 18) with 262144.
  destruct (N.ltb_spec cp 0x80); [reflexivity|].
  assert (forall x, N.lor 0x80 (x mod 64) = 0x80 + x mod 64) as L80.
  { intro x. apply (lor_high 2 6). change (2 ^ 6) with 64. lia. }
  rewrite !L80.
  destruct (N.ltb_spec cp 0x800).
  { rewrite (lor_high 6 5) by (change (2 ^ 5) with 32; lia). reflexivity. }
  destruct (N.ltb_spec cp 0x10000).
  { rewrite (lor_high 14 4) by (change (2 ^ 4) with 16; lia). reflexivity. }
  rewrite (lor_high 30 3) by (change (2 ^ 3) with 8; lia). reflexivity.
Qed.

Lemma utf8First_ascii : forall b, b <= 0x7F -> utf8First b = ([b], utf8Initial).
Proof. intros b B. unfold utf8First. destruct (N.leb_spec b 0x7F); [reflexivity | lia]. Qed.

Lemma utf8First_two :
  forall b, 0xC2 <= b <= 0xDF -> utf8First b = ([], mkUtf8 (b mod 32) 1 0x80 0xBF).
Proof.
  intros b B. unfold utf8First. change 0x1F with (N.ones 5). rewrite N.land_ones.
  destruct (N.leb_spec b 0x7F); [lia|].
  destruct (N.leb_spec 0xC2 b); [|lia]. destruct (N.leb_spec b 0xDF); [|lia]. reflexivity.
Qed.

Lemma utf8First_three :
  forall b, 0xE0 <= b <= 0xEF ->
    utf8First b = ([], mkUtf8 (b mod 16) 2 (if b =? 0xE0 then 0xA0 else 0x80)
                              (if b =? 0xED then 0x9F else 0xBF)).
Proof.
  intros b B. unfold utf8First. change 0xF with (N.ones 4). rewrite N.land_ones.
  destruct (N.leb_spec b 0x7F); [lia|].
  destruct (N.leb_spec 0xC2 b); [|lia]. destruct (N.leb_spec b 0xDF); [lia|]. cbn [andb].
  destruct (N.leb_spec 0xE0 b); [|lia]. destruct (N.leb_spec b 0xEF); [|lia]. reflexivity.
Qed.

Lemma utf8First_four :
  forall b, 0xF0 <= b <= 0xF4 ->
    utf8First b = ([], mkUtf8 (b mod 8) 3 (if b =? 0xF0 then 0x90 else 0x80)
                              (if b =? 0xF4 then 0x8F else 0xBF)).
Proof.
  intros b B. unfold utf8First. change 0x7 with (N.ones 3). rewrite N.land_ones.
  destruct (N.leb_spec b 0x7F); [lia|].
  destruct (N.leb_spec 0xC2 b); [|lia]. destruct (N.leb_spec b 0xDF); [lia|]. cbn [andb].
  destruct (N.leb_spec 0xE0 b); [|lia]. destruct (N.leb_spec b 0xEF); [lia|]. cbn [andb].
  destruct (N.leb_spec 0xF0 b); [|lia]. destruct (N.leb_spec b 0xF4); [|lia]. reflexivity.
Qed.

Lemma utf8Decode_first :
  forall b rest,
    utf8Decode utf8Initial (b :: rest)
    = fst (utf8First b) ++ utf8Decode (snd (utf8First b)) rest.
Proof. intros b rest. cbn. destruct (utf8First b). reflexivity. Qed.

Lemma utf8Decode_continue :
  forall cp need lo hi b rest,
    need <> 0 -> lo <= b <= hi ->
    utf8Decode (mkUtf8 cp need lo hi) (b :: rest)
    = if need =? 1 then (cp * 64 + b mod 64) :: utf8Decode utf8Initial rest
      else utf8Decode (mkUtf8 (cp * 64 + b mod 64) (need - 1) 0x80 0xBF) rest.
Proof.
  intros cp need lo hi b rest NZ B. cbn [utf8Decode bytesNeeded lowerBoundary upperBoundary codePoint].
  destruct (N.eqb_spec need 0); [contradiction|].
  destruct (N.ltb_spec b lo); [lia|]. destruct (N.ltb_spec hi b); [lia|]. cbn [orb].
  rewrite lor_shiftl_6. reflexivity.
Qed.

(** Decoding the encoding of a scalar value gives it back. *)
Lemma utf8Decode_utf8 :
  forall cp rest,
    isScalar cp = true ->
    utf8Decode utf8Initial (utf8 cp ++ rest) = cp :: utf8Decode utf8Initial rest.
Proof.
  intros cp rest S.
  assert (cp < 0xD800 \/ 0xE000 <= cp < 0x110000) as R by (revert S; unfold isScalar; bool_lia).
  rewrite utf8_arith by lia.
  destruct (N.ltb_spec cp 0x80).
  { cbn [app]. rewrite utf8Decode_first, utf8First_ascii by lia. reflexivity. }
  destruct (N.ltb_spec cp 0x800).
  { cbn [app]. rewrite utf8Decode_first, utf8First_two by lia. cbn [fst snd app].
    rewrite utf8Decode_continue by lia. cbn [N.eqb Pos.eqb]. f_equal. lia. }
  destruct (N.ltb_spec cp 0x10000).
  { cbn [app]. rewrite utf8Decode_first, utf8First_three by lia. cbn [fst snd app].
    rewrite utf8Decode_continue.
    2: discriminate.
    2:{ destruct (N.eqb_spec (0xE0 + cp / 4096) 0xE0);
        destruct (N.eqb_spec (0xE0 + cp / 4096) 0xED); lia. }
    cbn [N.eqb Pos.eqb N.sub Pos.sub_mask Pos.pred_double Pos.double_pred_mask].
    rewrite utf8Decode_continue by lia. cbn [N.eqb Pos.eqb]. f_equal. lia. }
  cbn [app]. rewrite utf8Decode_first, utf8First_four by lia. cbn [fst snd app].
  rewrite utf8Decode_continue.
  2: discriminate.
  2:{ destruct (N.eqb_spec (0xF0 + cp / 262144) 0xF0);
      destruct (N.eqb_spec (0xF0 + cp / 262144) 0xF4); lia. }
  change (3 =? 1) with false. change (3 - 1) with 2. cbv iota.
  rewrite utf8Decode_continue by lia.
  change (2 =? 1) with false. change (2 - 1) with 1. cbv iota.
  rewrite utf8Decode_continue by lia. cbn [N.eqb Pos.eqb]. f_equal. lia.
Qed.

Lemma hexDigit_value :
  forall n, n < 16 -> isAsciiHexDigit (hexDigit n) = true /\ hexValue (hexDigit n) = n.
Proof.
  intros n B. destruct n as [|p]; [split; reflexivity|].
  do 4 (destruct p as [p|p|]; try (split; reflexivity)); exfalso; lia.
Qed.

Lemma pctOctet_value :
  forall b, b < 256 ->
    isAsciiHexDigit (hexDigit ((b / 16) mod 16)) && isAsciiHexDigit (hexDigit (b mod 16)) = true
    /\ 16 * hexValue (hexDigit ((b / 16) mod 16)) + hexValue (hexDigit (b mod 16)) = b.
Proof.
  intros b B.
  destruct (hexDigit_value ((b / 16) mod 16)) as [H1 V1]; [lia|].
  destruct (hexDigit_value (b mod 16)) as [H2 V2]; [lia|].
  rewrite H1, H2, V1, V2. split; [reflexivity | lia].
Qed.

Lemma decodeFrom_octet :
  forall need octets b rest,
    b < 256 ->
    decodeFrom need octets (pctOctet b ++ rest)
    = match need with
      | O =>
          match leadingOnes b with
          | O => option_map (cons b) (decodeFrom 0 [] rest)
          | 1%nat => None
          | S (S k) => if (2 <? k)%nat then None else decodeFrom (S k) [b] rest
          end
      | 1%nat =>
          match validUtf8 (octets ++ [b]) with
          | Some cp => option_map (app (utf16 cp)) (decodeFrom 0 [] rest)
          | None => None
          end
      | S k => decodeFrom k (octets ++ [b]) rest
      end.
Proof.
  intros need octets b rest B.
  destruct (pctOctet_value b B) as [H V].
  unfold pctOctet. cbn [app decodeFrom]. rewrite N.eqb_refl, H, V. reflexivity.
Qed.

Lemma validUtf8_utf8 : forall cp, isScalar cp = true -> validUtf8 (utf8 cp) = Some cp.
Proof.
  intros cp S. unfold validUtf8.
  rewrite <- (app_nil_r (utf8 cp)) at 1. rewrite utf8Decode_utf8 by exact S.
  cbn [utf8Decode bytesNeeded utf8Initial N.eqb].
  unfold jstring_eqb. destruct (list_eq_dec N.eq_dec (utf8 cp) (utf8 cp)); congruence.
Qed.

(** The escapes of a scalar value decode to its UTF-16 code units. *)
Lemma decodeFrom_pctOctets :
  forall cp rest,
    isScalar cp = true ->
    decodeFrom 0 [] (pctOctets (utf8 cp) ++ rest)
    = option_map (app (utf16 cp)) (decodeFrom 0 [] rest).
Proof.
  intros cp rest S.
  pose proof (validUtf8_utf8 cp S) as V.
  assert (cp < 0xD800 \/ 0xE000 <= cp < 0x110000) as R by (revert S; unfold isScalar; bool_lia).
  rewrite utf8_arith in * by lia. unfold pctOctets.
  destruct (N.ltb_spec cp 0x80).
  { cbn [flat_map]. rewrite app_nil_r, decodeFrom_octet by lia.
    unfold leadingOnes, utf16. destruct (N.ltb_spec cp 0x80); [|lia].
    destruct (N.ltb_spec cp 0x10000); [reflexivity | lia]. }
  destruct (N.ltb_spec cp 0x800).
  { cbn [flat_map]. rewrite app_nil_r, <- !app_assoc.
    rewrite decodeFrom_octet by lia.
    assert (leadingOnes (0xC0 + cp / 64) = 2%nat) as ->.
    { unfold leadingOnes.
      destruct (N.ltb_spec (0xC0 + cp / 64) 0x80); [lia|].
      destruct (N.ltb_spec (0xC0 + cp / 64) 0xC0); [lia|].
      destruct (N.ltb_spec (0xC0 + cp / 64) 0xE0); [reflexivity | lia]. }
    cbn [Nat.ltb Nat.leb].
    rewrite decodeFrom_octet by lia. cbn [app]. rewrite V. reflexivity. }
  destruct (N.ltb_spec cp 0x10000).
  { cbn [flat_map]. rewrite app_nil_r, <- !app_assoc.
    rewrite decodeFrom_octet by lia.
    assert (leadingOnes (0xE0 + cp / 4096) = 3%nat) as ->.
    { unfold leadingOnes.
      destruct (N.ltb_spec (0xE0 + cp / 4096) 0x80); [lia|].
      destruct (N.ltb_spec (0xE0 + cp / 4096) 0xC0); [lia|].
      destruct (N.ltb_spec (0xE0 + cp / 4096) 0xE0); [lia|].
      destruct (N.ltb_spec (0xE0 + cp / 4096) 0xF0); [reflexivity | lia]. }
    cbn [Nat.ltb Nat.leb].
    rewrite decodeFrom_octet by lia. rewrite decodeFrom_octet by lia.
    cbn [app]. rewrite V. reflexivity. }
  cbn [flat_map]. rewrite app_nil_r, <- !app_assoc.
  rewrite decodeFrom_octet by lia.
  assert (leadingOnes (0xF0 + cp / 262144) = 4%nat) as ->.
  { unfold leadingOnes.
    destruct (N.ltb_spec (0xF0 + cp / 262144) 0x80); [lia|].
    destruct (N.ltb_spec (0xF0 + cp / 262144) 0xC0); [lia|].
    destruct (N.ltb_spec (0xF0 + cp / 262144) 0xE0); [lia|].
    destruct (N.ltb_spec (0xF0 + cp / 262144) 0xF0); [lia|].
    destruct (N.ltb_spec (0xF0 + cp / 262144) 0xF8); [reflexivity | lia]. }
  cbn [Nat.ltb Nat.leb].
  rewrite decodeFrom_octet by lia. rewrite decodeFrom_octet by lia.
  rewrite decodeFrom_octet by lia.
  cbn [app]. rewrite V. reflexivity.
Qed.

Lemma pair_scalar :
  forall c d,
    isHighSurrogate c = true -> isLowSurrogate d = true ->
    isScalar (pairCodePoint c d) = true /\ utf16 (pairCodePoint c d) = [c; d].
Proof.
  intros c d Hi Lo.
  assert (0xD800 <= c <= 0xDBFF) by (revert Hi; unfold isHighSurrogate; bool_lia).
  assert (0xDC00 <= d <= 0xDFFF) by (revert Lo; unfold isLowSurrogate; bool_lia).
  unfold isScalar, utf16, pairCodePoint. split; [bool_lia|].
  destruct (N.ltb_spec ((c - 0xD800) * 0x400 + (d - 0xDC00) + 0x10000) 0x10000); [lia|].
  f_equal; [lia|]. f_equal. lia.
Qed.

(** [decodeURIComponent] inverts [encodeURIComponent]. *)
Lemma decode_encode :
  forall s e,
    isCodeUnits s = true ->
    encodeURIComponent s = Some e -> decodeURIComponent e = Some s.
Proof.
  unfold decodeURIComponent, isCodeUnits.
  induction s as [| c | c d s IHs IHds] using list_pair_ind; intros e U.
  - intros [= <-]. reflexivity.
  - rewrite encodeURIComponent_cons. cbn [forallb] in U.
    apply andb_true_iff in U as [Uc _]. apply N.ltb_lt in Uc.
    destruct (uriUnreserved c) eqn:Un.
    + intros [= <-]. cbn [decodeFrom].
      assert ((c =? 0x25) = false) as ->.
      { revert Un. unfold uriUnreserved, isAsciiAlpha, isAsciiDigit. bool_lia. }
      reflexivity.
    + destruct (isHighSurrogate c) eqn:Hi; [discriminate|].
      destruct (isLowSurrogate c) eqn:Lo; [discriminate|].
      intros [= <-].
      assert (isScalar c = true) as S.
      { revert Hi Lo. unfold isScalar, isHighSurrogate, isLowSurrogate. bool_lia. }
      rewrite decodeFrom_pctOctets by exact S. cbn [decodeFrom option_map].
      unfold utf16. destruct (N.ltb_spec c 0x10000); [reflexivity | lia].
  - rewrite encodeURIComponent_cons. cbn [forallb] in U.
    apply andb_true_iff in U as [Uc U].
    pose proof U as Uds. cbn [forallb] in U. apply andb_true_iff in U as [Ud Us].
    apply N.ltb_lt in Uc.
    destruct (uriUnreserved c) eqn:Un.
    + destruct (encodeURIComponent (d :: s)) as [e'|] eqn:E; [|discriminate].
      intros [= <-]. cbn [decodeFrom].
      assert ((c =? 0x25) = false) as ->.
      { revert Un. unfold uriUnreserved, isAsciiAlpha, isAsciiDigit. bool_lia. }
      rewrite (IHds e' Uds eq_refl). reflexivity.
    + destruct (isHighSurrogate c) eqn:Hi.
      * destruct (isLowSurrogate d) eqn:Lo; [|discriminate].
        destruct (encodeURIComponent s) as [e'|] eqn:E; [|discriminate].
        intros [= <-].
        destruct (pair_scalar c d Hi Lo) as [S P].
        rewrite decodeFrom_pctOctets by exact S.
        rewrite (IHs e' Us eq_refl), P. reflexivity.
      * destruct (isLowSurrogate c) eqn:Lo; [discriminate|].
        destruct (encodeURIComponent (d :: s)) as [e'|] eqn:E; [|discriminate].
        intros [= <-].
        assert (isScalar c = true) as S.
        { revert Hi Lo. unfold isScalar, isHighSurrogate, isLowSurrogate. bool_lia. }
        rewrite decodeFrom_pctOctets by exact S.
        rewrite (IHds e' Uds eq_refl).
        unfold utf16. destruct (N.ltb_spec c 0x10000); [reflexivity | lia].
Qed.


(** X19: a reference made by the callbacks carries its URL: the parameter
    decodes to the URL that was encoded. *)
Theorem reference_decodes_to_url :
  forall (u v : jstring),
    isCodeUnits u = true ->
    proxied u = Some v ->
    exists e, v = str "/proxy?url=" ++ e /\ decodeURIComponent e = Some u.
Proof.
  intros u v U. unfold proxied.
  destruct (encodeURIComponent u) as [e|] eqn:E; [|discriminate].
  intros [= <-]. exists e. split; [reflexivity|]. apply decode_encode; assumption.
Qed.


Ltac Zify.zify_post_hook ::= idtac.






Lemma reference_decodes_witness :
  exists e,
    str "/proxy?url=https%3A%2F%2Fh%2Fa%2Fb%2Fseg1.ts" = str "/proxy?url=" ++ e /\
    decodeURIComponent e = Some (str "https://h/a/b/seg1.ts").
Proof.
  apply (reference_decodes_to_url (str "https://h/a/b/seg1.ts")); reflexivity.
Defined.


End DecodeProperties.
